(** * Health Fact Guardian: canonical fact hashing and the on-chain registry

    A shallow embedding of
    - the Solidity contract [HealthFactRegistry] (fact registry, status
      lifecycle, owner-gated writes),
    - the front-end canonicaliser and hasher ([canonicalizeJSON],
      [hashFactJSON] of [frontend/src/utils/canonicalHash.js]),
    - the registration script ([scripts/add_who_facts.js]),
    followed by the properties established about them. *)

From Stdlib Require Import ZArith NArith String Ascii List Lia Bool.
From stdpp Require Import base tactics option gmap strings list sorting pretty.

Local Open Scope string_scope.
Local Open Scope Z_scope.
Set Warnings "-register-all".

(* ===================================================================== *)
(** * The registry contract *)
(* ===================================================================== *)

Module Registry.

(** ** Enumerations (declaration order gives the numeric value) *)

Inductive Verdict := TRUE | FALSE | MISLEADING | UNPROVEN | PARTIALLY_TRUE.
Inductive Severity := LOW | MEDIUM | HIGH | CRITICAL.
Inductive Status := ACTIVE | SUPERSEDED | WITHDRAWN.

#[global] Instance Verdict_eq_dec : EqDecision Verdict.
Proof. solve_decision. Defined.
#[global] Instance Severity_eq_dec : EqDecision Severity.
Proof. solve_decision. Defined.
#[global] Instance Status_eq_dec : EqDecision Status.
Proof. solve_decision. Defined.

(** The value an enum member has on the wire. *)
Definition Status_value (s : Status) : Z :=
  match s with ACTIVE => 0 | SUPERSEDED => 1 | WITHDRAWN => 2 end.

(** ** Machine integers

    [bytes32], [address], [uint64], [uint16] and [uint256] values are
    integers; the two places where the contract's arithmetic can leave the
    range are written out: the explicit narrowing [uint64(...)] truncates,
    the checked increment of a [uint256] panics. *)

Definition uint64 (x : Z) : Z := x mod 2 ^ 64.
Definition MAX_UINT256 : Z := 2 ^ 256 - 1.

(** ** Structs *)

Record HealthFact := mkHealthFact {
  factHash : Z;
  factId : string;
  verdict : Verdict;
  severity : Severity;
  issuedAt : Z;
  lastReviewedAt : Z;
  version : Z;
  status : Status;
  addedBy : Z;
  addedAtBlock : Z
}.

(** What a storage slot of a [mapping(bytes32 => HealthFact)] reads as
    before anything was written to it. *)
Definition zeroFact : HealthFact :=
  {| factHash := 0; factId := EmptyString; verdict := TRUE; severity := LOW;
     issuedAt := 0; lastReviewedAt := 0; version := 0; status := ACTIVE;
     addedBy := 0; addedAtBlock := 0 |}.

Definition with_status (s : Status) (f : HealthFact) : HealthFact :=
  {| factHash := factHash f; factId := factId f; verdict := verdict f;
     severity := severity f; issuedAt := issuedAt f;
     lastReviewedAt := lastReviewedAt f; version := version f;
     status := s; addedBy := addedBy f; addedAtBlock := addedAtBlock f |}.

(** ** Contract storage *)

Record State := mkState {
  owner : Z;
  factsByHash : gmap Z HealthFact;
  hashByFactId : gmap string Z;
  allFactHashes : list Z;
  totalFacts : Z
}.

(** [factsByHash[h]] and [hashByFactId[id]]: a Solidity mapping is total,
    unwritten keys read as zero. *)
Definition readFact (st : State) (h : Z) : HealthFact :=
  default zeroFact (factsByHash st !! h).
Definition readHash (st : State) (id : string) : Z :=
  default 0 (hashByFactId st !! id).

(** ** Transaction context and events *)

Record Env := mkEnv {
  msg_sender : Z;
  block_timestamp : Z;
  block_number : Z
}.

Inductive Event :=
| FactAdded (factHash : Z) (factId : string) (verdict : Verdict)
    (severity : Severity) (addedBy : Z) (issuedAt : Z)
| FactUpdated (factHash : Z) (factId : string) (oldStatus newStatus : Status)
    (updatedBy : Z) (updatedAt : Z)
| OwnershipTransferred (previousOwner newOwner : Z) (transferredAt : Z).

(** ** Outcome of a call: success, [require] failure, or arithmetic panic *)

Inductive tx (A : Type) :=
| Success (a : A)
| Revert (reason : string)
| Panic (code : Z).
Arguments Success {A} a.
Arguments Revert {A} reason.
Arguments Panic {A} code.

#[global] Instance tx_ret : MRet tx := fun A a => Success a.
#[global] Instance tx_bind : MBind tx := fun A B k m =>
  match m with
  | Success a => k a
  | Revert r => Revert r
  | Panic c => Panic c
  end.

Definition require (cond : bool) (reason : string) : tx unit :=
  if cond then Success tt else Revert reason.

(** [x++] on a [uint256] under Solidity 0.8 checked arithmetic. *)
Definition checked_incr (x : Z) : tx Z :=
  if x <? MAX_UINT256 then Success (x + 1) else Panic 17.

Definition succeeded {A} (r : tx A) : bool :=
  match r with Success _ => true | _ => false end.

(** ** Modifiers *)

Definition onlyOwner (env : Env) (st : State) : tx unit :=
  require (msg_sender env =? owner st)
          "HealthFactRegistry: caller is not the owner".

Definition factNotExists (st : State) (_factHash : Z) : tx unit :=
  require (factHash (readFact st _factHash) =? 0)
          "HealthFactRegistry: fact already exists".

Definition factExists (st : State) (_factHash : Z) : tx unit :=
  require (negb (factHash (readFact st _factHash) =? 0))
          "HealthFactRegistry: fact does not exist".

(** ** Constructor *)

Definition constructor (env : Env) : State * Event :=
  ({| owner := msg_sender env; factsByHash := ∅; hashByFactId := ∅;
      allFactHashes := []; totalFacts := 0 |},
   OwnershipTransferred 0 (msg_sender env) (uint64 (block_timestamp env))).

(** ** Core functions *)

Definition addFact (env : Env) (st : State)
    (_factHash : Z) (_factId : string) (_verdict : Verdict)
    (_severity : Severity) (_issuedAt _lastReviewedAt _version : Z)
  : tx (State * Event) :=
  _ ← onlyOwner env st;
  _ ← factNotExists st _factHash;
  _ ← require (negb (_factHash =? 0)) "HealthFactRegistry: invalid fact hash";
  _ ← require (0 <? Z.of_nat (String.length _factId))
              "HealthFactRegistry: empty fact ID";
  _ ← require (0 <? _version) "HealthFactRegistry: version must be >= 1";
  _ ← require (_issuedAt <=? block_timestamp env)
              "HealthFactRegistry: future issuedAt timestamp";
  _ ← require (_issuedAt <=? _lastReviewedAt)
              "HealthFactRegistry: lastReviewedAt before issuedAt";
  _ ← require (readHash st _factId =? 0)
              "HealthFactRegistry: fact ID already exists";
  let newFact :=
    {| factHash := _factHash; factId := _factId; verdict := _verdict;
       severity := _severity; issuedAt := _issuedAt;
       lastReviewedAt := _lastReviewedAt; version := _version;
       status := ACTIVE; addedBy := msg_sender env;
       addedAtBlock := uint64 (block_number env) |} in
  total' ← checked_incr (totalFacts st);
  mret ({| owner := owner st;
           factsByHash := <[_factHash := newFact]> (factsByHash st);
           hashByFactId := <[_factId := _factHash]> (hashByFactId st);
           allFactHashes := allFactHashes st ++ [_factHash];
           totalFacts := total' |},
        FactAdded _factHash _factId _verdict _severity (msg_sender env)
                  _issuedAt).

Definition updateFactStatus (env : Env) (st : State)
    (_factHash : Z) (_newStatus : Status) : tx (State * Event) :=
  _ ← onlyOwner env st;
  _ ← factExists st _factHash;
  let fact := readFact st _factHash in
  let oldStatus := status fact in
  _ ← require (negb (bool_decide (oldStatus = _newStatus)))
              "HealthFactRegistry: status unchanged";
  mret ({| owner := owner st;
           factsByHash :=
             <[_factHash := with_status _newStatus fact]> (factsByHash st);
           hashByFactId := hashByFactId st;
           allFactHashes := allFactHashes st;
           totalFacts := totalFacts st |},
        FactUpdated _factHash (factId fact) oldStatus _newStatus
                    (msg_sender env) (uint64 (block_timestamp env))).

Definition getFactByHash (st : State) (_factHash : Z) : tx HealthFact :=
  _ ← factExists st _factHash;
  mret (readFact st _factHash).

Definition getFactById (st : State) (_factId : string) : tx HealthFact :=
  let factHash := readHash st _factId in
  _ ← require (negb (factHash =? 0)) "HealthFactRegistry: fact ID not found";
  mret (readFact st factHash).

Definition checkFactExists (st : State) (_factHash : Z) : bool * Status :=
  let fact := readFact st _factHash in
  (negb (factHash fact =? 0), status fact).

Definition getAllFactHashes (st : State) : list Z := allFactHashes st.

Definition transferOwnership (env : Env) (st : State) (_newOwner : Z)
  : tx (State * Event) :=
  _ ← onlyOwner env st;
  _ ← require (negb (_newOwner =? 0))
              "HealthFactRegistry: new owner is zero address";
  _ ← require (negb (_newOwner =? owner st))
              "HealthFactRegistry: new owner is current owner";
  let oldOwner := owner st in
  mret ({| owner := _newOwner;
           factsByHash := factsByHash st;
           hashByFactId := hashByFactId st;
           allFactHashes := allFactHashes st;
           totalFacts := totalFacts st |},
        OwnershipTransferred oldOwner _newOwner
                             (uint64 (block_timestamp env))).

(** ** Transactions against a deployed contract

    A state-changing call either commits its new state or, when it reverts
    or panics, leaves storage as it was. *)

Inductive Call :=
| CallAddFact (_factHash : Z) (_factId : string) (_verdict : Verdict)
    (_severity : Severity) (_issuedAt _lastReviewedAt _version : Z)
| CallUpdateFactStatus (_factHash : Z) (_newStatus : Status)
| CallTransferOwnership (_newOwner : Z).

Definition call (env : Env) (st : State) (c : Call) : tx (State * Event) :=
  match c with
  | CallAddFact h id v s i l n => addFact env st h id v s i l n
  | CallUpdateFactStatus h s => updateFactStatus env st h s
  | CallTransferOwnership a => transferOwnership env st a
  end.

Definition commit (st : State) (r : tx (State * Event)) : State :=
  match r with Success (st', _) => st' | _ => st end.

Definition step (st : State) (t : Env * Call) : State :=
  commit st (call t.1 st t.2).

Definition run (st : State) (ts : list (Env * Call)) : State :=
  foldl step st ts.

(** A hash is present when its slot holds a record: the test made by
    [factExists], [factNotExists] and [checkFactExists]. *)
Definition present (st : State) (h : Z) : Prop :=
  factHash (readFact st h) ≠ 0.

(** Whether some transaction of [ts], run from [st], registers hash [h]:
    an [addFact] call with that hash that goes through. *)
Fixpoint registers (st : State) (ts : list (Env * Call)) (h : Z) : bool :=
  match ts with
  | [] => false
  | t :: rest =>
      match t.2 with
      | CallAddFact h' _ _ _ _ _ _ =>
          (h' =? h) && succeeded (call t.1 st t.2)
      | _ => false
      end
      || registers (step st t) rest h
  end.

(** The conditions under which every check of [addFact] passes. *)
Definition addFact_ok (env : Env) (st : State) (h : Z) (id : string)
    (i l n : Z) : Prop :=
  msg_sender env = owner st ∧ factHash (readFact st h) = 0 ∧ h ≠ 0 ∧
  id ≠ EmptyString ∧ 0 < n ∧ i <= block_timestamp env ∧ i <= l ∧
  readHash st id = 0 ∧ totalFacts st < MAX_UINT256.

(** ** View helpers

    The parameter is of the enum type, so the final [return "unknown"] of
    each helper is never reached. *)

Definition verdictToString (_verdict : Verdict) : string :=
  match _verdict with
  | TRUE => "true"
  | FALSE => "false"
  | MISLEADING => "misleading"
  | UNPROVEN => "unproven"
  | PARTIALLY_TRUE => "partially_true"
  end.

Definition severityToString (_severity : Severity) : string :=
  match _severity with
  | LOW => "low"
  | MEDIUM => "medium"
  | HIGH => "high"
  | CRITICAL => "critical"
  end.

Definition statusToString (_status : Status) : string :=
  match _status with
  | ACTIVE => "active"
  | SUPERSEDED => "superseded"
  | WITHDRAWN => "withdrawn"
  end.

(** The value an enum member has on the wire, and the member a wire value
    decodes to (a value past the last member is refused by the decoder). *)
Definition Verdict_value (v : Verdict) : Z :=
  match v with
  | TRUE => 0 | FALSE => 1 | MISLEADING => 2 | UNPROVEN => 3
  | PARTIALLY_TRUE => 4
  end.
Definition Severity_value (s : Severity) : Z :=
  match s with LOW => 0 | MEDIUM => 1 | HIGH => 2 | CRITICAL => 3 end.
Definition Verdict_of_value (n : Z) : option Verdict :=
  if n =? 0 then Some TRUE else if n =? 1 then Some FALSE
  else if n =? 2 then Some MISLEADING else if n =? 3 then Some UNPROVEN
  else if n =? 4 then Some PARTIALLY_TRUE else None.
Definition Severity_of_value (n : Z) : option Severity :=
  if n =? 0 then Some LOW else if n =? 1 then Some MEDIUM
  else if n =? 2 then Some HIGH else if n =? 3 then Some CRITICAL
  else None.

(** ** Deployed contracts *)

(** The storage right after deployment by [msg_sender env]. *)
Definition deployed (env : Env) : State := (constructor env).1.

(** What the storage of a deployed contract satisfies at all times: the
    counter and the enumeration agree with the fact table, and the two
    mappings point at each other. *)
Record consistent (st : State) : Prop := mkConsistent {
  total_is_length : totalFacts st = Z.of_nat (List.length (allFactHashes st));
  hashes_distinct : NoDup (allFactHashes st);
  hashes_are_keys :
    forall h, h ∈ allFactHashes st <-> is_Some (factsByHash st !! h);
  fact_under_its_hash :
    forall h f, factsByHash st !! h = Some f ->
                factHash f = h ∧ h ≠ 0 ∧
                hashByFactId st !! factId f = Some h;
  id_points_at_fact :
    forall id h, hashByFactId st !! id = Some h ->
                 ∃ f, factsByHash st !! h = Some f ∧ factId f = id
}.

(** The hash a call names, if any. *)
Definition named_hash (c : Call) : option Z :=
  match c with
  | CallAddFact h _ _ _ _ _ _ => Some h
  | CallUpdateFactStatus h _ => Some h
  | CallTransferOwnership _ => None
  end.

End Registry.
(* ===================================================================== *)
(** * SHA-256 (FIPS 180-4), the digest behind [sha256] of viem *)
(* ===================================================================== *)

Module SHA256.
Local Open Scope N_scope.

Definition w32 (x : N) : N := x mod 2 ^ 32.
Definition add32 (x y : N) : N := w32 (x + y).
Definition rotr (n x : N) : N :=
  N.lor (N.shiftr x n) (w32 (N.shiftl x (32 - n))).
Definition not32 (x : N) : N := N.lxor x 4294967295.

Definition Ch (x y z : N) : N := N.lxor (N.land x y) (N.land (not32 x) z).
Definition Maj (x y z : N) : N :=
  N.lxor (N.lxor (N.land x y) (N.land x z)) (N.land y z).
Definition Sigma0 (x : N) : N :=
  N.lxor (N.lxor (rotr 2 x) (rotr 13 x)) (rotr 22 x).
Definition Sigma1 (x : N) : N :=
  N.lxor (N.lxor (rotr 6 x) (rotr 11 x)) (rotr 25 x).
Definition sigma0 (x : N) : N :=
  N.lxor (N.lxor (rotr 7 x) (rotr 18 x)) (N.shiftr x 3).
Definition sigma1 (x : N) : N :=
  N.lxor (N.lxor (rotr 17 x) (rotr 19 x)) (N.shiftr x 10).

Definition K : list N :=
  [ 1116352408; 1899447441; 3049323471; 3921009573;
    961987163; 1508970993; 2453635748; 2870763221;
    3624381080; 310598401; 607225278; 1426881987;
    1925078388; 2162078206; 2614888103; 3248222580;
    3835390401; 4022224774; 264347078; 604807628;
    770255983; 1249150122; 1555081692; 1996064986;
    2554220882; 2821834349; 2952996808; 3210313671;
    3336571891; 3584528711; 113926993; 338241895;
    666307205; 773529912; 1294757372; 1396182291;
    1695183700; 1986661051; 2177026350; 2456956037;
    2730485921; 2820302411; 3259730800; 3345764771;
    3516065817; 3600352804; 4094571909; 275423344;
    430227734; 506948616; 659060556; 883997877;
    958139571; 1322822218; 1537002063; 1747873779;
    1955562222; 2024104815; 2227730452; 2361852424;
    2428436474; 2756734187; 3204031479; 3329325298 ].

Definition H0 : list N :=
  [ 1779033703; 3144134277; 1013904242; 2773480762;
    1359893119; 2600822924; 528734635; 1541459225 ].

(** Big-endian bytes of a word, and back. *)
Fixpoint be_bytes (n : nat) (x : N) : list N :=
  match n with
  | O => []
  | S n' => (N.shiftr x (8 * N.of_nat n')) mod 256 :: be_bytes n' x
  end.
Definition be_word (bs : list N) : N :=
  fold_left (fun acc b => acc * 256 + b) bs 0.

(** Padding: a 1 bit, zeros up to 56 mod 64 bytes, the bit length on 8 bytes. *)
Definition pad (msg : list N) : list N :=
  let len := N.of_nat (List.length msg) in
  let zeros := N.to_nat ((119 - len mod 64) mod 64) in
  msg ++ [128] ++ repeat 0 zeros ++ be_bytes 8 (8 * len).

Fixpoint chunks (n : nat) (size : nat) (l : list N) : list (list N) :=
  match n with
  | O => []
  | S n' => firstn size l :: chunks n' size (skipn size l)
  end.

(** The message schedule, newest word first. *)
Fixpoint schedule (n : nat) (w : list N) : list N :=
  match n with
  | O => w
  | S n' =>
      let x := add32 (add32 (sigma1 (nth 1 w 0)) (nth 6 w 0))
                     (add32 (sigma0 (nth 14 w 0)) (nth 15 w 0)) in
      schedule n' (x :: w)
  end.

Record regs := mkRegs { ra : N; rb : N; rc : N; rd : N;
                        re : N; rf : N; rg : N; rh : N }.

Definition round (r : regs) (kw : N * N) : regs :=
  let t1 := add32 (add32 (add32 (rh r) (Sigma1 (re r)))
                         (add32 (Ch (re r) (rf r) (rg r)) (fst kw))) (snd kw) in
  let t2 := add32 (Sigma0 (ra r)) (Maj (ra r) (rb r) (rc r)) in
  {| ra := add32 t1 t2; rb := ra r; rc := rb r; rd := rc r;
     re := add32 (rd r) t1; rf := re r; rg := rf r; rh := rg r |}.

Definition compress (h : regs) (block : list N) : regs :=
  let w16 := map be_word (chunks 16 4 block) in
  let w := List.rev (schedule 48 (List.rev w16)) in
  let r := fold_left round (combine K w) h in
  {| ra := add32 (ra h) (ra r); rb := add32 (rb h) (rb r);
     rc := add32 (rc h) (rc r); rd := add32 (rd h) (rd r);
     re := add32 (re h) (re r); rf := add32 (rf h) (rf r);
     rg := add32 (rg h) (rg r); rh := add32 (rh h) (rh r) |}.

Definition init : regs :=
  {| ra := nth 0 H0 0; rb := nth 1 H0 0; rc := nth 2 H0 0; rd := nth 3 H0 0;
     re := nth 4 H0 0; rf := nth 5 H0 0; rg := nth 6 H0 0; rh := nth 7 H0 0 |}.

Definition digest (msg : list N) : list N :=
  let p := pad msg in
  let r := fold_left compress (chunks (List.length p / 64) 64 p) init in
  flat_map (be_bytes 4)
           [ra r; rb r; rc r; rd r; re r; rf r; rg r; rh r].

End SHA256.

(* ===================================================================== *)
(** * The canonicaliser and hasher of the front end *)
(* ===================================================================== *)

Module Canonical.

(** ** JavaScript values reaching the canonicaliser

    A string is its sequence of code units (characters below 256 here).
    A number is an integer-valued double, [Finite z] being the Number
    value for the integer [z] (the double nearest to it, as a numeric
    literal denotes), or one of the three non-finite doubles; fractions
    and the negative zero are left out. An object is a plain object: its
    own enumerable
    properties in insertion order; property names of one object are
    pairwise distinct (see [wf]). Functions, symbols, big integers and
    objects with a [toJSON] method are left out. *)

Inductive number := Finite (z : Z) | NaN | PosInfinity | NegInfinity.

Inductive value :=
| Undefined
| Null
| Boolean (b : bool)
| Number (n : number)
| Str (s : string)
| Array (items : list value)
| Object (props : list (string * value)).

(** [obj[key]] and [obj.key] on own properties. *)
Fixpoint get (props : list (string * value)) (key : string) : value :=
  match props with
  | [] => Undefined
  | (k, v) :: rest => if String.eqb k key then v else get rest key
  end.

(** [obj.key = v]: overwrite the property, or add it at the end. *)
Fixpoint set_prop (props : list (string * value)) (key : string) (v : value)
  : list (string * value) :=
  match props with
  | [] => [(key, v)]
  | (k, x) :: rest =>
      if String.eqb k key then (k, v) :: rest
      else (k, x) :: set_prop rest key v
  end.

(** [Object.keys(obj)]. (JavaScript lists integer-like names first; the
    one caller sorts the names, so the listing order plays no part.) *)
Definition keys (props : list (string * value)) : list string :=
  map fst props.

(** [a || b]: the left operand unless it is falsy. *)
Definition falsy (v : value) : bool :=
  match v with
  | Undefined | Null | Boolean false | Number NaN => true
  | Number (Finite z) => z =? 0
  | Str s => String.eqb s EmptyString
  | _ => false
  end.
Definition or_else (a b : value) : value := if falsy a then b else a.

(** A value is well formed when no object in it has two properties of the
    same name, as is the case for every JavaScript object. *)
Fixpoint wf (v : value) : Prop :=
  match v with
  | Array items => fold_right (fun x acc => wf x ∧ acc) True items
  | Object props =>
      NoDup (map fst props) ∧
      fold_right (fun kv acc => wf kv.2 ∧ acc) True props
  | _ => True
  end.

(** [reordered a b]: [b] is [a] with the properties of any of its objects
    listed in a possibly different order; names, values and the order of
    array elements are the same. *)
Inductive reordered : value -> value -> Prop :=
| reordered_Undefined : reordered Undefined Undefined
| reordered_Null : reordered Null Null
| reordered_Boolean b : reordered (Boolean b) (Boolean b)
| reordered_Number n : reordered (Number n) (Number n)
| reordered_Str s : reordered (Str s) (Str s)
| reordered_Array xs ys :
    Forall2 reordered xs ys -> reordered (Array xs) (Array ys)
| reordered_Object ps qs qs' :
    Forall2 (fun p q => p.1 = q.1 ∧ reordered p.2 q.2) ps qs' ->
    Permutation qs' qs ->
    reordered (Object ps) (Object qs).

(** ** [JSON.stringify] on primitives *)

Definition dquote : ascii := ascii_of_nat 34.
Definition backslash : ascii := ascii_of_nat 92.
Definition str1 (c : ascii) : string := String c EmptyString.

Definition hex_digit (n : N) : ascii :=
  match String.get (N.to_nat n) "0123456789abcdef" with
  | Some c => c
  | None => "0"%char
  end.

(** One code unit inside a JSON string literal. *)
Definition escape (c : ascii) : string :=
  let n := N_of_ascii c in
  if (n =? 8)%N then "\b"
  else if (n =? 9)%N then "\t"
  else if (n =? 10)%N then "\n"
  else if (n =? 12)%N then "\f"
  else if (n =? 13)%N then "\r"
  else if (n =? 34)%N then String backslash (str1 dquote)
  else if (n =? 92)%N then String backslash (str1 backslash)
  else if (n <? 32)%N then
    "\u00" +:+ String (hex_digit (n / 16)) (str1 (hex_digit (n mod 16)))
  else str1 c.

(** The 256 code units. *)
Definition code_units : list nat := seq 0 256.

Fixpoint escape_all (s : string) : string :=
  match s with
  | EmptyString => EmptyString
  | String c rest => escape c +:+ escape_all rest
  end.

Definition quote (s : string) : string :=
  String dquote (escape_all s +:+ str1 dquote).

(** *** Numbers, as [Number::toString] prints them

    The double nearest to a natural number, ties to the even mantissa;
    [None] when the number lies past the largest double and so stands
    for [Infinity]. *)
Definition to_double (a : N) : option N :=
  let rounded :=
    if (N.size a <=? 53)%N then a
    else
      let sh := (N.size a - 53)%N in
      let q := N.shiftr a sh in
      let r := (a - N.shiftl q sh)%N in
      let half := N.shiftl 1 (sh - 1) in
      let q' := if (half <? r)%N || ((r =? half)%N && N.odd q)
                then (q + 1)%N else q in
      N.shiftl q' sh in
  if (N.size rounded <=? 1024)%N then Some rounded else None.

Definition rounds_to (x v : N) : bool :=
  match to_double v with
  | Some y => (y =? x)%N
  | None => false
  end.

(** The digits [s] and the power of ten [e] with the fewest digits such
    that [s * 10 ^ e] rounds to the double [x]; of two such [s] the one
    nearer to [x], and the even one when they are as near. The search
    goes from no digit upwards, [e] counting down from the number of
    digits of [x]. *)
Fixpoint shortest (fuel : nat) (x e : N) : N * N :=
  let lo := (x / 10 ^ e)%N in
  let hi := (lo + 1)%N in
  let lo_ok := rounds_to x (lo * 10 ^ e) in
  let hi_ok := rounds_to x (hi * 10 ^ e) in
  let below := (x - lo * 10 ^ e)%N in
  let above := (hi * 10 ^ e - x)%N in
  let answer :=
    if lo_ok && hi_ok then
      if (below <? above)%N then Some lo
      else if (above <? below)%N then Some hi
      else if N.even lo then Some lo else Some hi
    else if lo_ok then Some lo
    else if hi_ok then Some hi
    else None in
  match answer, fuel with
  | Some s, _ => (s, e)
  | None, S fuel' => shortest fuel' x (e - 1)
  | None, O => (x, 0%N)
  end.

Fixpoint zeros (n : nat) : string :=
  match n with
  | O => EmptyString
  | S n' => String "0" (zeros n')
  end.

(** A positive integer-valued double in decimal: its shortest digits
    padded with zeros below 10^21, in exponent form from there on. *)
Definition number_text (x : N) : string :=
  let d := N.of_nat (String.length (pretty x)) in
  let '(s, e) := shortest (N.to_nat d) x d in
  let digits := pretty s in
  let n := (N.of_nat (String.length digits) + e)%N in
  if (n <=? 21)%N then digits +:+ zeros (N.to_nat e)
  else
    match digits with
    | EmptyString => EmptyString
    | String c EmptyString => String c ("e+" +:+ pretty (n - 1)%N)
    | String c rest =>
        String c ("." +:+ rest +:+ "e+" +:+ pretty (n - 1)%N)
    end.

Definition number_to_json (n : number) : string :=
  match n with
  | Finite Z0 => "0"
  | Finite (Zpos p) =>
      match to_double (Npos p) with
      | Some x => number_text x
      | None => "null"
      end
  | Finite (Zneg p) =>
      match to_double (Npos p) with
      | Some x => "-" +:+ number_text x
      | None => "null"
      end
  | NaN | PosInfinity | NegInfinity => "null"
  end.

(** [JSON.stringify] where [canonicalizeJSON] calls it: on [null] and on
    values that are not objects. [None] is the JavaScript value
    [undefined], which is what [JSON.stringify(undefined)] returns. *)
Definition JSON_stringify_prim (v : value) : option string :=
  match v with
  | Undefined => None
  | Null => Some "null"
  | Boolean b => Some (if b then "true" else "false")
  | Number n => Some (number_to_json n)
  | Str s => Some (quote s)
  | Array _ | Object _ => None
  end.

(** ** String building *)

(** [Array.prototype.join]: an [undefined] element contributes nothing. *)
Definition join_item (x : option string) : string :=
  match x with Some s => s | None => EmptyString end.
Fixpoint join (sep : string) (l : list (option string)) : string :=
  match l with
  | [] => EmptyString
  | [x] => join_item x
  | x :: rest => join_item x +:+ sep +:+ join sep rest
  end.

(** [`${value}`]: an [undefined] value prints as the word. *)
Definition template (x : option string) : string :=
  match x with Some s => s | None => "undefined" end.

(** [Array.prototype.sort()] without comparator: ascending by code units. *)
Definition sort (l : list string) : list string := merge_sort String.le l.

(** Look a property name up among already canonicalised properties. *)
Fixpoint assoc (key : string) (l : list (string * option string))
  : option string :=
  match l with
  | [] => None
  | (k, r) :: rest => if String.eqb k key then r else assoc key rest
  end.

(** The text of one [key:value] pair, as the template literal builds it:
    the key goes between quotes as it is. *)
Definition pair_text (key : string) (value : option string) : string :=
  String dquote (key +:+ String dquote (":" +:+ template value)).

(** ** canonicalizeJSON

    The recursive calls on the property values are made up front, on the
    property list itself, and [obj[key]] then picks the result for [key];
    [canonicalizeJSON_Object] below states the equation in the source's
    own shape. *)
Fixpoint canonicalizeJSON (obj : value) : option string :=
  match obj with
  | Array items =>
      Some ("[" +:+ join "," (map canonicalizeJSON items) +:+ "]")
  | Object props =>
      let done :=
        map (fun kv => match kv with (k, v) => (k, canonicalizeJSON v) end)
            props in
      let keys := sort (keys props) in
      let pairs := map (fun key => Some (pair_text key (assoc key done)))
                       keys in
      Some ("{" +:+ join "," pairs +:+ "}")
  | prim => JSON_stringify_prim prim
  end.


(** ** Hashing *)

(** [new TextEncoder().encode]: UTF-8 of code units below 256. *)
Definition utf8_char (c : ascii) : list N :=
  let n := N_of_ascii c in
  if (n <? 128)%N then [n] else [(192 + n / 64)%N; (128 + n mod 64)%N].
Definition TextEncoder_encode (s : string) : list N :=
  flat_map utf8_char (list_ascii_of_string s).

Definition hex_byte (b : N) : string :=
  String (hex_digit (b / 16)) (str1 (hex_digit (b mod 16))).
Fixpoint hex (bs : list N) : string :=
  match bs with
  | [] => EmptyString
  | b :: rest => hex_byte b +:+ hex rest
  end.

(** [sha256] of viem on bytes: the digest as a 0x-prefixed hex string. *)
Definition sha256 (bytes : list N) : string :=
  "0x" +:+ hex (SHA256.digest bytes).

(** An evidence entry as the form builds it, and the [evidence] array. *)
Record Evidence := mkEvidence {
  url : string;
  title : string;
  accessed_at : string
}.
Definition evidence_entry (e : Evidence) : value :=
  Object [ ("url", Str (url e)); ("title", Str (title e));
           ("accessed_at", Str (accessed_at e)) ].
Definition evidence_array (es : list Evidence) : value :=
  Array (map evidence_entry es).

(** The canonical text of an evidence entry, written out. *)
Definition entry_text (e : Evidence) : string :=
  "{" +:+ pair_text "accessed_at" (Some (quote (accessed_at e))) +:+
  "," +:+ pair_text "title" (Some (quote (title e))) +:+
  "," +:+ pair_text "url" (Some (quote (url e))) +:+ "}".

(** The object literal built by [hashFactJSON], properties in the order
    they are written. *)
Definition factObj (factData : list (string * value)) : value :=
  Object
    [ ("id", get factData "fact_id");
      ("claim", get factData "claim_text");
      ("verdict", get factData "verdict");
      ("severity", get factData "severity");
      ("summary", get factData "summary");
      ("evidence", or_else (get factData "evidence") (Array []));
      ("topics", or_else (get factData "topics") (Array []));
      ("issued_at", get factData "issued_at");
      ("last_reviewed_at", get factData "issued_at");
      ("version", Number (Finite 1));
      ("status", Str "active") ].

Definition canonical (factData : list (string * value)) : string :=
  template (canonicalizeJSON (factObj factData)).

Definition hashFactJSON (factData : list (string * value)) : string :=
  sha256 (TextEncoder_encode (canonical factData)).

(** [v] with every non-finite number replaced by [null]. *)
Fixpoint nullify (v : value) : value :=
  match v with
  | Number (Finite z) => Number (Finite z)
  | Number _ => Null
  | Array items => Array (map nullify items)
  | Object props =>
      Object (map (fun kv => match kv with (k, x) => (k, nullify x) end)
                  props)
  | other => other
  end.

(** The [topics] array of a record: a list of strings. *)
Definition topics_array (ts : list string) : value := Array (map Str ts).

End Canonical.

(* ===================================================================== *)
(** * The enum mappings of the front end *)
(* ===================================================================== *)

Module ContractMapping.

(** ** [String.prototype.toLowerCase] on code units below 256

    The letters A to Z and the Latin-1 capitals U+00C0 to U+00DE, the
    multiplication sign U+00D7 apart, move up by 32; every other code
    unit below 256 stays. *)
Definition lower_unit (c : ascii) : ascii :=
  let n := N_of_ascii c in
  if ((65 <=? n) && (n <=? 90))%N then ascii_of_N (n + 32)
  else if ((192 <=? n) && (n <=? 222) && negb (n =? 215))%N
       then ascii_of_N (n + 32)
  else c.

Fixpoint toLowerCase (s : string) : string :=
  match s with
  | EmptyString => EmptyString
  | String c rest => String (lower_unit c) (toLowerCase rest)
  end.

(** ** Property lookup on an object literal

    [map[key]] finds an own property, or else a member that every object
    inherits from [Object.prototype], or else nothing ([undefined]). *)
Definition prototype_names : list string :=
  [ "constructor"; "__defineGetter__"; "__defineSetter__"; "hasOwnProperty";
    "__lookupGetter__"; "__lookupSetter__"; "isPrototypeOf";
    "propertyIsEnumerable"; "toString"; "valueOf"; "__proto__";
    "toLocaleString" ].

Inductive property (A : Type) :=
| Own (a : A)
| Inherited (name : string)
| Missing.
Arguments Own {A} a.
Arguments Inherited {A} name.
Arguments Missing {A}.

Fixpoint own {A} (table : list (string * A)) (key : string) : option A :=
  match table with
  | [] => None
  | (k, a) :: rest => if String.eqb k key then Some a else own rest key
  end.

Definition lookup {A} (table : list (string * A)) (key : string)
  : property A :=
  match own table key with
  | Some a => Own a
  | None =>
      if existsb (String.eqb key) prototype_names then Inherited key
      else Missing
  end.

(** What a mapping function returns: a value of the table's type, or the
    inherited member found under the key. *)
Inductive mapped (A : Type) :=
| Value (a : A)
| Member (name : string).
Arguments Value {A} a.
Arguments Member {A} name.

(** [x ?? d]: only [undefined] (and [null]) give way to the default. *)
Definition nullish_or {A} (x : property A) (d : A) : mapped A :=
  match x with
  | Own a => Value a
  | Inherited name => Member name
  | Missing => Value d
  end.

(** ** The mappings *)

Definition verdict_map : list (string * Z) :=
  [ ("true", 0); ("false", 1); ("misleading", 2); ("unproven", 3);
    ("partially_true", 4) ].

Definition severity_map : list (string * Z) :=
  [ ("low", 0); ("medium", 1); ("high", 2); ("critical", 3) ].

Definition verdictToEnum (verdict : string) : mapped Z :=
  nullish_or (lookup verdict_map (toLowerCase verdict)) 3.

Definition severityToEnum (severity : string) : mapped Z :=
  nullish_or (lookup severity_map (toLowerCase severity)) 0.

(** [map[enumValue] || d] on an array literal of non-empty strings, for an
    integer [enumValue]: the element at that index, or the default. *)
Definition element_or (items : list string) (enumValue : Z) (d : string)
  : string :=
  if enumValue <? 0 then d
  else match nth_error items (Z.to_nat enumValue) with
       | Some s => if String.eqb s EmptyString then d else s
       | None => d
       end.

Definition enumToVerdict (enumValue : Z) : string :=
  element_or ["true"; "false"; "misleading"; "unproven"; "partially_true"]
             enumValue "unproven".

Definition enumToSeverity (enumValue : Z) : string :=
  element_or ["low"; "medium"; "high"; "critical"] enumValue "low".

End ContractMapping.

(* ===================================================================== *)
(** * The form that publishes a statement *)
(* ===================================================================== *)

Module StatementForm.

(** ** [String.prototype.trim] on code units below 256

    White space and line terminators: TAB, LF, VT, FF, CR, SP and NBSP;
    the others lie above U+00FF. *)
Definition is_space (c : ascii) : bool :=
  let n := N_of_ascii c in
  ((9 <=? n) && (n <=? 13) || (n =? 32) || (n =? 160))%N.

Fixpoint trimStart (s : string) : string :=
  match s with
  | EmptyString => EmptyString
  | String c rest => if is_space c then trimStart rest else s
  end.

Fixpoint trimEnd (s : string) : string :=
  match s with
  | EmptyString => EmptyString
  | String c rest =>
      match trimEnd rest with
      | EmptyString => if is_space c then EmptyString else String c EmptyString
      | rest' => String c rest'
      end
  end.

Definition trim (s : string) : string := trimEnd (trimStart s).

(** A string in a condition: only the empty string is falsy. *)
Definition truthy (s : string) : bool :=
  match s with EmptyString => false | _ => true end.

(** [items.filter((_, i) => i !== index)] *)
Fixpoint filter_index {A} (keep : nat -> bool) (i : nat) (items : list A)
  : list A :=
  match items with
  | [] => []
  | x :: rest =>
      if keep i then x :: filter_index keep (S i) rest
      else filter_index keep (S i) rest
  end.

(** ** The state of the component

    [submitError] and [submitSuccess] only choose which alert is shown
    and are left out. *)
Record EvidenceInput := mkEvidenceInput {
  url : string;
  title : string
}.

Record FormData := mkFormData {
  claim_text : string;
  verdict : string;
  severity : string;
  summary : string;
  topics : list string;
  evidence : list EvidenceInput
}.

Record Component := mkComponent {
  formData : FormData;
  currentTopic : string;
  currentEvidence : EvidenceInput
}.

Definition emptyForm : FormData :=
  {| claim_text := EmptyString; verdict := "false"; severity := "medium";
     summary := EmptyString; topics := []; evidence := [] |}.

Definition initial : Component :=
  {| formData := emptyForm; currentTopic := EmptyString;
     currentEvidence := {| url := EmptyString; title := EmptyString |} |}.

Definition setFormData (c : Component) (f : FormData) : Component :=
  {| formData := f; currentTopic := currentTopic c;
     currentEvidence := currentEvidence c |}.

Definition with_topics (f : FormData) (ts : list string) : FormData :=
  {| claim_text := claim_text f; verdict := verdict f;
     severity := severity f; summary := summary f; topics := ts;
     evidence := evidence f |}.

Definition with_evidence (f : FormData) (es : list EvidenceInput)
  : FormData :=
  {| claim_text := claim_text f; verdict := verdict f;
     severity := severity f; summary := summary f; topics := topics f;
     evidence := es |}.

(** ** The handlers *)

Definition addTopic (c : Component) : Component :=
  if truthy (trim (currentTopic c)) then
    {| formData :=
         with_topics (formData c)
                     (topics (formData c) ++ [trim (currentTopic c)]);
       currentTopic := EmptyString;
       currentEvidence := currentEvidence c |}
  else c.

Definition removeTopic (index : nat) (c : Component) : Component :=
  setFormData c
    (with_topics (formData c)
       (filter_index (fun i => negb (i =? index)%nat) 0
                     (topics (formData c)))).

Definition addEvidence (c : Component) : Component :=
  if truthy (url (currentEvidence c)) && truthy (title (currentEvidence c))
  then
    {| formData :=
         with_evidence (formData c)
                       (evidence (formData c) ++ [currentEvidence c]);
       currentTopic := currentTopic c;
       currentEvidence := {| url := EmptyString; title := EmptyString |} |}
  else c.

Definition removeEvidence (index : nat) (c : Component) : Component :=
  setFormData c
    (with_evidence (formData c)
       (filter_index (fun i => negb (i =? index)%nat) 0
                     (evidence (formData c)))).

(** The values of the two menus. *)
Definition verdict_items : list string :=
  ["true"; "false"; "misleading"; "unproven"; "partially_true"].
Definition severity_items : list string :=
  ["low"; "medium"; "high"; "critical"].

(** What the user can do: type in a field, pick an item of a menu (by
    its place in the menu), press a button; [Published] is the reset
    after a statement was saved. *)
Inductive Action :=
| TypeClaim (text : string)
| PickVerdict (item : nat)
| PickSeverity (item : nat)
| TypeSummary (text : string)
| TypeTopic (text : string)
| AddTopic
| RemoveTopic (index : nat)
| TypeEvidenceTitle (text : string)
| TypeEvidenceUrl (text : string)
| AddEvidence
| RemoveEvidence (index : nat)
| Published.

Definition handle (c : Component) (a : Action) : Component :=
  let f := formData c in
  match a with
  | TypeClaim text =>
      setFormData c
        {| claim_text := text; verdict := verdict f; severity := severity f;
           summary := summary f; topics := topics f;
           evidence := evidence f |}
  | PickVerdict item =>
      match nth_error verdict_items item with
      | Some value =>
          setFormData c
            {| claim_text := claim_text f; verdict := value;
               severity := severity f; summary := summary f;
               topics := topics f; evidence := evidence f |}
      | None => c
      end
  | PickSeverity item =>
      match nth_error severity_items item with
      | Some value =>
          setFormData c
            {| claim_text := claim_text f; verdict := verdict f;
               severity := value; summary := summary f;
               topics := topics f; evidence := evidence f |}
      | None => c
      end
  | TypeSummary text =>
      setFormData c
        {| claim_text := claim_text f; verdict := verdict f;
           severity := severity f; summary := text; topics := topics f;
           evidence := evidence f |}
  | TypeTopic text =>
      {| formData := f; currentTopic := text;
         currentEvidence := currentEvidence c |}
  | AddTopic => addTopic c
  | RemoveTopic index => removeTopic index c
  | TypeEvidenceTitle text =>
      {| formData := f; currentTopic := currentTopic c;
         currentEvidence :=
           {| url := url (currentEvidence c); title := text |} |}
  | TypeEvidenceUrl text =>
      {| formData := f; currentTopic := currentTopic c;
         currentEvidence :=
           {| url := text; title := title (currentEvidence c) |} |}
  | AddEvidence => addEvidence c
  | RemoveEvidence index => removeEvidence index c
  | Published => setFormData c emptyForm
  end.

Definition after (actions : list Action) : Component :=
  foldl handle initial actions.

(** ** Submitting

    The readings of the clock that [handleSubmit] takes: [Date.now()],
    the ISO string of [new Date()] for the issue date, and the ISO string
    of another [new Date()] for each evidence entry, by its index. *)
Record Clock := mkClock {
  now : Z;
  issued : string;
  accessed : nat -> string
}.

Definition makeFactId (timestamp : Z) : string :=
  "org-fact-" +:+ pretty timestamp.

Definition stamped (clock : Clock) (es : list EvidenceInput)
  : list Canonical.Evidence :=
  imap (fun i ev =>
          Canonical.mkEvidence (url ev) (title ev) (accessed clock i)) es.

(** The object [factData] that is hashed and kept for the back end. *)
Definition factData (f : FormData) (clock : Clock)
  : list (string * Canonical.value) :=
  [ ("fact_id", Canonical.Str (makeFactId (now clock)));
    ("claim_text", Canonical.Str (claim_text f));
    ("verdict", Canonical.Str (verdict f));
    ("severity", Canonical.Str (severity f));
    ("summary", Canonical.Str (summary f));
    ("topics", Canonical.topics_array (topics f));
    ("evidence", Canonical.evidence_array (stamped clock (evidence f)));
    ("issued_at", Canonical.Str (issued clock)) ].

(** The arguments handed to [writeContract] for [addFact]. *)
Record Args := mkArgs {
  factHash : string;
  factId : string;
  verdictEnum : ContractMapping.mapped Z;
  severityEnum : ContractMapping.mapped Z;
  issuedAt : Z;
  lastReviewedAt : Z;
  version : Z
}.

Section Submit.

(** [new Date(iso).getTime()], in milliseconds, is taken as a given
    function of the ISO string. *)
Variable getTime : string -> Z.

Definition handleSubmit (isConnected : bool) (c : Component) (clock : Clock)
  : option Args :=
  if negb isConnected then None
  else
    let f := formData c in
    let issuedAtTimestamp := getTime (issued clock) / 1000 in
    Some {| factHash := Canonical.hashFactJSON (factData f clock);
            factId := makeFactId (now clock);
            verdictEnum := ContractMapping.verdictToEnum (verdict f);
            severityEnum := ContractMapping.severityToEnum (severity f);
            issuedAt := issuedAtTimestamp;
            lastReviewedAt := issuedAtTimestamp;
            version := 1 |}.

End Submit.

End StatementForm.

(* ===================================================================== *)
(** * The registration script *)
(* ===================================================================== *)

Module Coordinator.

(** The object a WHO fact file holds, with the properties [main] reads.
    The properties that [main] only passes on are of the type the fact
    schema gives them. [claim_text], on which [main] calls [substring]
    when it prints the record, is [None] when the object has no string
    under that name: the call then throws a [TypeError]. *)
Record FactJson := mkFactJson {
  id : string;
  claim_text : option string;
  verdict : string;
  severity : string;
  issued_at : string;
  last_reviewed_at : string;
  version : Z
}.

(** A file of the facts directory. [Unreadable]: [JSON.parse] throws on
    its text, or the text is the JSON value [null], on which reading
    [factJson.id] throws. *)
Inductive FactFile :=
| Unreadable
| Json (factJson : FactJson).

(** The records of a list of files, unreadable ones left out. *)
Definition records (factFiles : list FactFile) : list FactJson :=
  omap (fun file => match file with
                    | Json factJson => Some factJson
                    | Unreadable => None
                    end) factFiles.

(** The block a transaction is mined in. *)
Record Block := mkBlock { timestamp : Z; number : Z }.

(** [mapping[verdict]]: [None] is [undefined]. *)
Definition verdictToEnum (verdict : string) : option Registry.Verdict :=
  if String.eqb verdict "true" then Some Registry.TRUE
  else if String.eqb verdict "false" then Some Registry.FALSE
  else if String.eqb verdict "misleading" then Some Registry.MISLEADING
  else if String.eqb verdict "unproven" then Some Registry.UNPROVEN
  else if String.eqb verdict "partially_true" then Some Registry.PARTIALLY_TRUE
  else None.

Definition severityToEnum (severity : string) : option Registry.Severity :=
  if String.eqb severity "low" then Some Registry.LOW
  else if String.eqb severity "medium" then Some Registry.MEDIUM
  else if String.eqb severity "high" then Some Registry.HIGH
  else if String.eqb severity "critical" then Some Registry.CRITICAL
  else None.

(** Encoding a call argument as [uintN]: a value that is not a number in
    range makes the contract call throw before anything is sent. *)
Definition as_uint (bits : Z) (x : option Z) : option Z :=
  match x with
  | Some z => if (0 <=? z) && (z <? 2 ^ bits) then Some z else None
  | None => None
  end.

(** Why the [try] block around [registry.addFact] ended in [catch]. *)
Inductive Failure :=
| ArgumentError
| Reverted (reason : string)
| Panicked (code : Z).

(** What the script prints for a record: "Skipping...", "Successfully
    registered!" or "Failed to register fact". *)
Inductive Outcome :=
| Skipped (status : Registry.Status)
| Registered (ev : Registry.Event)
| Failed (why : Failure).

Definition is_skipped (o : Outcome) : bool :=
  match o with Skipped _ => true | _ => false end.
Definition is_registered (o : Outcome) : bool :=
  match o with Registered _ => true | _ => false end.
Definition is_failed (o : Outcome) : bool :=
  match o with Failed _ => true | _ => false end.

(** The loop variables of [main] and what it has printed per record. *)
Record Run := mkRun {
  registry : Registry.State;
  successCount : Z;
  skipCount : Z;
  log : list (string * Outcome)
}.

(** The loop variables before the first file. *)
Definition fresh_run (st : Registry.State) : Run :=
  {| registry := st; successCount := 0; skipCount := 0; log := [] |}.

(** How many lines of a log satisfy [p]. *)
Definition count (p : Outcome -> bool) (l : list (string * Outcome)) : Z :=
  Z.of_nat (List.length (List.filter (fun line => p line.2) l)).


(** The records of a batch whose line says they were registered. *)
Definition registered_records (batch : list FactFile)
    (lines : list (string * Outcome)) : list FactJson :=
  records (map fst (List.filter (fun p => is_registered p.2.2)
                                (combine batch lines))).

(** What a run has printed when it ends: the line of each record, and
    the summary with the two counters, the number of files and the
    registry's [totalFacts]. *)
Record Report := mkReport {
  registered : Z;
  skipped : Z;
  processed : Z;
  onChain : Z;
  lines : list (string * Outcome)
}.

Section Script.

(** [computeFactHash] goes through the npm package json-canonicalize and
    Node's crypto; [isoToUnix] through [Date]: both are taken as given.
    [computeFactHash] gives the hash as a number, or [None] when the
    call throws (the value that [require] returns for the package is
    called as a function at line 22). [isoToUnix] gives the Unix time of
    an ISO string ([None]: not a date). The node is taken to answer
    every call. *)
Variable computeFactHash : FactJson -> option Z.
Variable isoToUnix : string -> option Z.

Definition env_of (signer : Z) (blk : Block) : Registry.Env :=
  {| Registry.msg_sender := signer;
     Registry.block_timestamp := timestamp blk;
     Registry.block_number := number blk |}.

(** The body of the [try] (lines 145 to 183): encode the arguments, send,
    wait. Whatever is thrown there is caught at line 184. *)
Definition submit (signer : Z) (blk : Block) (st : Registry.State)
    (factHash : Z) (factJson : FactJson)
  : Registry.State * Outcome :=
  let verdictEnum := verdictToEnum (verdict factJson) in
  let severityEnum := severityToEnum (severity factJson) in
  let issuedAt := isoToUnix (issued_at factJson) in
  let lastReviewedAt := isoToUnix (last_reviewed_at factJson) in
  match verdictEnum, severityEnum, as_uint 64 issuedAt,
        as_uint 64 lastReviewedAt, as_uint 16 (Some (version factJson)) with
  | Some v, Some s, Some i, Some l, Some n =>
      match Registry.addFact (env_of signer blk) st factHash
                             (id factJson) v s i l n with
      | Registry.Success (st', ev) => (st', Registered ev)
      | Registry.Revert r => (st, Failed (Reverted r))
      | Registry.Panic c => (st, Failed (Panicked c))
      end
  | _, _, _, _, _ => (st, Failed ArgumentError)
  end.

(** One record (lines 114 to 186): hash, probe, skip, or print the
    details and submit. [None]: an exception is thrown outside the [try],
    by [computeFactHash] at line 115 or by [claim_text.substring] at line
    137; nothing in the loop catches it. *)
Definition processFact (signer : Z) (blk : Block) (st : Registry.State)
    (factJson : FactJson) : option (Registry.State * Outcome) :=
  match computeFactHash factJson with
  | None => None
  | Some factHash =>
      let '(exists_, status) := Registry.checkFactExists st factHash in
      if exists_ then Some (st, Skipped status)
      else
        match claim_text factJson with
        | None => None
        | Some _ => Some (submit signer blk st factHash factJson)
        end
  end.

(** What a record's outcome does to the loop variables. *)
Definition noted (r : Run) (factJson : FactJson)
    (result : Registry.State * Outcome) : Run :=
  match result with
  | (st', Skipped s) =>
      {| registry := st'; successCount := successCount r;
         skipCount := skipCount r + 1;
         log := log r ++ [(id factJson, Skipped s)] |}
  | (st', Registered ev) =>
      {| registry := st'; successCount := successCount r + 1;
         skipCount := skipCount r;
         log := log r ++ [(id factJson, Registered ev)] |}
  | (st', Failed why) =>
      {| registry := st'; successCount := successCount r;
         skipCount := skipCount r;
         log := log r ++ [(id factJson, Failed why)] |}
  end.

(** One turn of the [for] loop (lines 106 to 187); [None]: an exception
    leaves the loop, at line 108 or 111 for an unreadable file, or from
    the record's processing. *)
Definition iteration (signer : Z) (blk : Block) (r : Run)
    (file : FactFile) : option Run :=
  match file with
  | Unreadable => None
  | Json factJson =>
      match processFact signer blk (registry r) factJson with
      | None => None
      | Some result => Some (noted r factJson result)
      end
  end.

(** The [for] loop; [chain i] is the block in which the transaction of the
    [i]-th file of this run is mined. *)
Fixpoint loop (signer : Z) (chain : nat -> Block) (i : nat) (r : Run)
    (factFiles : list FactFile) : option Run :=
  match factFiles with
  | [] => Some r
  | file :: rest =>
      match iteration signer (chain i) r file with
      | None => None
      | Some r' => loop signer chain (S i) r' rest
      end
  end.

(** [main]: [None] when the script ends in its [catch] handler and exits
    with code 1, without a summary: the signer is not the contract owner
    (line 94, before any file is looked at), or an exception has left the
    loop. What was registered before that stays registered. *)
Definition main (signer : Z) (chain : nat -> Block) (st : Registry.State)
    (factFiles : list FactFile) : option (Registry.State * Report) :=
  if Registry.owner st =? signer then
    match loop signer chain 0 (fresh_run st) factFiles with
    | None => None
    | Some r =>
        Some (registry r,
              {| registered := successCount r;
                 skipped := skipCount r;
                 processed := Z.of_nat (List.length factFiles);
                 onChain := Registry.totalFacts (registry r);
                 lines := log r |})
    end
  else None.

(** ** A run on which nothing is thrown

    The same steps with the exceptions left out, as total functions:
    what [processFact], [iteration] and [loop] return whenever they
    return. *)

Definition hashOf (factJson : FactJson) : Z :=
  match computeFactHash factJson with Some h => h | None => 0 end.

(** Nothing is thrown for a record in a given registry: the hash is
    computed, and the record is present (and so skipped before line 137)
    or has a claim text. *)
Definition quiet (st : Registry.State) (factJson : FactJson) : Prop :=
  computeFactHash factJson ≠ None ∧
  (Registry.present st (hashOf factJson) ∨ claim_text factJson ≠ None).

Definition attempt (signer : Z) (blk : Block) (st : Registry.State)
    (factJson : FactJson) : Registry.State * Outcome :=
  let factHash := hashOf factJson in
  let '(exists_, status) := Registry.checkFactExists st factHash in
  if exists_ then (st, Skipped status)
  else submit signer blk st factHash factJson.

Definition turn (signer : Z) (blk : Block) (r : Run)
    (factJson : FactJson) : Run :=
  noted r factJson (attempt signer blk (registry r) factJson).

Fixpoint turns (signer : Z) (chain : nat -> Block) (i : nat) (r : Run)
    (factJsons : list FactJson) : Run :=
  match factJsons with
  | [] => r
  | factJson :: rest =>
      turns signer chain (S i) (turn signer (chain i) r factJson) rest
  end.

End Script.

End Coordinator.

(* ===================================================================== *)
(** * Concrete registries and records used in examples *)
(* ===================================================================== *)

Module Examples.
Import Registry.

Definition who : Z := 4660.
Definition stranger : Z := 57005.
Definition T0 : Z := 1700000000.

Definition env0 : Env :=
  {| msg_sender := who; block_timestamp := T0; block_number := 100 |}.
Definition env1 : Env :=
  {| msg_sender := who; block_timestamp := T0 + 60; block_number := 105 |}.
Definition env_stranger : Env :=
  {| msg_sender := stranger; block_timestamp := T0 + 60; block_number := 105 |}.

Definition hashA : Z := 11259375.
Definition hashB : Z := 12648430.

(** Freshly deployed. *)
Definition genesis : State := (constructor env0).1.

(** After registering fact "f-1" under [hashA]. *)
Definition registered : State :=
  commit genesis (addFact env1 genesis hashA "f-1" FALSE HIGH T0 T0 1).

(** After withdrawing it. *)
Definition withdrawn : State :=
  commit registered (updateFactStatus env1 registered hashA WITHDRAWN).

(** After marking it superseded instead. *)
Definition superseded : State :=
  commit registered (updateFactStatus env1 registered hashA SUPERSEDED).


(** A short history: two facts registered, the first one withdrawn. *)
Definition history : list (Env * Call) :=
  [ (env1, CallAddFact hashA "f-1" FALSE HIGH T0 T0 1);
    (env_stranger, CallUpdateFactStatus hashA SUPERSEDED);
    (env1, CallAddFact hashB "f-2" TRUE LOW T0 (T0 + 30) 2);
    (env1, CallUpdateFactStatus hashA WITHDRAWN) ].

(** *** Texts and records for the canonicaliser *)

(** Writes a JSON text with an apostrophe for each double quote. *)
Fixpoint dq (s : string) : string :=
  match s with
  | EmptyString => EmptyString
  | String c rest =>
      String (if Ascii.eqb c "'"%char then Canonical.dquote else c) (dq rest)
  end.

(** What the form hands to [hashFactJSON]. *)
Definition factData : list (string * Canonical.value) :=
  [ ("fact_id", Canonical.Str "org-fact-1700000000000");
    ("claim_text", Canonical.Str "X cures Y");
    ("verdict", Canonical.Str "false");
    ("severity", Canonical.Str "high");
    ("summary", Canonical.Str "No trial supports it.");
    ("topics", Canonical.Array [Canonical.Str "cures"]);
    ("evidence",
     Canonical.Array
       [Canonical.Object
          [ ("url", Canonical.Str "https://who.int/x");
            ("title", Canonical.Str "WHO on X");
            ("accessed_at", Canonical.Str "2023-11-14T22:13:20.000Z") ]]);
    ("issued_at", Canonical.Str "2023-11-14T22:13:20.000Z") ].

(** The same record with its properties, and those of its evidence entry,
    written in another order. *)
Definition factData_reordered : list (string * Canonical.value) :=
  [ ("issued_at", Canonical.Str "2023-11-14T22:13:20.000Z");
    ("evidence",
     Canonical.Array
       [Canonical.Object
          [ ("accessed_at", Canonical.Str "2023-11-14T22:13:20.000Z");
            ("url", Canonical.Str "https://who.int/x");
            ("title", Canonical.Str "WHO on X") ]]);
    ("summary", Canonical.Str "No trial supports it.");
    ("claim_text", Canonical.Str "X cures Y");
    ("topics", Canonical.Array [Canonical.Str "cures"]);
    ("fact_id", Canonical.Str "org-fact-1700000000000");
    ("severity", Canonical.Str "high");
    ("verdict", Canonical.Str "false") ].

(** A small object and the same with both levels listed the other way. *)
Definition nested : Canonical.value :=
  Canonical.Object
    [ ("b", Canonical.Number (Canonical.Finite 2));
      ("a", Canonical.Object
              [("y", Canonical.Null); ("x", Canonical.Str "s")]) ].
Definition nested_swapped : Canonical.value :=
  Canonical.Object
    [ ("a", Canonical.Object
              [("x", Canonical.Str "s"); ("y", Canonical.Null)]);
      ("b", Canonical.Number (Canonical.Finite 2)) ].

Definition two_fields : list (string * Canonical.value) :=
  [ ("fact_id", Canonical.Str "f-1"); ("claim_text", Canonical.Str "X cures Y") ].
Definition two_fields_swapped : list (string * Canonical.value) :=
  [ ("claim_text", Canonical.Str "X cures Y"); ("fact_id", Canonical.Str "f-1") ].

(** The record at two versions, and with two review dates. *)
Definition factData_v1 : list (string * Canonical.value) :=
  Canonical.set_prop factData "version" (Canonical.Number (Canonical.Finite 1)).
Definition factData_v2 : list (string * Canonical.value) :=
  Canonical.set_prop factData "version" (Canonical.Number (Canonical.Finite 2)).
Definition factData_reviewed_early : list (string * Canonical.value) :=
  Canonical.set_prop factData "last_reviewed_at"
    (Canonical.Str "2023-11-14T22:13:20.000Z").
Definition factData_reviewed_late : list (string * Canonical.value) :=
  Canonical.set_prop factData "last_reviewed_at"
    (Canonical.Str "2023-11-14T22:30:00.000Z").


(** *** Records for the registration script *)

(** A stand-in for the script's hash of a fact file: SHA-256 over the
    canonical JSON text of the record's properties, read as a number. *)
Definition factValue (f : Coordinator.FactJson) : Canonical.value :=
  Canonical.Object
    [ ("id", Canonical.Str (Coordinator.id f));
      ("claim_text", match Coordinator.claim_text f with
                     | Some text => Canonical.Str text
                     | None => Canonical.Undefined
                     end);
      ("verdict", Canonical.Str (Coordinator.verdict f));
      ("severity", Canonical.Str (Coordinator.severity f));
      ("issued_at", Canonical.Str (Coordinator.issued_at f));
      ("last_reviewed_at", Canonical.Str (Coordinator.last_reviewed_at f));
      ("version", Canonical.Number (Canonical.Finite (Coordinator.version f))) ].

Definition computeFactHash (f : Coordinator.FactJson) : option Z :=
  Some (Z.of_N (SHA256.be_word
                  (SHA256.digest
                     (Canonical.TextEncoder_encode
                        (Canonical.template
                           (Canonical.canonicalizeJSON (factValue f))))))).

(** A hash library whose entry point is not callable: every call of
    [computeFactHash] throws. *)
Definition computeFactHash_throws (f : Coordinator.FactJson) : option Z :=
  None.

(** A stand-in for [isoToUnix] that knows two instants. *)
Definition isoToUnix (iso : string) : option Z :=
  if String.eqb iso "2023-11-14T22:13:20.000Z" then Some 1700000000
  else if String.eqb iso "2023-11-14T22:30:00.000Z" then Some 1700001000
  else None.

Definition chain0 (i : nat) : Coordinator.Block :=
  {| Coordinator.timestamp := T0 + 60 + 12 * Z.of_nat i;
     Coordinator.number := 105 + Z.of_nat i |}.
Definition chain1 (i : nat) : Coordinator.Block :=
  {| Coordinator.timestamp := T0 + 6000 + 12 * Z.of_nat i;
     Coordinator.number := 605 + Z.of_nat i |}.

Definition fact_good : Coordinator.FactJson :=
  {| Coordinator.id := "who-2025-0001";
     Coordinator.claim_text := Some "X cures Y";
     Coordinator.verdict := "false";
     Coordinator.severity := "high";
     Coordinator.issued_at := "2023-11-14T22:13:20.000Z";
     Coordinator.last_reviewed_at := "2023-11-14T22:13:20.000Z";
     Coordinator.version := 1 |}.

(** Version 0: rejected by the contract. *)
Definition fact_bad_version : Coordinator.FactJson :=
  {| Coordinator.id := "who-2025-0002";
     Coordinator.claim_text := Some "Z prevents W";
     Coordinator.verdict := "misleading";
     Coordinator.severity := "low";
     Coordinator.issued_at := "2023-11-14T22:13:20.000Z";
     Coordinator.last_reviewed_at := "2023-11-14T22:13:20.000Z";
     Coordinator.version := 0 |}.

(** Reviewed before it was issued: rejected by the contract. *)
Definition fact_bad_time : Coordinator.FactJson :=
  {| Coordinator.id := "who-2025-0003";
     Coordinator.claim_text := Some "V causes U";
     Coordinator.verdict := "true";
     Coordinator.severity := "critical";
     Coordinator.issued_at := "2023-11-14T22:30:00.000Z";
     Coordinator.last_reviewed_at := "2023-11-14T22:13:20.000Z";
     Coordinator.version := 1 |}.

(** Issued in the future of [chain0], in the past of [chain1]. *)
Definition fact_future : Coordinator.FactJson :=
  {| Coordinator.id := "who-2025-0005";
     Coordinator.claim_text := Some "S helps R";
     Coordinator.verdict := "partially_true";
     Coordinator.severity := "medium";
     Coordinator.issued_at := "2023-11-14T22:30:00.000Z";
     Coordinator.last_reviewed_at := "2023-11-14T22:30:00.000Z";
     Coordinator.version := 1 |}.

(** A record without a claim text, otherwise valid. *)
Definition fact_no_claim : Coordinator.FactJson :=
  {| Coordinator.id := "who-2025-0006";
     Coordinator.claim_text := None;
     Coordinator.verdict := "false";
     Coordinator.severity := "low";
     Coordinator.issued_at := "2023-11-14T22:13:20.000Z";
     Coordinator.last_reviewed_at := "2023-11-14T22:13:20.000Z";
     Coordinator.version := 1 |}.

Definition fact_other : Coordinator.FactJson :=
  {| Coordinator.id := "who-2025-0004";
     Coordinator.claim_text := Some "T is safe";
     Coordinator.verdict := "unproven";
     Coordinator.severity := "medium";
     Coordinator.issued_at := "2023-11-14T22:13:20.000Z";
     Coordinator.last_reviewed_at := "2023-11-14T22:30:00.000Z";
     Coordinator.version := 3 |}.


(** *** Runs of the script *)

Definition run_script (chain : nat -> Coordinator.Block) (st : State)
    (batch : list Coordinator.FactFile)
  : option (State * Coordinator.Report) :=
  Coordinator.main computeFactHash isoToUnix who chain st batch.

Definition state_after (r : option (State * Coordinator.Report)) : State :=
  match r with Some (st, _) => st | None => genesis end.
Definition report_of (r : option (State * Coordinator.Report))
  : Coordinator.Report :=
  match r with
  | Some (_, rep) => rep
  | None =>
      {| Coordinator.registered := 0; Coordinator.skipped := 0;
         Coordinator.processed := 0; Coordinator.onChain := 0;
         Coordinator.lines := [] |}
  end.

(** A batch with a record the contract rejects and one dated ahead. *)
Definition batch_mixed : list Coordinator.FactFile :=
  [Coordinator.Json fact_bad_version; Coordinator.Json fact_future].
Definition mixed_first := run_script chain0 genesis batch_mixed.
Definition mixed_second :=
  run_script chain1 (state_after mixed_first) batch_mixed.

(** The good record again under the same identifier, at version 2. *)
Definition fact_good_v2 : Coordinator.FactJson :=
  {| Coordinator.id := "who-2025-0001";
     Coordinator.claim_text := Some "X cures Y";
     Coordinator.verdict := "false";
     Coordinator.severity := "high";
     Coordinator.issued_at := "2023-11-14T22:13:20.000Z";
     Coordinator.last_reviewed_at := "2023-11-14T22:30:00.000Z";
     Coordinator.version := 2 |}.

(** A batch that registers cleanly. *)
Definition batch_clean : list Coordinator.FactFile :=
  [Coordinator.Json fact_good; Coordinator.Json fact_other].
Definition clean_first := run_script chain0 genesis batch_clean.
Definition between_runs : list (Env * Call) :=
  [(env1, CallUpdateFactStatus
            (Coordinator.hashOf computeFactHash fact_good) WITHDRAWN)].

(** A batch whose first file has no claim text. *)
Definition batch_no_claim : list Coordinator.FactFile :=
  [Coordinator.Json fact_no_claim; Coordinator.Json fact_good].

(** A batch with a record the contract rejects before a valid one. *)
Definition batch_rejected : list Coordinator.FactFile :=
  [Coordinator.Json fact_bad_version; Coordinator.Json fact_good].

End Examples.

(* ===================================================================== *)
(** * Properties of the registry *)
(* ===================================================================== *)

Module RegistryFacts.
Import Registry.

(** Unfold the monadic plumbing of a contract function. *)
Ltac tx_unfold :=
  unfold addFact, updateFactStatus, transferOwnership, getFactByHash,
         getFactById, onlyOwner, factNotExists, factExists, checked_incr,
         require in *;
  cbn [mbind tx_bind mret tx_ret] in *.

(** Split on the condition of the next check that is still undecided. *)
Ltac tx_case :=
  match goal with
  | |- context [if ?b then _ else _] =>
      let E := fresh "E" in destruct b eqn:E; cbn [mbind tx_bind mret tx_ret]
  | H : context [if ?b then _ else _] |- _ =>
      let E := fresh "E" in
      destruct b eqn:E; cbn [mbind tx_bind mret tx_ret] in H
  end.

(** Turn the recorded boolean tests into propositions. *)
Ltac tx_facts :=
  repeat match goal with
  | H : negb _ = true |- _ => apply negb_true_iff in H
  | H : negb _ = false |- _ => apply negb_false_iff in H
  | H : (_ =? _) = true |- _ => apply Z.eqb_eq in H
  | H : (_ =? _) = false |- _ => apply Z.eqb_neq in H
  | H : (_ <? _) = true |- _ => apply Z.ltb_lt in H
  | H : (_ <? _) = false |- _ => apply Z.ltb_ge in H
  | H : (_ <=? _) = true |- _ => apply Z.leb_le in H
  | H : (_ <=? _) = false |- _ => apply Z.leb_gt in H
  | H : bool_decide _ = true |- _ => apply bool_decide_eq_true in H
  | H : bool_decide _ = false |- _ => apply bool_decide_eq_false in H
  end.

Example registered_probe :
  checkFactExists Examples.registered Examples.hashA = (true, ACTIVE).
Proof. vm_compute. reflexivity. Qed.

Example same_call_again :
  addFact Examples.env1 Examples.registered Examples.hashA "f-1" FALSE HIGH
          Examples.T0 Examples.T0 1
  = Revert "HealthFactRegistry: fact already exists".
Proof. vm_compute. reflexivity. Qed.

Example withdrawn_probe :
  checkFactExists Examples.withdrawn Examples.hashA = (true, WITHDRAWN).
Proof. vm_compute. reflexivity. Qed.


(** ** Reading the storage after a write *)

Lemma readFact_insert_eq st h f o a b c :
  readFact {| owner := o; factsByHash := <[h := f]> (factsByHash st);
              hashByFactId := a; allFactHashes := b; totalFacts := c |} h = f.
Proof. unfold readFact; simpl. by rewrite lookup_insert_eq. Qed.

Lemma readFact_insert_ne st h h' f o a b c :
  h ≠ h' ->
  readFact {| owner := o; factsByHash := <[h := f]> (factsByHash st);
              hashByFactId := a; allFactHashes := b; totalFacts := c |} h'
  = readFact st h'.
Proof. intros. unfold readFact; simpl. by rewrite lookup_insert_ne. Qed.

(** ** Status changes *)

(** When [updateFactStatus] goes through, and what it does then. *)
Lemma updateFactStatus_success env st h new :
  msg_sender env = owner st ->
  factHash (readFact st h) ≠ 0 ->
  status (readFact st h) ≠ new ->
  updateFactStatus env st h new =
    Success ({| owner := owner st;
                factsByHash :=
                  <[h := with_status new (readFact st h)]> (factsByHash st);
                hashByFactId := hashByFactId st;
                allFactHashes := allFactHashes st;
                totalFacts := totalFacts st |},
             FactUpdated h (factId (readFact st h)) (status (readFact st h))
                         new (msg_sender env) (uint64 (block_timestamp env))).
Proof.
  intros Ho Hh Hs. tx_unfold.
  rewrite (proj2 (Z.eqb_eq _ _) Ho); cbn [mbind tx_bind].
  rewrite (proj2 (Z.eqb_neq _ _) Hh); cbn [negb mbind tx_bind].
  rewrite bool_decide_eq_false_2 by done. reflexivity.
Qed.

Lemma updateFactStatus_inv env st h new st' ev :
  updateFactStatus env st h new = Success (st', ev) ->
  msg_sender env = owner st ∧ factHash (readFact st h) ≠ 0 ∧
  status (readFact st h) ≠ new.
Proof.
  intros H. tx_unfold. repeat tx_case; try discriminate.
  tx_facts. done.
Qed.

(** C1, as the claim states it, fails: a withdrawn fact is moved back to
    ACTIVE by the owner, and a superseded one to WITHDRAWN. *)
Lemma terminal_status_left :
  status (readFact Examples.withdrawn Examples.hashA) = WITHDRAWN ∧
  status (readFact
            (commit Examples.withdrawn
               (updateFactStatus Examples.env1 Examples.withdrawn
                                 Examples.hashA ACTIVE))
            Examples.hashA) = ACTIVE ∧
  succeeded (updateFactStatus Examples.env1 Examples.withdrawn
                              Examples.hashA ACTIVE) = true ∧
  status (readFact Examples.superseded Examples.hashA) = SUPERSEDED ∧
  status (readFact
            (commit Examples.superseded
               (updateFactStatus Examples.env1 Examples.superseded
                                 Examples.hashA WITHDRAWN))
            Examples.hashA) = WITHDRAWN.
Proof. vm_compute. repeat split; reflexivity. Qed.

(** C1 (amended): [updateFactStatus] goes through exactly when the caller
    is the owner, the hash is registered and the new status differs from
    the current one, whatever the current status is; the entry then has
    the new status. SUPERSEDED and WITHDRAWN are left like ACTIVE is. *)
Theorem updateFactStatus_any_transition env st h new :
  (succeeded (updateFactStatus env st h new) = true <->
   msg_sender env = owner st ∧ factHash (readFact st h) ≠ 0 ∧
   status (readFact st h) ≠ new) ∧
  (forall st' ev,
     updateFactStatus env st h new = Success (st', ev) ->
     status (readFact st' h) = new ∧
     ev = FactUpdated h (factId (readFact st h)) (status (readFact st h)) new
                      (msg_sender env) (uint64 (block_timestamp env))).
Proof.
  split.
  - split.
    + destruct (updateFactStatus env st h new) as [[st' ev]| |] eqn:E;
        try discriminate.
      intros _. eapply updateFactStatus_inv, E.
    + intros (Ho & Hh & Hs).
      by rewrite updateFactStatus_success.
  - intros st' ev E.
    destruct (updateFactStatus_inv _ _ _ _ _ _ E) as (Ho & Hh & Hs).
    rewrite updateFactStatus_success in E by done.
    injection E as <- <-. by rewrite readFact_insert_eq.
Qed.

Lemma updateFactStatus_any_transition_witness :
  succeeded (updateFactStatus Examples.env1 Examples.superseded
                              Examples.hashA ACTIVE) = true ∧
  status (readFact
            (commit Examples.superseded
               (updateFactStatus Examples.env1 Examples.superseded
                                 Examples.hashA ACTIVE))
            Examples.hashA) = ACTIVE.
Proof.
  pose proof (updateFactStatus_any_transition
                Examples.env1 Examples.superseded Examples.hashA ACTIVE)
    as [Hiff Hpost].
  assert (Hs : succeeded (updateFactStatus Examples.env1 Examples.superseded
                                           Examples.hashA ACTIVE) = true).
  { apply Hiff. vm_compute. repeat split; discriminate. }
  split; [exact Hs|].
  destruct (updateFactStatus Examples.env1 Examples.superseded
                             Examples.hashA ACTIVE) as [[st' ev]| |] eqn:E;
    try discriminate.
  simpl. eapply Hpost. reflexivity.
Defined.


(** ** Registration *)

Lemma nonempty_length (s : string) :
  (0 <? Z.of_nat (String.length s)) = true <-> s ≠ EmptyString.
Proof.
  destruct s as [|c s]; split; try done.
Qed.

Lemma addFact_success env st h id v s i l n :
  addFact_ok env st h id i l n ->
  addFact env st h id v s i l n =
    Success ({| owner := owner st;
                factsByHash :=
                  <[h := {| factHash := h; factId := id; verdict := v;
                            severity := s; issuedAt := i;
                            lastReviewedAt := l; version := n;
                            status := ACTIVE; addedBy := msg_sender env;
                            addedAtBlock := uint64 (block_number env) |}]>
                    (factsByHash st);
                hashByFactId := <[id := h]> (hashByFactId st);
                allFactHashes := allFactHashes st ++ [h];
                totalFacts := totalFacts st + 1 |},
             FactAdded h id v s (msg_sender env) i).
Proof.
  intros (Ho & Hf & Hh & Hid & Hn & Hi & Hl & Hu & Ht).
  apply nonempty_length in Hid. tx_unfold.
  rewrite (proj2 (Z.eqb_eq _ _) Ho), (proj2 (Z.eqb_eq _ _) Hf),
    (proj2 (Z.eqb_neq _ _) Hh), Hid, (proj2 (Z.ltb_lt _ _) Hn),
    (proj2 (Z.leb_le _ _) Hi), (proj2 (Z.leb_le _ _) Hl),
    (proj2 (Z.eqb_eq _ _) Hu), (proj2 (Z.ltb_lt _ _) Ht).
  reflexivity.
Qed.

Lemma addFact_inv env st h id v s i l n st' ev :
  addFact env st h id v s i l n = Success (st', ev) ->
  addFact_ok env st h id i l n.
Proof.
  intros H. tx_unfold. repeat tx_case; try discriminate.
  match goal with H : (0 <? Z.of_nat _) = true |- _ =>
    apply nonempty_length in H end.
  tx_facts. unfold addFact_ok. done.
Qed.

(** C3, as the claim states it, fails: the identifier "f-1" maps to a hash
    whose entry is WITHDRAWN, and registering a new hash under "f-1" is
    still rejected. *)
Lemma withdrawn_id_not_reusable :
  status (readFact Examples.withdrawn (readHash Examples.withdrawn "f-1"))
    = WITHDRAWN ∧
  addFact Examples.env1 Examples.withdrawn Examples.hashB "f-1" FALSE HIGH
          Examples.T0 Examples.T0 2
    = Revert "HealthFactRegistry: fact ID already exists".
Proof. vm_compute. split; reflexivity. Qed.

(** C3 (amended): [addFact] is rejected with "fact ID already exists"
    exactly when all earlier checks pass and the identifier already maps to
    some hash; the status of that hash's entry plays no part, so an
    identifier whose entry is SUPERSEDED or WITHDRAWN stays taken. *)
Theorem addFact_id_conflict env st h id v s i l n :
  addFact env st h id v s i l n
    = Revert "HealthFactRegistry: fact ID already exists"
  <->
  (msg_sender env = owner st ∧ factHash (readFact st h) = 0 ∧ h ≠ 0 ∧
   id ≠ EmptyString ∧ 0 < n ∧ i <= block_timestamp env ∧ i <= l ∧
   readHash st id ≠ 0).
Proof.
  split.
  - intros H. tx_unfold. repeat tx_case; try discriminate;
      match goal with H : (0 <? Z.of_nat _) = true |- _ =>
        apply nonempty_length in H end;
      tx_facts; done.
  - intros (Ho & Hf & Hh & Hid & Hn & Hi & Hl & Hu).
    apply nonempty_length in Hid. tx_unfold.
    rewrite (proj2 (Z.eqb_eq _ _) Ho), (proj2 (Z.eqb_eq _ _) Hf),
      (proj2 (Z.eqb_neq _ _) Hh), Hid, (proj2 (Z.ltb_lt _ _) Hn),
      (proj2 (Z.leb_le _ _) Hi), (proj2 (Z.leb_le _ _) Hl),
      (proj2 (Z.eqb_neq _ _) Hu).
    reflexivity.
Qed.

Lemma addFact_id_conflict_witness :
  addFact Examples.env1 Examples.superseded Examples.hashB "f-1" TRUE LOW
          Examples.T0 (Examples.T0 + 5) 2
    = Revert "HealthFactRegistry: fact ID already exists".
Proof.
  apply (addFact_id_conflict Examples.env1 Examples.superseded Examples.hashB
           "f-1" TRUE LOW Examples.T0 (Examples.T0 + 5) 2).
  vm_compute. repeat split; discriminate.
Defined.

(** C5, as the claim states it, fails: the reason reported is that of the
    first check that fails, in the order the checks are written. A
    version of 0 with an issue date in the future is rejected for the
    version, not for the date; and, with a version of 0, a zero hash and
    an empty identifier are rejected with reasons of their own, before
    the version is looked at. *)
Lemma addFact_reason_follows_check_order :
  block_timestamp Examples.env1 < Examples.T0 + 61 ∧
  addFact Examples.env1 Examples.genesis Examples.hashA "f-1" FALSE HIGH
          (Examples.T0 + 61) (Examples.T0 + 61) 0
    = Revert "HealthFactRegistry: version must be >= 1" ∧
  addFact Examples.env1 Examples.genesis 0 "f-1" FALSE HIGH
          Examples.T0 Examples.T0 0
    = Revert "HealthFactRegistry: invalid fact hash" ∧
  addFact Examples.env1 Examples.genesis Examples.hashA EmptyString FALSE HIGH
          Examples.T0 Examples.T0 0
    = Revert "HealthFactRegistry: empty fact ID".
Proof. vm_compute. repeat split; reflexivity. Qed.

(** C5 (amended): the failure modes of [addFact] and what a successful
    call does. A caller other than the owner is rejected as such; for the
    owner a hash that is present is rejected as already existing; a
    version below 1, an [issuedAt] in the future and a [lastReviewedAt]
    before [issuedAt] are rejected with their own reasons once the checks
    written before them pass, which include that the hash is not zero
    and the identifier not empty: a zero hash and then an empty
    identifier are rejected first, with reasons of their own. Each of
    the listed conditions makes the call fail, whichever reason is
    reported. A successful call stores the record with status ACTIVE,
    appends the hash to the enumeration and advances the counter by one,
    and emits [FactAdded] with hash, id, verdict, severity, caller and
    [issuedAt]; the call does succeed when every check passes. *)
Theorem addFact_spec env st h id v s i l n :
  (msg_sender env ≠ owner st ->
   addFact env st h id v s i l n
     = Revert "HealthFactRegistry: caller is not the owner") ∧
  (msg_sender env = owner st -> factHash (readFact st h) ≠ 0 ->
   addFact env st h id v s i l n
     = Revert "HealthFactRegistry: fact already exists") ∧
  (msg_sender env = owner st -> factHash (readFact st h) = 0 ->
   h ≠ 0 -> id ≠ EmptyString -> n < 1 ->
   addFact env st h id v s i l n
     = Revert "HealthFactRegistry: version must be >= 1") ∧
  (msg_sender env = owner st -> factHash (readFact st h) = 0 ->
   h ≠ 0 -> id ≠ EmptyString -> 1 <= n -> block_timestamp env < i ->
   addFact env st h id v s i l n
     = Revert "HealthFactRegistry: future issuedAt timestamp") ∧
  (msg_sender env = owner st -> factHash (readFact st h) = 0 ->
   h ≠ 0 -> id ≠ EmptyString -> 1 <= n -> i <= block_timestamp env ->
   l < i ->
   addFact env st h id v s i l n
     = Revert "HealthFactRegistry: lastReviewedAt before issuedAt") ∧
  (msg_sender env ≠ owner st ∨ factHash (readFact st h) ≠ 0 ∨
   block_timestamp env < i ∨ l < i ∨ n < 1 ->
   succeeded (addFact env st h id v s i l n) = false) ∧
  (forall st' ev,
     addFact env st h id v s i l n = Success (st', ev) ->
     readFact st' h =
       {| factHash := h; factId := id; verdict := v; severity := s;
          issuedAt := i; lastReviewedAt := l; version := n;
          status := ACTIVE; addedBy := owner st;
          addedAtBlock := uint64 (block_number env) |} ∧
     readHash st' id = h ∧
     totalFacts st' = totalFacts st + 1 ∧
     allFactHashes st' = (allFactHashes st ++ [h])%list ∧
     ev = FactAdded h id v s (owner st) i) ∧
  (addFact_ok env st h id i l n ->
   succeeded (addFact env st h id v s i l n) = true) ∧
  (msg_sender env = owner st -> factHash (readFact st h) = 0 -> h = 0 ->
   addFact env st h id v s i l n
     = Revert "HealthFactRegistry: invalid fact hash") ∧
  (msg_sender env = owner st -> factHash (readFact st h) = 0 ->
   h ≠ 0 -> id = EmptyString ->
   addFact env st h id v s i l n
     = Revert "HealthFactRegistry: empty fact ID").
Proof.
  repeat apply conj.
  - intros Ho. tx_unfold. by rewrite (proj2 (Z.eqb_neq _ _) Ho).
  - intros Ho Hf. tx_unfold.
    by rewrite (proj2 (Z.eqb_eq _ _) Ho), (proj2 (Z.eqb_neq _ _) Hf).
  - intros Ho Hf Hh Hid Hn. apply nonempty_length in Hid. tx_unfold.
    rewrite (proj2 (Z.eqb_eq _ _) Ho), (proj2 (Z.eqb_eq _ _) Hf),
      (proj2 (Z.eqb_neq _ _) Hh), Hid, (proj2 (Z.ltb_ge 0 n)) by lia.
    reflexivity.
  - intros Ho Hf Hh Hid Hn Hi. apply nonempty_length in Hid. tx_unfold.
    rewrite (proj2 (Z.eqb_eq _ _) Ho), (proj2 (Z.eqb_eq _ _) Hf),
      (proj2 (Z.eqb_neq _ _) Hh), Hid, (proj2 (Z.ltb_lt 0 n)),
      (proj2 (Z.leb_gt i (block_timestamp env))) by lia.
    reflexivity.
  - intros Ho Hf Hh Hid Hn Hi Hl. apply nonempty_length in Hid. tx_unfold.
    rewrite (proj2 (Z.eqb_eq _ _) Ho), (proj2 (Z.eqb_eq _ _) Hf),
      (proj2 (Z.eqb_neq _ _) Hh), Hid, (proj2 (Z.ltb_lt 0 n)),
      (proj2 (Z.leb_le i (block_timestamp env))), (proj2 (Z.leb_gt i l))
      by lia.
    reflexivity.
  - intros Hbad.
    destruct (addFact env st h id v s i l n) as [[st' ev]| |] eqn:E;
      try reflexivity.
    apply addFact_inv in E.
    destruct E as (Ho & Hf & Hh & Hid & Hn & Hi & Hl & Hu & Ht). lia.
  - intros st' ev E. pose proof (addFact_inv _ _ _ _ _ _ _ _ _ _ _ E) as Hok.
    rewrite (addFact_success _ _ _ _ _ _ _ _ _ Hok) in E.
    destruct Hok as (Ho & _).
    injection E as <- <-. rewrite readFact_insert_eq, Ho.
    unfold readHash; simpl. by rewrite lookup_insert_eq.
  - intros Hok. by rewrite addFact_success.
  - intros Ho Hf Hh. tx_unfold.
    by rewrite (proj2 (Z.eqb_eq _ _) Ho), (proj2 (Z.eqb_eq _ _) Hf),
      (proj2 (Z.eqb_eq _ _) Hh).
  - intros Ho Hf Hh ->. tx_unfold.
    by rewrite (proj2 (Z.eqb_eq _ _) Ho), (proj2 (Z.eqb_eq _ _) Hf),
      (proj2 (Z.eqb_neq _ _) Hh).
Qed.

Lemma addFact_spec_witness :
  addFact Examples.env_stranger Examples.genesis Examples.hashA "f-1" FALSE
          HIGH Examples.T0 Examples.T0 1
    = Revert "HealthFactRegistry: caller is not the owner" ∧
  addFact Examples.env1 Examples.registered Examples.hashA "f-2" FALSE HIGH
          Examples.T0 Examples.T0 1
    = Revert "HealthFactRegistry: fact already exists" ∧
  addFact Examples.env1 Examples.genesis Examples.hashA "f-1" FALSE HIGH
          Examples.T0 Examples.T0 0
    = Revert "HealthFactRegistry: version must be >= 1" ∧
  addFact Examples.env1 Examples.genesis Examples.hashA "f-1" FALSE HIGH
          (Examples.T0 + 61) (Examples.T0 + 61) 1
    = Revert "HealthFactRegistry: future issuedAt timestamp" ∧
  addFact Examples.env1 Examples.genesis Examples.hashA "f-1" FALSE HIGH
          Examples.T0 (Examples.T0 - 1) 1
    = Revert "HealthFactRegistry: lastReviewedAt before issuedAt" ∧
  succeeded (addFact Examples.env1 Examples.genesis Examples.hashA "f-1"
                     FALSE HIGH Examples.T0 (Examples.T0 - 1) 1) = false ∧
  status (readFact Examples.registered Examples.hashA) = ACTIVE ∧
  totalFacts Examples.registered = totalFacts Examples.genesis + 1 ∧
  succeeded (addFact Examples.env1 Examples.genesis Examples.hashA "f-1"
                     FALSE HIGH Examples.T0 Examples.T0 1) = true.
Proof.
  repeat apply conj.
  - apply (addFact_spec Examples.env_stranger Examples.genesis Examples.hashA
             "f-1" FALSE HIGH Examples.T0 Examples.T0 1).
    vm_compute. discriminate.
  - apply (addFact_spec Examples.env1 Examples.registered Examples.hashA
             "f-2" FALSE HIGH Examples.T0 Examples.T0 1);
      vm_compute; [reflexivity | discriminate].
  - apply (addFact_spec Examples.env1 Examples.genesis Examples.hashA
             "f-1" FALSE HIGH Examples.T0 Examples.T0 0);
      vm_compute; (reflexivity || discriminate).
  - apply (addFact_spec Examples.env1 Examples.genesis Examples.hashA
             "f-1" FALSE HIGH (Examples.T0 + 61) (Examples.T0 + 61) 1);
      vm_compute; (reflexivity || discriminate).
  - apply (addFact_spec Examples.env1 Examples.genesis Examples.hashA
             "f-1" FALSE HIGH Examples.T0 (Examples.T0 - 1) 1);
      vm_compute; (reflexivity || discriminate).
  - apply (addFact_spec Examples.env1 Examples.genesis Examples.hashA
             "f-1" FALSE HIGH Examples.T0 (Examples.T0 - 1) 1).
    right; right; right; left. vm_compute. reflexivity.
  - pose proof (addFact_spec Examples.env1 Examples.genesis Examples.hashA
                  "f-1" FALSE HIGH Examples.T0 Examples.T0 1)
      as (_ & _ & _ & _ & _ & _ & Hpost & _).
    destruct (Hpost Examples.registered
                (FactAdded Examples.hashA "f-1" FALSE HIGH Examples.who
                           Examples.T0)) as (Hf & _).
    { vm_compute. reflexivity. }
    rewrite Hf. reflexivity.
  - pose proof (addFact_spec Examples.env1 Examples.genesis Examples.hashA
                  "f-1" FALSE HIGH Examples.T0 Examples.T0 1)
      as (_ & _ & _ & _ & _ & _ & Hpost & _).
    destruct (Hpost Examples.registered
                (FactAdded Examples.hashA "f-1" FALSE HIGH Examples.who
                           Examples.T0)) as (_ & _ & Ht & _).
    { vm_compute. reflexivity. }
    exact Ht.
  - apply (addFact_spec Examples.env1 Examples.genesis Examples.hashA
             "f-1" FALSE HIGH Examples.T0 Examples.T0 1).
    vm_compute. repeat split; (reflexivity || discriminate).
Defined.


(** ** What a transaction does to the fact table *)

Lemma transferOwnership_inv env st a st' ev :
  transferOwnership env st a = Success (st', ev) ->
  factsByHash st' = factsByHash st.
Proof.
  intros H. tx_unfold. repeat tx_case; try discriminate.
  by injection H as <- _.
Qed.

Lemma call_effect env st c st' ev :
  call env st c = Success (st', ev) ->
  match c with
  | CallAddFact h id v s i l n =>
      factHash (readFact st h) = 0 ∧ h ≠ 0 ∧
      factsByHash st' =
        <[h := {| factHash := h; factId := id; verdict := v; severity := s;
                  issuedAt := i; lastReviewedAt := l; version := n;
                  status := ACTIVE; addedBy := msg_sender env;
                  addedAtBlock := uint64 (block_number env) |}]>
          (factsByHash st)
  | CallUpdateFactStatus h s =>
      factHash (readFact st h) ≠ 0 ∧
      factsByHash st' = <[h := with_status s (readFact st h)]> (factsByHash st)
  | CallTransferOwnership _ => factsByHash st' = factsByHash st
  end.
Proof.
  destruct c as [h id v s i l n|h s|a]; simpl; intros E.
  - pose proof (addFact_inv _ _ _ _ _ _ _ _ _ _ _ E) as Hok.
    rewrite (addFact_success _ _ _ _ _ _ _ _ _ Hok) in E.
    destruct Hok as (_ & Hf & Hh & _). by injection E as <- _.
  - destruct (updateFactStatus_inv _ _ _ _ _ _ E) as (Ho & Hh & Hs).
    rewrite updateFactStatus_success in E by done. by injection E as <- _.
  - eapply transferOwnership_inv, E.
Qed.

Lemma step_cases st t :
  step st t = st ∨ ∃ ev, call t.1 st t.2 = Success (step st t, ev).
Proof.
  unfold step, commit. destruct (call t.1 st t.2) as [[st' ev]| |]; eauto.
Qed.

(** ** Permanence *)

Lemma getFactByHash_Success st h f :
  getFactByHash st h = Success f <->
  factHash (readFact st h) ≠ 0 ∧ f = readFact st h.
Proof.
  tx_unfold. split.
  - intros H. tx_case; try discriminate. tx_facts. by injection H as <-.
  - intros [Hh ->]. by rewrite (proj2 (Z.eqb_neq _ _) Hh).
Qed.

Lemma with_status_twice s s' f :
  with_status s (with_status s' f) = with_status s f.
Proof. reflexivity. Qed.

Lemma with_status_same f : with_status (status f) f = f.
Proof. by destruct f. Qed.

Lemma step_keeps_fact st t h f :
  getFactByHash st h = Success f ->
  ∃ s, getFactByHash (step st t) h = Success (with_status s f).
Proof.
  intros Hget. pose proof Hget as [Hh ->]%getFactByHash_Success.
  destruct (step_cases st t) as [->|[ev E]].
  { exists (status (readFact st h)). by rewrite with_status_same. }
  apply call_effect in E. unfold readFact in *.
  destruct t as [env [h' id v s i l n|h' s|a]]; simpl in E.
  - destruct E as (Hfree & _ & Heq).
    assert (h' ≠ h) by (intros ->; done).
    exists (status (default zeroFact (factsByHash st !! h))).
    apply getFactByHash_Success. unfold readFact.
    rewrite Heq, lookup_insert_ne, with_status_same by done. done.
  - destruct E as (_ & Heq).
    destruct (decide (h' = h)) as [->|Hne].
    + exists s. apply getFactByHash_Success. unfold readFact.
      rewrite Heq, lookup_insert_eq. done.
    + exists (status (default zeroFact (factsByHash st !! h))).
      apply getFactByHash_Success. unfold readFact.
      rewrite Heq, lookup_insert_ne, with_status_same by done. done.
  - exists (status (default zeroFact (factsByHash st !! h))).
    apply getFactByHash_Success. unfold readFact.
    rewrite E, with_status_same. done.
Qed.

Lemma run_keeps_fact st ts h f :
  getFactByHash st h = Success f ->
  ∃ s, getFactByHash (run st ts) h = Success (with_status s f).
Proof.
  revert st f. induction ts as [|t ts IH]; intros st f Hget.
  - exists (status f). by rewrite with_status_same.
  - destruct (step_keeps_fact st t h f Hget) as [s1 H1].
    destruct (IH _ _ H1) as [s2 H2].
    exists s2. exact H2.
Qed.

Lemma run_keeps_present st ts h : present st h -> present (run st ts) h.
Proof.
  intros Hp.
  destruct (run_keeps_fact st ts h (readFact st h)) as [s Hs].
  { by apply getFactByHash_Success. }
  apply getFactByHash_Success in Hs as [Hs _]. exact Hs.
Qed.

(** C8: an entry that [getFactByHash] returns is still returned after any
    sequence of transactions by any callers, and differs from the original
    in its status field at most. *)
Theorem registered_fact_permanent st ts h f :
  getFactByHash st h = Success f ->
  ∃ f', getFactByHash (run st ts) h = Success f' ∧
        f' = with_status (status f') f ∧
        factHash f' = factHash f ∧ factId f' = factId f ∧
        verdict f' = verdict f ∧ severity f' = severity f ∧
        issuedAt f' = issuedAt f ∧ lastReviewedAt f' = lastReviewedAt f ∧
        version f' = version f ∧ addedBy f' = addedBy f ∧
        addedAtBlock f' = addedAtBlock f.
Proof.
  intros Hget. destruct (run_keeps_fact st ts h f Hget) as [s Hs].
  exists (with_status s f). repeat split; done.
Qed.

Lemma registered_fact_permanent_witness :
  ∃ f', getFactByHash
          (run Examples.registered
               [(Examples.env1, CallUpdateFactStatus Examples.hashA WITHDRAWN);
                (Examples.env1,
                 CallAddFact Examples.hashA "f-9" TRUE LOW 5 6 7);
                (Examples.env1, CallTransferOwnership Examples.stranger)])
          Examples.hashA = Success f' ∧
        factId f' = "f-1" ∧ verdict f' = FALSE ∧ version f' = 1.
Proof.
  destruct (registered_fact_permanent Examples.registered
     [(Examples.env1, CallUpdateFactStatus Examples.hashA WITHDRAWN);
      (Examples.env1, CallAddFact Examples.hashA "f-9" TRUE LOW 5 6 7);
      (Examples.env1, CallTransferOwnership Examples.stranger)]
     Examples.hashA
     {| factHash := Examples.hashA; factId := "f-1"; verdict := FALSE;
        severity := HIGH; issuedAt := Examples.T0;
        lastReviewedAt := Examples.T0; version := 1; status := ACTIVE;
        addedBy := Examples.who; addedAtBlock := 105 |})
    as (f' & Hget & _ & _ & Hid & Hv & _ & _ & _ & Hn & _).
  { vm_compute. reflexivity. }
  exists f'. repeat split; assumption.
Defined.

(** ** Presence *)

(** Presence only grows. *)
Lemma addFact_keeps_present env st h id v s i l n st' ev h0 :
  addFact env st h id v s i l n = Success (st', ev) ->
  present st h0 -> present st' h0.
Proof.
  intros E Hp.
  pose proof (addFact_inv _ _ _ _ _ _ _ _ _ _ _ E) as Hok.
  rewrite (addFact_success _ _ _ _ _ _ _ _ _ Hok) in E.
  destruct Hok as (_ & Hf & Hh & _). injection E as <- _.
  unfold present in *.
  destruct (decide (h = h0)) as [->|Hne]; [done|].
  by rewrite readFact_insert_ne.
Qed.

Lemma addFact_makes_present env st h id v s i l n st' ev :
  addFact env st h id v s i l n = Success (st', ev) ->
  present st' h.
Proof.
  intros E.
  pose proof (addFact_inv _ _ _ _ _ _ _ _ _ _ _ E) as Hok.
  rewrite (addFact_success _ _ _ _ _ _ _ _ _ Hok) in E.
  destruct Hok as (_ & Hf & Hh & _). injection E as <- _.
  unfold present. by rewrite readFact_insert_eq.
Qed.

Lemma addFact_keeps_owner env st h id v s i l n st' ev :
  addFact env st h id v s i l n = Success (st', ev) ->
  owner st' = owner st.
Proof.
  intros E.
  pose proof (addFact_inv _ _ _ _ _ _ _ _ _ _ _ E) as Hok.
  rewrite (addFact_success _ _ _ _ _ _ _ _ _ Hok) in E.
  by injection E as <- _.
Qed.


(** ** The existence probe *)

Lemma unregistered_stays_unwritten st ts h :
  factsByHash st !! h = None ->
  registers st ts h = false ->
  factsByHash (run st ts) !! h = None.
Proof.
  revert st. induction ts as [|t ts IH]; intros st Hnone Hreg; [done|].
  simpl in Hreg. apply orb_false_iff in Hreg as [Hhere Hrest].
  simpl. apply IH; [|done].
  destruct (step_cases st t) as [->|[ev E]]; [done|].
  pose proof (call_effect _ _ _ _ _ E) as Heff.
  destruct t as [env [h' id v s i l n|h' s|a]]; simpl in *.
  - rewrite E in Hhere. simpl in Hhere.
    rewrite andb_true_r in Hhere. tx_facts.
    destruct Heff as (_ & _ & ->). by rewrite lookup_insert_ne.
  - destruct Heff as (Hex & ->).
    destruct (decide (h' = h)) as [->|Hne].
    + unfold readFact in Hex. rewrite Hnone in Hex. done.
    + by rewrite lookup_insert_ne.
  - by rewrite Heff.
Qed.

Lemma registered_stays_written st ts h :
  registers st ts h = true -> present (run st ts) h.
Proof.
  revert st. induction ts as [|t ts IH]; intros st Hreg; [done|].
  simpl in Hreg. apply orb_true_iff in Hreg as [Hhere|Hrest];
    [|by apply IH].
  simpl. apply run_keeps_present.
  destruct t as [env [h' id v s i l n| |]]; simpl in Hhere; try done.
  apply andb_true_iff in Hhere as [Hh Hs]. tx_facts. subst h'.
  unfold step; simpl.
  destruct (addFact env st h id v s i l n) as [[st' ev]| |] eqn:E;
    try done.
  simpl. eapply addFact_makes_present, E.
Qed.

(** C10: for a hash that no transaction since deployment has registered,
    the probe answers [false] together with ACTIVE, the status whose enum
    value is 0; an entry that is registered and active answers ACTIVE as
    well, so the status says nothing unless the boolean is [true]. *)
Theorem unregistered_probe env ts h :
  registers (constructor env).1 ts h = false ->
  checkFactExists (run (constructor env).1 ts) h = (false, ACTIVE) ∧
  Status_value ACTIVE = 0.
Proof.
  intros Hreg. split; [|reflexivity].
  unfold checkFactExists, readFact.
  rewrite (unregistered_stays_unwritten _ ts h); [reflexivity| |done].
  simpl. apply lookup_empty.
Qed.

Lemma unregistered_probe_witness :
  checkFactExists
    (run (constructor Examples.env0).1
         [(Examples.env1,
           CallAddFact Examples.hashA "f-1" FALSE HIGH Examples.T0
                       Examples.T0 1);
          (Examples.env1, CallUpdateFactStatus Examples.hashB WITHDRAWN);
          (Examples.env1,
           CallAddFact Examples.hashB "f-1" FALSE HIGH Examples.T0
                       Examples.T0 1)])
    Examples.hashB = (false, ACTIVE).
Proof.
  eapply proj1.
  apply (unregistered_probe Examples.env0
     [(Examples.env1,
       CallAddFact Examples.hashA "f-1" FALSE HIGH Examples.T0 Examples.T0 1);
      (Examples.env1, CallUpdateFactStatus Examples.hashB WITHDRAWN);
      (Examples.env1,
       CallAddFact Examples.hashB "f-1" FALSE HIGH Examples.T0 Examples.T0 1)]
     Examples.hashB).
  vm_compute. reflexivity.
Defined.

End RegistryFacts.

(* ===================================================================== *)
(** * Further properties of the registry *)
(* ===================================================================== *)

Module RegistryInvariants.
Import Registry RegistryFacts.

(** ** Consistency of the storage *)

Lemma consistent_deployed env : consistent (deployed env).
Proof.
  split; simpl; try done.
  - constructor.
  - intros h. rewrite lookup_empty. split.
    + intros Hin. by apply elem_of_nil in Hin.
    + intros [f Hf]. done.
Qed.

Lemma present_stored st h :
  consistent st -> (present st h <-> is_Some (factsByHash st !! h)).
Proof.
  intros Hc. unfold present, readFact. split.
  - destruct (factsByHash st !! h) as [f|]; [eauto|done].
  - intros [f Hf]. rewrite Hf. simpl.
    destruct (fact_under_its_hash st Hc h f Hf) as (-> & Hh & _). done.
Qed.

Lemma readHash_stored st id :
  consistent st -> (readHash st id ≠ 0 <-> is_Some (hashByFactId st !! id)).
Proof.
  intros Hc. unfold readHash. split.
  - destruct (hashByFactId st !! id) as [h|]; [eauto|done].
  - intros [h Hh]. rewrite Hh. simpl.
    destruct (id_points_at_fact st Hc id h Hh) as (f & Hf & _).
    by destruct (fact_under_its_hash st Hc h f Hf) as (_ & Hne & _).
Qed.

Lemma addFact_consistent env st h id v s i l n st' ev :
  consistent st ->
  addFact env st h id v s i l n = Success (st', ev) ->
  consistent st'.
Proof.
  intros Hc E.
  pose proof (addFact_inv _ _ _ _ _ _ _ _ _ _ _ E) as Hok.
  rewrite (addFact_success _ _ _ _ _ _ _ _ _ Hok) in E.
  destruct Hok as (_ & Hf & Hh & _ & _ & _ & _ & Hu & _).
  injection E as <- _.
  assert (Hnone : factsByHash st !! h = None).
  { destruct (factsByHash st !! h) as [f|] eqn:Ef; [|done].
    exfalso. apply (proj2 (present_stored st h Hc)); [by rewrite Ef|done]. }
  assert (Hidnone : hashByFactId st !! id = None).
  { destruct (hashByFactId st !! id) as [h'|] eqn:Ei; [|done].
    exfalso. apply (proj2 (readHash_stored st id Hc)); [by rewrite Ei|done]. }
  destruct Hc as [Htot Hnd Hkeys Hfact Hid]. split; simpl.
  - rewrite length_app, Htot. simpl. lia.
  - apply NoDup_app. split; [done|]. split; [|apply NoDup_singleton].
    intros x Hx ->%list_elem_of_singleton.
    apply Hkeys in Hx. rewrite Hnone in Hx. by destruct Hx.
  - intros h0. rewrite elem_of_app, list_elem_of_singleton, Hkeys.
    destruct (decide (h = h0)) as [->|Hne].
    + rewrite lookup_insert_eq. split; eauto.
    + rewrite lookup_insert_ne by done. split; [|by left].
      intros [?|?]; [done|congruence].
  - intros h0 f. destruct (decide (h = h0)) as [->|Hne].
    + rewrite lookup_insert_eq. intros [= <-]. simpl.
      by rewrite lookup_insert_eq.
    + rewrite lookup_insert_ne by done. intros Hf0.
      destruct (Hfact h0 f Hf0) as (Hfh & Hh0 & Hfid).
      repeat split; [done..|].
      rewrite lookup_insert_ne; [done|]. intros Heq. congruence.
  - intros id0 h0. destruct (decide (id = id0)) as [->|Hne].
    + rewrite lookup_insert_eq. intros [= <-].
      eexists. rewrite lookup_insert_eq. done.
    + rewrite lookup_insert_ne by done. intros Hid0.
      destruct (Hid id0 h0 Hid0) as (f & Hf0 & Hfid).
      exists f. split; [|done].
      rewrite lookup_insert_ne; [done|]. intros Heq. congruence.
Qed.

Lemma updateFactStatus_consistent env st h s st' ev :
  consistent st ->
  updateFactStatus env st h s = Success (st', ev) ->
  consistent st'.
Proof.
  intros Hc E.
  destruct (updateFactStatus_inv _ _ _ _ _ _ E) as (Ho & Hh & Hs).
  rewrite updateFactStatus_success in E by done. injection E as <- _.
  assert (Hsome : factsByHash st !! h = Some (readFact st h)).
  { apply (proj1 (present_stored st h Hc)) in Hh as [f Hf].
    unfold readFact. by rewrite Hf. }
  destruct Hc as [Htot Hnd Hkeys Hfact Hid]. split; simpl; try done.
  - intros h0. rewrite Hkeys. destruct (decide (h = h0)) as [->|Hne].
    + rewrite lookup_insert_eq, Hsome. split; eauto.
    + by rewrite lookup_insert_ne.
  - intros h0 f. destruct (decide (h = h0)) as [->|Hne].
    + rewrite lookup_insert_eq. intros [= <-]. simpl.
      apply (Hfact h0 _ Hsome).
    + rewrite lookup_insert_ne by done. apply Hfact.
  - intros id0 h0 Hid0. destruct (Hid id0 h0 Hid0) as (f & Hf0 & Hfid).
    destruct (decide (h = h0)) as [->|Hne].
    + exists (with_status s f). rewrite lookup_insert_eq.
      rewrite Hsome in Hf0. injection Hf0 as ->. done.
    + exists f. by rewrite lookup_insert_ne.
Qed.

Lemma transferOwnership_consistent env st a st' ev :
  consistent st ->
  transferOwnership env st a = Success (st', ev) ->
  consistent st'.
Proof.
  intros [Htot Hnd Hkeys Hfact Hid] E. tx_unfold.
  repeat tx_case; try discriminate. injection E as <- _.
  by split.
Qed.

Lemma step_consistent st t : consistent st -> consistent (step st t).
Proof.
  intros Hc. destruct (step_cases st t) as [->|[ev E]]; [done|].
  destruct t as [env [h id v s i l n|h s|a]]; simpl in E.
  - eapply addFact_consistent; eauto.
  - eapply updateFactStatus_consistent; eauto.
  - eapply transferOwnership_consistent; eauto.
Qed.

Lemma run_consistent st ts : consistent st -> consistent (run st ts).
Proof.
  revert st. induction ts as [|t ts IH]; intros st Hc; [done|].
  apply IH. by apply step_consistent.
Qed.

(** ** The enumeration *)

(** X1: at any time after deployment, [totalFacts] is the length of the
    list [getAllFactHashes] returns, that list has no hash twice, and it
    holds exactly the hashes for which [checkFactExists] answers [true]. *)
Theorem enumeration_matches_table env ts :
  totalFacts (run (deployed env) ts)
    = Z.of_nat (List.length (getAllFactHashes (run (deployed env) ts))) ∧
  NoDup (getAllFactHashes (run (deployed env) ts)) ∧
  (forall h, h ∈ getAllFactHashes (run (deployed env) ts) <->
             (checkFactExists (run (deployed env) ts) h).1 = true).
Proof.
  pose proof (run_consistent _ ts (consistent_deployed env)) as Hc.
  split; [apply Hc|]. split; [apply Hc|].
  intros h. unfold getAllFactHashes. rewrite (hashes_are_keys _ Hc).
  rewrite <- (present_stored _ h Hc). unfold present, checkFactExists. simpl.
  rewrite negb_true_iff, Z.eqb_neq. done.
Qed.

(** The enumeration only grows at its end, and the counter never goes
    down. *)
Lemma step_appends st t :
  allFactHashes st `prefix_of` allFactHashes (step st t) ∧
  totalFacts st <= totalFacts (step st t).
Proof.
  destruct (step_cases st t) as [->|[ev E]]; [done|].
  destruct t as [env [h id v s i l n|h s|a]]; simpl in E.
  - pose proof (addFact_inv _ _ _ _ _ _ _ _ _ _ _ E) as Hok.
    rewrite (addFact_success _ _ _ _ _ _ _ _ _ Hok) in E.
    injection E as <- _. simpl. split; [by apply prefix_app_r|lia].
  - destruct (updateFactStatus_inv _ _ _ _ _ _ E) as (Ho & Hh & Hs).
    rewrite updateFactStatus_success in E by done.
    by injection E as <- _.
  - tx_unfold. repeat tx_case; try discriminate. by injection E as <- _.
Qed.

(** X2: whatever transactions follow, the hashes already enumerated stay
    where they are in the list (new ones are appended), and [totalFacts]
    does not decrease. *)
Theorem enumeration_append_only st ts :
  allFactHashes st `prefix_of` allFactHashes (run st ts) ∧
  totalFacts st <= totalFacts (run st ts).
Proof.
  revert st. induction ts as [|t ts IH]; intros st; [done|].
  destruct (step_appends st t) as [Hp Ht].
  destruct (IH (step st t)) as [Hp' Ht'].
  change (run st (t :: ts)) with (run (step st t) ts).
  split; [by etrans|lia].
Qed.

(** ** The two lookups *)

Lemma getFactById_Success st id f :
  getFactById st id = Success f <->
  readHash st id ≠ 0 ∧ f = readFact st (readHash st id).
Proof.
  tx_unfold. split.
  - intros H. tx_case; try discriminate. tx_facts. by injection H as <-.
  - intros [Hh ->]. by rewrite (proj2 (Z.eqb_neq _ _) Hh).
Qed.

(** X3: at any time after deployment the lookup by identifier and the
    lookup by hash return the same records: a record found under an
    identifier carries that identifier and is the record stored under
    its hash, a record found under a hash carries that hash and is the
    one its identifier leads to, and so no two hashes share an
    identifier. *)
Theorem lookups_agree env ts :
  (forall id f,
     getFactById (run (deployed env) ts) id = Success f ->
     factId f = id ∧
     getFactByHash (run (deployed env) ts) (factHash f) = Success f) ∧
  (forall h f,
     getFactByHash (run (deployed env) ts) h = Success f ->
     factHash f = h ∧
     getFactById (run (deployed env) ts) (factId f) = Success f) ∧
  (forall h1 h2 f1 f2,
     getFactByHash (run (deployed env) ts) h1 = Success f1 ->
     getFactByHash (run (deployed env) ts) h2 = Success f2 ->
     factId f1 = factId f2 -> h1 = h2).
Proof.
  pose proof (run_consistent _ ts (consistent_deployed env)) as Hc.
  set (st := run (deployed env) ts) in *.
  assert (Hhash : forall h f, getFactByHash st h = Success f ->
            factsByHash st !! h = Some f).
  { intros h f [Hh ->]%getFactByHash_Success.
    apply (proj1 (present_stored st h Hc)) in Hh as [f Hf].
    unfold readFact. by rewrite Hf. }
  assert (Hby_id : forall h f, factsByHash st !! h = Some f ->
            getFactById st (factId f) = Success f ∧ factHash f = h).
  { intros h f Hf.
    destruct (fact_under_its_hash st Hc h f Hf) as (Hfh & Hne & Hid).
    split; [|done]. apply getFactById_Success.
    unfold readHash, readFact. rewrite Hid. simpl. by rewrite Hf. }
  repeat apply conj.
  - intros id f [Hne ->]%getFactById_Success.
    apply (proj1 (readHash_stored st id Hc)) in Hne as [h Hh].
    destruct (id_points_at_fact st Hc id h Hh) as (f & Hf & Hfid).
    unfold readHash, readFact. rewrite Hh. simpl. rewrite Hf. simpl.
    split; [done|].
    destruct (fact_under_its_hash st Hc h f Hf) as (Hfh & Hne & _).
    apply getFactByHash_Success. unfold readFact. rewrite Hfh, Hf. simpl.
    split; [congruence|done].
  - intros h f Hget. apply Hhash in Hget.
    destruct (Hby_id h f Hget). done.
  - intros h1 h2 f1 f2 H1%Hhash H2%Hhash Heq.
    destruct (fact_under_its_hash st Hc h1 f1 H1) as (_ & _ & Hi1).
    destruct (fact_under_its_hash st Hc h2 f2 H2) as (_ & _ & Hi2).
    congruence.
Qed.

Lemma lookups_agree_witness :
  getFactByHash (run (deployed Examples.env0) Examples.history)
                Examples.hashA
  = Success {| factHash := Examples.hashA; factId := "f-1";
               verdict := FALSE; severity := HIGH;
               issuedAt := Examples.T0; lastReviewedAt := Examples.T0;
               version := 1; status := WITHDRAWN;
               addedBy := Examples.who; addedAtBlock := 105 |}.
Proof.
  destruct (lookups_agree Examples.env0 Examples.history) as (Hid & _ & _).
  apply (Hid "f-1"
           {| factHash := Examples.hashA; factId := "f-1";
              verdict := FALSE; severity := HIGH;
              issuedAt := Examples.T0; lastReviewedAt := Examples.T0;
              version := 1; status := WITHDRAWN;
              addedBy := Examples.who; addedAtBlock := 105 |}).
  vm_compute. reflexivity.
Defined.

(** ** Access control *)

(** X4: every state-changing function is closed to callers other than
    the owner: the call reverts with the owner message whatever its
    arguments, and storage stays as it was. *)
Theorem only_owner_writes env st c :
  msg_sender env ≠ owner st ->
  call env st c = Revert "HealthFactRegistry: caller is not the owner" ∧
  step st (env, c) = st.
Proof.
  intros Ho.
  assert (Hcall : call env st c
            = Revert "HealthFactRegistry: caller is not the owner").
  { destruct c; simpl; tx_unfold; by rewrite (proj2 (Z.eqb_neq _ _) Ho). }
  split; [done|]. unfold step. simpl. by rewrite Hcall.
Qed.

Lemma only_owner_writes_witness :
  step Examples.registered
       (Examples.env_stranger,
        CallUpdateFactStatus Examples.hashA WITHDRAWN)
  = Examples.registered.
Proof.
  apply (only_owner_writes Examples.env_stranger Examples.registered
           (CallUpdateFactStatus Examples.hashA WITHDRAWN)).
  vm_compute. discriminate.
Defined.

Lemma transferOwnership_success env st a :
  msg_sender env = owner st -> a ≠ 0 -> a ≠ owner st ->
  transferOwnership env st a =
    Success ({| owner := a; factsByHash := factsByHash st;
                hashByFactId := hashByFactId st;
                allFactHashes := allFactHashes st;
                totalFacts := totalFacts st |},
             OwnershipTransferred (owner st) a
                                  (uint64 (block_timestamp env))).
Proof.
  intros Ho Ha Hne. tx_unfold.
  by rewrite (proj2 (Z.eqb_eq _ _) Ho), (proj2 (Z.eqb_neq _ _) Ha),
    (proj2 (Z.eqb_neq _ _) Hne).
Qed.

Lemma transferOwnership_conditions env st a st' ev :
  transferOwnership env st a = Success (st', ev) ->
  msg_sender env = owner st ∧ a ≠ 0 ∧ a ≠ owner st.
Proof.
  intros H. tx_unfold. repeat tx_case; try discriminate. tx_facts. done.
Qed.

(** X5: [transferOwnership] goes through exactly when the caller is the
    owner and the new owner is neither the zero address nor the current
    owner. It then changes the owner and nothing else, announces the old
    and the new owner, and hands the registry over for good: from then
    on every call by the previous owner is refused, and a repeated
    transfer to the same address is refused too. *)
Theorem transferOwnership_hands_over env st a :
  (succeeded (transferOwnership env st a) = true <->
   msg_sender env = owner st ∧ a ≠ 0 ∧ a ≠ owner st) ∧
  (forall st' ev,
     transferOwnership env st a = Success (st', ev) ->
     owner st' = a ∧
     factsByHash st' = factsByHash st ∧
     hashByFactId st' = hashByFactId st ∧
     allFactHashes st' = allFactHashes st ∧
     totalFacts st' = totalFacts st ∧
     ev = OwnershipTransferred (owner st) a (uint64 (block_timestamp env)) ∧
     (forall env' c,
        msg_sender env' = owner st ->
        call env' st' c
          = Revert "HealthFactRegistry: caller is not the owner") ∧
     (forall env', succeeded (transferOwnership env' st' a) = false)).
Proof.
  split.
  - split.
    + destruct (transferOwnership env st a) as [[st' ev]| |] eqn:E;
        try discriminate.
      intros _. eapply transferOwnership_conditions, E.
    + intros (Ho & Ha & Hne). by rewrite transferOwnership_success.
  - intros st' ev E.
    destruct (transferOwnership_conditions _ _ _ _ _ E) as (Ho & Ha & Hne).
    rewrite transferOwnership_success in E by done.
    injection E as <- <-. simpl. repeat split.
    + intros env' c Hold.
      apply only_owner_writes. simpl. congruence.
    + intros env'.
      destruct (transferOwnership env' _ a) as [[st2 ev2]| |] eqn:E2;
        try reflexivity.
      apply transferOwnership_conditions in E2 as (_ & _ & Hsame).
      by destruct Hsame.
Qed.

Lemma transferOwnership_hands_over_witness :
  succeeded (transferOwnership Examples.env1 Examples.registered
                               Examples.stranger) = true ∧
  call Examples.env1
       (commit Examples.registered
          (transferOwnership Examples.env1 Examples.registered
                             Examples.stranger))
       (CallUpdateFactStatus Examples.hashA WITHDRAWN)
  = Revert "HealthFactRegistry: caller is not the owner".
Proof.
  destruct (transferOwnership_hands_over Examples.env1 Examples.registered
              Examples.stranger) as [Hiff Hpost].
  split.
  - apply Hiff. vm_compute. repeat split; discriminate.
  - destruct (transferOwnership Examples.env1 Examples.registered
                                Examples.stranger) as [[st' ev]| |] eqn:E.
    + destruct (Hpost st' ev eq_refl) as (_ & _ & _ & _ & _ & _ & Hold & _).
      apply Hold. reflexivity.
    + vm_compute in E. discriminate.
    + vm_compute in E. discriminate.
Defined.

(** ** Frame *)

(** X6: a transaction leaves alone every record but the one it names:
    for any other hash the stored record, its status included, is what it
    was, whether the transaction goes through or not. *)
Theorem other_facts_untouched st env c h :
  named_hash c ≠ Some h ->
  readFact (step st (env, c)) h = readFact st h ∧
  checkFactExists (step st (env, c)) h = checkFactExists st h.
Proof.
  intros Hother.
  assert (Hread : readFact (step st (env, c)) h = readFact st h).
  { destruct (step_cases st (env, c)) as [->|[ev E]]; [done|].
    apply call_effect in E. simpl in E. unfold readFact.
    destruct c as [h' id v s i l n|h' s|a]; simpl in *.
    - destruct E as (_ & _ & ->). rewrite lookup_insert_ne; [done|congruence].
    - destruct E as (_ & ->). rewrite lookup_insert_ne; [done|congruence].
    - by rewrite E. }
  split; [done|]. unfold checkFactExists. by rewrite Hread.
Qed.

Lemma other_facts_untouched_witness :
  readFact (step Examples.registered
                 (Examples.env1,
                  CallAddFact Examples.hashB "f-2" TRUE LOW 5 6 7))
           Examples.hashA
  = readFact Examples.registered Examples.hashA.
Proof.
  apply (other_facts_untouched Examples.registered Examples.env1
           (CallAddFact Examples.hashB "f-2" TRUE LOW 5 6 7) Examples.hashA).
  vm_compute. discriminate.
Defined.

(** ** Undoing a status change *)

(** X7: at any time after deployment, a status change that went through
    can be taken back: the owner setting the old status again succeeds
    and leaves the storage exactly as it was before the first change. *)
Theorem status_change_reversible env0 ts env env' h s st1 ev1 :
  updateFactStatus env (run (deployed env0) ts) h s = Success (st1, ev1) ->
  msg_sender env' = msg_sender env ->
  ∃ ev2,
    updateFactStatus env' st1 h
      (status (readFact (run (deployed env0) ts) h))
    = Success (run (deployed env0) ts, ev2).
Proof.
  set (st := run (deployed env0) ts). intros E Hsender.
  pose proof (run_consistent _ ts (consistent_deployed env0)) as Hc.
  fold st in Hc.
  destruct (updateFactStatus_inv _ _ _ _ _ _ E) as (Ho & Hh & Hs).
  rewrite updateFactStatus_success in E by done. injection E as <- _.
  assert (Hsome : factsByHash st !! h = Some (readFact st h)).
  { apply (proj1 (present_stored st h Hc)) in Hh as [f Hf].
    unfold readFact. by rewrite Hf. }
  eexists. rewrite updateFactStatus_success.
  - f_equal. f_equal. rewrite readFact_insert_eq. simpl.
    rewrite insert_insert_eq, with_status_twice, with_status_same.
    rewrite (insert_id _ _ _ Hsome). by destruct st.
  - simpl. congruence.
  - by rewrite readFact_insert_eq.
  - rewrite readFact_insert_eq. simpl. congruence.
Qed.

Lemma status_change_reversible_witness :
  ∃ ev2,
    updateFactStatus Examples.env0
      (commit (run (deployed Examples.env0) Examples.history)
         (updateFactStatus Examples.env1
            (run (deployed Examples.env0) Examples.history)
            Examples.hashB SUPERSEDED))
      Examples.hashB ACTIVE
    = Success (run (deployed Examples.env0) Examples.history, ev2).
Proof.
  destruct (status_change_reversible Examples.env0 Examples.history
              Examples.env1 Examples.env0 Examples.hashB SUPERSEDED
              (commit (run (deployed Examples.env0) Examples.history)
                 (updateFactStatus Examples.env1
                    (run (deployed Examples.env0) Examples.history)
                    Examples.hashB SUPERSEDED))
              (FactUpdated Examples.hashB "f-2" ACTIVE SUPERSEDED
                           Examples.who (Examples.T0 + 60)))
    as [ev2 H2].
  - vm_compute. reflexivity.
  - reflexivity.
  - exists ev2. exact H2.
Defined.

End RegistryInvariants.

(* ===================================================================== *)
(** * Properties of the registration script *)
(* ===================================================================== *)

Module CoordinatorFacts.
Import Coordinator.

(** The strings the script maps to an enum member are the member's
    names in the contract. *)
Lemma enum_name_of_verdict s v :
  verdictToEnum s = Some v -> Registry.verdictToString v = s.
Proof.
  unfold verdictToEnum.
  repeat match goal with
  | |- context [String.eqb s ?name] =>
      destruct (String.eqb_spec s name) as [->|_];
      [by intros [= <-]|]
  end.
  discriminate.
Qed.

Lemma enum_name_of_severity s v :
  severityToEnum s = Some v -> Registry.severityToString v = s.
Proof.
  unfold severityToEnum.
  repeat match goal with
  | |- context [String.eqb s ?name] =>
      destruct (String.eqb_spec s name) as [->|_];
      [by intros [= <-]|]
  end.
  discriminate.
Qed.

Section ScriptFacts.

Variable computeFactHash : FactJson -> option Z.
Variable isoToUnix : string -> option Z.

Local Abbreviation submit := (Coordinator.submit isoToUnix).
Local Abbreviation hashOf := (Coordinator.hashOf computeFactHash).
Local Abbreviation quiet := (Coordinator.quiet computeFactHash).
Local Abbreviation attempt := (Coordinator.attempt computeFactHash isoToUnix).
Local Abbreviation turn := (Coordinator.turn computeFactHash isoToUnix).
Local Abbreviation turns := (Coordinator.turns computeFactHash isoToUnix).
Local Abbreviation processFact :=
  (Coordinator.processFact computeFactHash isoToUnix).
Local Abbreviation iteration :=
  (Coordinator.iteration computeFactHash isoToUnix).
Local Abbreviation loop := (Coordinator.loop computeFactHash isoToUnix).
Local Abbreviation main := (Coordinator.main computeFactHash isoToUnix).

(** ** One record, when nothing is thrown *)

Lemma submit_cases signer blk st h f :
  (∃ why, submit signer blk st h f = (st, Failed why)) ∨
  (∃ v s i l n st' ev,
     Registry.addFact (env_of signer blk) st h (id f) v s i l n
       = Registry.Success (st', ev) ∧
     submit signer blk st h f = (st', Registered ev)).
Proof.
  unfold Coordinator.submit.
  destruct (verdictToEnum (verdict f)) as [v|]; [|eauto].
  destruct (severityToEnum (severity f)) as [s|]; [|eauto].
  destruct (as_uint 64 (isoToUnix (issued_at f))) as [i|]; [|eauto].
  destruct (as_uint 64 (isoToUnix (last_reviewed_at f))) as [l|]; [|eauto].
  destruct (as_uint 16 (Some (version f))) as [n|]; [|eauto].
  destruct (Registry.addFact _ _ _ _ _ _ _ _ _) as [[st' ev]| |] eqn:E;
    [right|left; eauto..].
  by exists v, s, i, l, n, st', ev.
Qed.

Lemma attempt_present signer blk st f :
  Registry.present st (hashOf f) ->
  attempt signer blk st f =
    (st, Skipped (Registry.status (Registry.readFact st (hashOf f)))).
Proof.
  intros Hp. unfold Coordinator.attempt, Registry.checkFactExists.
  unfold Registry.present in Hp.
  by rewrite (proj2 (Z.eqb_neq _ _) Hp).
Qed.

Lemma attempt_absent signer blk st f :
  ¬ Registry.present st (hashOf f) ->
  attempt signer blk st f = submit signer blk st (hashOf f) f.
Proof.
  intros Hp. unfold Coordinator.attempt, Registry.checkFactExists.
  unfold Registry.present in Hp.
  destruct (Z.eqb_spec
              (Registry.factHash (Registry.readFact st (hashOf f))) 0);
    [done|]. by destruct Hp.
Qed.


Lemma attempt_keeps_present signer blk st f h :
  Registry.present st h ->
  Registry.present (attempt signer blk st f).1 h.
Proof.
  intros Hp0.
  destruct (decide (Registry.present st (hashOf f))) as [Hp|Hp].
  - by rewrite attempt_present.
  - rewrite attempt_absent by done.
    destruct (submit_cases signer blk st (hashOf f) f)
      as [[w ->]|(v & s & i & l & n & st2 & ev & E & ->)]; [done|].
    simpl. eapply RegistryFacts.addFact_keeps_present; eauto.
Qed.

Lemma attempt_keeps_owner signer blk st f :
  Registry.owner (attempt signer blk st f).1 = Registry.owner st.
Proof.
  destruct (decide (Registry.present st (hashOf f))) as [Hp|Hp].
  - by rewrite attempt_present.
  - rewrite attempt_absent by done.
    destruct (submit_cases signer blk st (hashOf f) f)
      as [[w ->]|(v & s & i & l & n & st2 & ev & E & ->)]; [done|].
    simpl. eapply RegistryFacts.addFact_keeps_owner; eauto.
Qed.

(** A record that was skipped or registered is present afterwards. *)
Lemma attempt_done_present signer blk st f :
  is_failed (attempt signer blk st f).2 = false ->
  Registry.present (attempt signer blk st f).1 (hashOf f).
Proof.
  destruct (decide (Registry.present st (hashOf f))) as [Hp|Hp].
  - by rewrite attempt_present.
  - rewrite attempt_absent by done.
    destruct (submit_cases signer blk st (hashOf f) f)
      as [[w ->]|(v & s & i & l & n & st2 & ev & E & ->)]; [done|].
    intros _. simpl. eapply RegistryFacts.addFact_makes_present; eauto.
Qed.

(** The three ways a record is dealt with. *)
Lemma attempt_cases signer blk st f :
  (Registry.present st (hashOf f) ∧
   attempt signer blk st f =
     (st, Skipped (Registry.status (Registry.readFact st (hashOf f))))) ∨
  (¬ Registry.present st (hashOf f) ∧
   ∃ why, attempt signer blk st f = (st, Failed why)) ∨
  (¬ Registry.present st (hashOf f) ∧
   ∃ v s i l st' ev,
     verdictToEnum (verdict f) = Some v ∧
     severityToEnum (severity f) = Some s ∧
     as_uint 64 (isoToUnix (issued_at f)) = Some i ∧
     as_uint 64 (isoToUnix (last_reviewed_at f)) = Some l ∧
     as_uint 16 (Some (version f)) = Some (version f) ∧
     Registry.addFact (env_of signer blk) st (hashOf f) (id f)
                      v s i l (version f) = Registry.Success (st', ev) ∧
     attempt signer blk st f = (st', Registered ev)).
Proof.
  destruct (decide (Registry.present st (hashOf f))) as [Hp|Hp].
  { left. split; [done|]. by apply attempt_present. }
  right. rewrite attempt_absent by done.
  unfold Coordinator.submit.
  destruct (verdictToEnum (verdict f)) as [v|]; [|left; eauto].
  destruct (severityToEnum (severity f)) as [s|]; [|left; eauto].
  destruct (as_uint 64 (isoToUnix (issued_at f))) as [i|]; [|left; eauto].
  destruct (as_uint 64 (isoToUnix (last_reviewed_at f))) as [l|];
    [|left; eauto].
  destruct (as_uint 16 (Some (version f))) as [n|] eqn:En; [|left; eauto].
  assert (n = version f) as ->.
  { simpl in En. by destruct (_ && _); simplify_eq. }
  destruct (Registry.addFact _ _ _ _ _ _ _ _ _) as [[st' ev]| |] eqn:E;
    [right|left; eauto..].
  split; [done|]. by exists v, s, i, l, st', ev.
Qed.

(** A record with a version below 1 is never registered. *)
Lemma attempt_low_version signer blk st f :
  version f < 1 -> ¬ Registry.present st (hashOf f) ->
  ∃ why, attempt signer blk st f = (st, Failed why).
Proof.
  intros Hv Hp.
  destruct (attempt_cases signer blk st f)
    as [[? _]|[[_ E]|[_ (v & s & i & l & st' & ev & _ & _ & _ & _ & _
                         & Eadd & _)]]]; [done|done|].
  apply RegistryFacts.addFact_inv in Eadd.
  destruct Eadd as (_ & _ & _ & _ & Hn & _). lia.
Qed.

(** ** The loop, when nothing is thrown *)

(** What one turn does to the loop variables. *)
Lemma turn_spec signer blk r f :
  let o := (attempt signer blk (registry r) f).2 in
  registry (turn signer blk r f)
    = (attempt signer blk (registry r) f).1 ∧
  log (turn signer blk r f) = (log r ++ [(id f, o)])%list ∧
  successCount (turn signer blk r f)
    = successCount r + (if is_registered o then 1 else 0) ∧
  skipCount (turn signer blk r f)
    = skipCount r + (if is_skipped o then 1 else 0).
Proof.
  unfold Coordinator.turn.
  destruct (attempt signer blk (registry r) f) as [st' [s|ev|why]];
    simpl; repeat split; lia.
Qed.

Lemma turns_app signer chain i r xs ys :
  turns signer chain i r (xs ++ ys)
  = turns signer chain (i + List.length xs) (turns signer chain i r xs) ys.
Proof.
  revert i r. induction xs as [|x xs IH]; intros i r; simpl.
  - by rewrite Nat.add_0_r.
  - rewrite IH. by rewrite Nat.add_succ_r.
Qed.

Lemma turns_keeps_present signer chain i r fs h :
  Registry.present (registry r) h ->
  Registry.present (registry (turns signer chain i r fs)) h.
Proof.
  revert i r. induction fs as [|f fs IH]; intros i r Hp; [done|].
  simpl. apply IH.
  destruct (turn_spec signer (chain i) r f) as (-> & _).
  by apply attempt_keeps_present.
Qed.

Lemma turns_keeps_owner signer chain i r fs :
  Registry.owner (registry (turns signer chain i r fs))
  = Registry.owner (registry r).
Proof.
  revert i r. induction fs as [|f fs IH]; intros i r; [done|].
  simpl. rewrite IH.
  destruct (turn_spec signer (chain i) r f) as (-> & _).
  apply attempt_keeps_owner.
Qed.

(** The log grows by one line per file, labelled with the file's id. *)
Lemma turns_log signer chain i r fs :
  ∃ new, log (turns signer chain i r fs) = (log r ++ new)%list ∧
         map fst new = map id fs.
Proof.
  revert i r. induction fs as [|f fs IH]; intros i r.
  - exists []. by rewrite app_nil_r.
  - simpl. destruct (IH (S i) (turn signer (chain i) r f))
      as (new & -> & Hids).
    destruct (turn_spec signer (chain i) r f) as (_ & -> & _).
    eexists (_ :: new). rewrite <- app_assoc. split; [reflexivity|].
    simpl. by rewrite Hids.
Qed.

Lemma turns_log_length signer chain i r fs :
  List.length (log (turns signer chain i r fs))
  = (List.length (log r) + List.length fs)%nat.
Proof.
  destruct (turns_log signer chain i r fs) as (new & -> & Hids).
  rewrite length_app. f_equal.
  by rewrite <- (length_map fst new), Hids, length_map.
Qed.

(** The line of the [k]-th file is the outcome of processing it in the
    registry left by the files before it. *)
Lemma turns_lookup signer chain i r fs k f :
  fs !! k = Some f ->
  log (turns signer chain i r fs) !! (List.length (log r) + k)%nat
  = Some (id f,
          (attempt signer (chain (i + k)%nat)
             (registry (turns signer chain i r (take k fs))) f).2).
Proof.
  intros Hk.
  rewrite <- (take_drop_middle fs k f Hk) at 1.
  assert (Hlen : List.length (take k fs) = k).
  { apply length_take_le. apply lookup_lt_Some in Hk. lia. }
  rewrite turns_app, Hlen. simpl.
  set (rk := turns signer chain i r (take k fs)).
  destruct (turns_log signer chain (S (i + k)) (turn signer
              (chain (i + k)%nat) rk f) (drop (S k) fs)) as (new & -> & _).
  destruct (turn_spec signer (chain (i + k)%nat) rk f) as (_ & -> & _).
  rewrite <- app_assoc. simpl.
  assert (Hrk : List.length (log rk) = (List.length (log r) + k)%nat).
  { unfold rk. by rewrite turns_log_length, Hlen. }
  rewrite <- Hrk. by rewrite list_lookup_middle.
Qed.



(** When every record's hash is present, the loop only skips. *)
Lemma turns_all_present signer chain i r fs :
  Forall (fun f => Registry.present (registry r) (hashOf f)) fs ->
  turns signer chain i r fs =
    {| registry := registry r;
       successCount := successCount r;
       skipCount := skipCount r + Z.of_nat (List.length fs);
       log := log r ++
              map (fun f =>
                     (id f,
                      Skipped (Registry.status
                                 (Registry.readFact (registry r)
                                                    (hashOf f)))))
                  fs |}.
Proof.
  revert i r. induction fs as [|f fs IH]; intros i r Hall.
  - simpl. rewrite Z.add_0_r, app_nil_r. by destruct r.
  - apply Forall_cons in Hall as [Hf Hall]. simpl.
    assert (Hit : turn signer (chain i) r f =
              {| registry := registry r; successCount := successCount r;
                 skipCount := skipCount r + 1;
                 log := log r ++
                   [(id f, Skipped (Registry.status
                              (Registry.readFact (registry r)
                                                 (hashOf f))))] |}).
    { unfold Coordinator.turn. by rewrite attempt_present. }
    rewrite Hit, IH by done. simpl. f_equal; [lia|].
    by rewrite <- app_assoc.
Qed.

(** A run continues the counters and the log it is given: its result is
    that of a fresh run from the same registry, added on. *)
Lemma turns_delta signer chain i r fs :
  let d := turns signer chain i (fresh_run (registry r)) fs in
  turns signer chain i r fs =
    {| registry := registry d;
       successCount := successCount r + successCount d;
       skipCount := skipCount r + skipCount d;
       log := log r ++ log d |}.
Proof.
  revert i r. induction fs as [|f fs IH]; intros i r; simpl.
  - rewrite !Z.add_0_r, app_nil_r. by destruct r.
  - rewrite (IH (S i) (turn signer (chain i) r f)).
    rewrite (IH (S i) (turn signer (chain i) (fresh_run (registry r)) f)).
    destruct (turn_spec signer (chain i) r f) as (R1 & L1 & S1 & K1).
    destruct (turn_spec signer (chain i) (fresh_run (registry r)) f)
      as (R2 & L2 & S2 & K2).
    simpl in R2, L2, S2, K2. rewrite R1, L1, S1, K1, R2, L2, S2, K2.
    simpl. f_equal; [lia..|]. by rewrite <- app_assoc.
Qed.


Lemma count_zero p l :
  count p l = 0 -> Forall (fun line => p line.2 = false) l.
Proof.
  unfold count. induction l as [|x l IH]; simpl; [constructor|].
  destruct (p x.2) eqn:E; simpl; [lia|].
  intros H. constructor; auto.
Qed.


(** ** What is thrown, and what is returned otherwise *)

Lemma processFact_quiet signer blk st f :
  quiet st f -> processFact signer blk st f = Some (attempt signer blk st f).
Proof.
  unfold Coordinator.quiet, Coordinator.processFact, Coordinator.attempt,
    Coordinator.hashOf, Registry.checkFactExists, Registry.present.
  destruct (computeFactHash f) as [h|]; [|by intros [? _]].
  intros [_ Hc].
  destruct (Z.eqb_spec (Registry.factHash (Registry.readFact st h)) 0)
    as [E|E]; simpl; [|done].
  destruct Hc as [Hc|Hc]; [done|]. by destruct (claim_text f).
Qed.

Lemma processFact_returns signer blk st f result :
  processFact signer blk st f = Some result ->
  quiet st f ∧ result = attempt signer blk st f.
Proof.
  intros H. assert (Hq : quiet st f).
  { revert H.
    unfold Coordinator.quiet, Coordinator.processFact, Coordinator.hashOf,
      Registry.checkFactExists, Registry.present.
    destruct (computeFactHash f) as [h|]; [|done].
    destruct (Z.eqb_spec (Registry.factHash (Registry.readFact st h)) 0)
      as [E|E]; simpl; [|by intros _; split; [|left]].
    destruct (claim_text f); [|done]. intros _. split; [done|by right]. }
  split; [done|]. rewrite processFact_quiet in H by done. congruence.
Qed.

Lemma processFact_thrown signer blk st f :
  processFact signer blk st f = None <-> ¬ quiet st f.
Proof.
  split.
  - intros H Hq. rewrite processFact_quiet in H by done. discriminate.
  - intros Hq. destruct (processFact signer blk st f) as [result|] eqn:E;
      [|done].
    apply processFact_returns in E as [? _]. done.
Qed.

Lemma quiet_hash st f : quiet st f -> computeFactHash f = Some (hashOf f).
Proof.
  unfold Coordinator.quiet, Coordinator.hashOf.
  by destruct (computeFactHash f); intros [? _].
Qed.

(** A record that is present is skipped, whatever else it holds. *)
Lemma quiet_present st st' f :
  quiet st f ->
  (forall h, Registry.present st h -> Registry.present st' h) ->
  quiet st' f.
Proof. intros [Hh [Hp|Hc]] Hmono; split; auto. Qed.

(** The loop returns exactly when every file is readable and nothing is
    thrown for its record in the registry the files before it leave. *)
Lemma loop_quiet signer chain i r fs :
  (forall k f, fs !! k = Some f ->
     quiet (registry (turns signer chain i r (take k fs))) f) ->
  loop signer chain i r (map Json fs) = Some (turns signer chain i r fs).
Proof.
  revert i r. induction fs as [|f fs IH]; intros i r Hq; [done|].
  cbn [map Coordinator.loop Coordinator.iteration Coordinator.turns].
  rewrite processFact_quiet by apply (Hq 0%nat f eq_refl).
  apply IH. intros k f' Hk. apply (Hq (S k) f' Hk).
Qed.

Lemma loop_returns signer chain i r files r' :
  loop signer chain i r files = Some r' ->
  ∃ fs, files = map Json fs ∧ r' = turns signer chain i r fs ∧
        forall k f, fs !! k = Some f ->
          quiet (registry (turns signer chain i r (take k fs))) f.
Proof.
  revert i r. induction files as [|file files IH]; intros i r H.
  - injection H as <-. exists []. by repeat split.
  - destruct file as [|f]; [discriminate H|].
    cbn [Coordinator.loop Coordinator.iteration] in H.
    destruct (processFact signer (chain i) (registry r) f) as [result|] eqn:E;
      [|discriminate H].
    apply processFact_returns in E as [Hq ->].
    change (noted r f (attempt signer (chain i) (registry r) f))
      with (turn signer (chain i) r f) in H.
    apply IH in H as (fs & -> & -> & Hrest).
    exists (f :: fs). split; [done|]. split; [done|].
    intros [|k] f' Hk.
    + injection Hk as <-. exact Hq.
    + apply (Hrest k f' Hk).
Qed.

Lemma main_returns signer chain st files st' rep :
  main signer chain st files = Some (st', rep) ->
  Registry.owner st = signer ∧
  ∃ fs, files = map Json fs ∧
    (forall k f, fs !! k = Some f ->
       quiet (registry (turns signer chain 0 (fresh_run st) (take k fs))) f) ∧
    st' = registry (turns signer chain 0 (fresh_run st) fs) ∧
    rep = {| registered := successCount (turns signer chain 0 (fresh_run st) fs);
             skipped := skipCount (turns signer chain 0 (fresh_run st) fs);
             processed := Z.of_nat (List.length fs);
             onChain := Registry.totalFacts
                          (registry (turns signer chain 0 (fresh_run st) fs));
             lines := log (turns signer chain 0 (fresh_run st) fs) |}.
Proof.
  unfold Coordinator.main.
  destruct (Z.eqb_spec (Registry.owner st) signer) as [Ho|]; [|done].
  destruct (loop signer chain 0 (fresh_run st) files) as [r|] eqn:E; [|done].
  intros [= <- <-]. split; [done|].
  apply loop_returns in E as (fs & -> & -> & Hq).
  exists fs. rewrite length_map.
  split; [done|]. split; [exact Hq|]. split; reflexivity.
Qed.

Lemma main_quiet signer chain st fs :
  Registry.owner st = signer ->
  (forall k f, fs !! k = Some f ->
     quiet (registry (turns signer chain 0 (fresh_run st) (take k fs))) f) ->
  main signer chain st (map Json fs) =
    Some (registry (turns signer chain 0 (fresh_run st) fs),
          {| registered := successCount (turns signer chain 0 (fresh_run st) fs);
             skipped := skipCount (turns signer chain 0 (fresh_run st) fs);
             processed := Z.of_nat (List.length fs);
             onChain := Registry.totalFacts
                          (registry (turns signer chain 0 (fresh_run st) fs));
             lines := log (turns signer chain 0 (fresh_run st) fs) |}).
Proof.
  intros Ho Hq. unfold Coordinator.main.
  rewrite (proj2 (Z.eqb_eq _ _) Ho), loop_quiet by done.
  by rewrite length_map.
Qed.

(** The state in which the [k]-th record is processed holds whatever the
    state at the start held. *)
Lemma turns_take_present signer chain i r fs k h :
  Registry.present (registry r) h ->
  Registry.present (registry (turns signer chain i r (take k fs))) h.
Proof. apply turns_keeps_present. Qed.

(** ** Re-running a batch *)

(** C7 (amended): a second run over the same batch, whatever transactions
    were made in between and whichever blocks it lands in, skips every
    record that the first run registered or skipped. When the first run
    had no failure, the second registers nothing, skips every record and
    leaves the registry as it found it. *)
Theorem rerun_skips_done_records
    signer chain1 chain2 st batch st1 rep1 between :
  main signer chain1 st batch = Some (st1, rep1) ->
  Registry.owner (Registry.run st1 between) = signer ->
  ∃ st2 rep2,
    main signer chain2 (Registry.run st1 between) batch = Some (st2, rep2) ∧
    (forall k line,
       lines rep1 !! k = Some line -> is_failed line.2 = false ->
       ∃ s, lines rep2 !! k = Some (line.1, Skipped s)) ∧
    (count is_failed (lines rep1) = 0 ->
     st2 = Registry.run st1 between ∧
     registered rep2 = 0 ∧
     skipped rep2 = Z.of_nat (List.length batch) ∧
     Forall (fun line => is_skipped line.2 = true) (lines rep2)).
Proof.
  intros Hrun1 Hown2.
  apply main_returns in Hrun1 as (Hown1 & fs & -> & Hq1 & -> & ->).
  cbn [lines]. rewrite length_map.
  set (r1 := turns signer chain1 0 (fresh_run st) fs) in *.
  set (st1' := Registry.run (registry r1) between) in *.
  (* what the first run leaves is still there when the second starts *)
  assert (Hkept : forall k h,
            Registry.present
              (registry (turns signer chain1 0 (fresh_run st) (take k fs))) h ->
            Registry.present st1' h).
  { intros k h Hp. apply RegistryFacts.run_keeps_present.
    unfold r1. rewrite <- (take_drop k fs) at 1. rewrite turns_app.
    by apply turns_keeps_present. }
  (* every record done in the first run is present when the second starts *)
  assert (Hdone : forall k f,
            fs !! k = Some f ->
            is_failed (attempt signer (chain1 k)
                         (registry (turns signer chain1 0 (fresh_run st)
                                          (take k fs))) f).2 = false ->
            Registry.present st1' (hashOf f)).
  { intros k f Hk Hnf. apply RegistryFacts.run_keeps_present.
    assert (Hlen : List.length (take k fs) = k).
    { apply length_take_le. apply lookup_lt_Some in Hk. lia. }
    unfold r1. rewrite <- (take_drop_middle fs k f Hk), turns_app.
    rewrite Hlen. cbn [Coordinator.turns Nat.add].
    apply turns_keeps_present.
    destruct (turn_spec signer (chain1 k)
                (turns signer chain1 0 (fresh_run st) (take k fs)) f)
      as (-> & _).
    by apply attempt_done_present. }
  (* nothing is thrown in the second run *)
  assert (Hq2 : forall k f, fs !! k = Some f ->
            quiet (registry (turns signer chain2 0 (fresh_run st1')
                                   (take k fs))) f).
  { intros k f Hk. apply (quiet_present _ _ _ (Hq1 k f Hk)).
    intros h Hp. apply turns_keeps_present. simpl. by apply (Hkept k). }
  rewrite main_quiet by done.
  eexists _, _. split; [reflexivity|]. cbn [lines registered skipped].
  split.
  - intros k [idk o] Hline Hnf. simpl in *.
    assert (Hlt : (k < List.length fs)%nat).
    { apply lookup_lt_Some in Hline. unfold r1 in Hline.
      rewrite turns_log_length in Hline. simpl in Hline. lia. }
    destruct (lookup_lt_is_Some_2 fs k Hlt) as [f Hf].
    pose proof (turns_lookup signer chain1 0 (fresh_run st) fs k f Hf)
      as H1.
    simpl in H1. fold r1 in H1. rewrite Hline in H1.
    injection H1 as -> ->.
    pose proof (turns_lookup signer chain2 0 (fresh_run st1') fs k f Hf)
      as H2.
    simpl in H2. rewrite H2, attempt_present.
    + eauto.
    + apply turns_keeps_present. simpl. eapply Hdone; eauto.
  - intros Hnone. apply count_zero in Hnone.
    assert (Hall : Forall (fun f => Registry.present
                             (registry (fresh_run st1')) (hashOf f))
                          fs).
    { apply Forall_lookup_2. intros k f Hf. simpl.
      eapply Hdone; [exact Hf|].
      pose proof (turns_lookup signer chain1 0 (fresh_run st) fs k f Hf)
        as H1.
      simpl in H1. fold r1 in H1.
      eapply Forall_lookup_1 in Hnone; [|exact H1]. exact Hnone. }
    rewrite (turns_all_present signer chain2 0 (fresh_run st1') fs Hall).
    simpl. repeat split.
    apply Forall_fmap, Forall_forall. done.
Qed.

(** ** A record the contract rejects *)

Lemma map_Json_inj fs fs' : map Json fs = map Json fs' -> fs = fs'.
Proof.
  revert fs'. induction fs as [|f fs IH]; intros [|f' fs'] H;
    try discriminate; [done|].
  injection H as -> H. f_equal. by apply IH.
Qed.





End ScriptFacts.

(** C7, as the claim states it, fails. Whatever the hash library and the
    date parser do, no two runs over the one record of version 0, from
    the empty registry, end with that record reported as skipped: it is
    not registered by the first run and so is submitted again. And with
    a working hash library, the first run over a batch of two records
    registers neither; the second run over the same batch skips neither,
    submits the first again (rejected again) and registers the second,
    whose issue date has meanwhile passed. *)
Lemma second_run_not_all_skipped :
  (¬ ∃ computeFactHash isoToUnix st1 rep1 st2 rep2,
       main computeFactHash isoToUnix Examples.who Examples.chain0
            Examples.genesis [Json Examples.fact_bad_version]
         = Some (st1, rep1) ∧
       main computeFactHash isoToUnix Examples.who Examples.chain1
            st1 [Json Examples.fact_bad_version]
         = Some (st2, rep2) ∧
       Forall (fun line => is_skipped line.2 = true) (lines rep2)) ∧
  registered (Examples.report_of Examples.mixed_first) = 0 ∧
  skipped (Examples.report_of Examples.mixed_first) = 0 ∧
  Examples.mixed_second ≠ None ∧
  registered (Examples.report_of Examples.mixed_second) = 1 ∧
  skipped (Examples.report_of Examples.mixed_second) = 0 ∧
  map (fun line => (line.1, is_skipped line.2))
      (lines (Examples.report_of Examples.mixed_second))
    = [("who-2025-0002", false); ("who-2025-0005", false)].
Proof.
  split; [|vm_compute; repeat split; (reflexivity || discriminate)].
  intros (cfh & iso & st1 & rep1 & st2 & rep2 & H1 & H2 & Hall).
  assert (Hempty : forall h, ¬ Registry.present Examples.genesis h).
  { intros h. unfold Registry.present, Registry.readFact. simpl.
    rewrite lookup_empty. simpl. auto. }
  apply main_returns in H1 as (_ & fs & Hfs & _ & -> & _).
  apply (map_Json_inj [Examples.fact_bad_version]) in Hfs as <-.
  cbn [Coordinator.turns] in H2.
  destruct (attempt_low_version cfh iso Examples.who (Examples.chain0 0)
              Examples.genesis Examples.fact_bad_version)
    as [why1 E1]; [done|apply Hempty|].
  unfold Coordinator.turn in H2. cbn [fresh_run registry] in H2.
  rewrite E1 in H2. cbn [Coordinator.noted registry] in H2.
  apply main_returns in H2 as (_ & fs & Hfs & _ & _ & ->).
  apply (map_Json_inj [Examples.fact_bad_version]) in Hfs as <-.
  cbn [Coordinator.turns lines] in Hall.
  destruct (attempt_low_version cfh iso Examples.who (Examples.chain1 0)
              Examples.genesis Examples.fact_bad_version)
    as [why2 E2]; [done|apply Hempty|].
  unfold Coordinator.turn in Hall. cbn [fresh_run registry] in Hall.
  rewrite E2 in Hall. cbn [Coordinator.noted log fresh_run app] in Hall.
  apply Forall_cons in Hall as [Hskip _]. discriminate.
Qed.

Lemma rerun_skips_done_records_witness :
  ∃ rep2,
    main Examples.computeFactHash Examples.isoToUnix Examples.who
         Examples.chain1
         (Registry.run (Examples.state_after Examples.clean_first)
                       Examples.between_runs)
         Examples.batch_clean
    = Some (Registry.run (Examples.state_after Examples.clean_first)
                         Examples.between_runs, rep2) ∧
    registered rep2 = 0 ∧ skipped rep2 = 2.
Proof.
  destruct (rerun_skips_done_records
              Examples.computeFactHash Examples.isoToUnix Examples.who
              Examples.chain0 Examples.chain1 Examples.genesis
              Examples.batch_clean
              (Examples.state_after Examples.clean_first)
              (Examples.report_of Examples.clean_first)
              Examples.between_runs)
    as (st2 & rep2 & Hmain & _ & Hclean).
  - vm_compute. reflexivity.
  - vm_compute. reflexivity.
  - destruct Hclean as (-> & Hr & Hs & _).
    + vm_compute. reflexivity.
    + exists rep2. split; [exact Hmain|]. split; [exact Hr|exact Hs].
Defined.

(** C9: the code at the failing input. A file without a claim text makes
    line 137 throw outside the [try]: the run over that file and a valid
    one ends without a report, although the valid file alone is
    registered. The same happens when the hash computation throws (line
    115) and when a file cannot be read (line 108). A record that the
    contract rejects, inside the [try], gets its failure line and the
    valid file after it is registered. *)
Lemma error_outside_try_ends_run :
  Examples.run_script Examples.chain0 Examples.genesis Examples.batch_no_claim
    = None ∧
  registered (Examples.report_of
                (Examples.run_script Examples.chain0 Examples.genesis
                                     [Json Examples.fact_good])) = 1 ∧
  main Examples.computeFactHash_throws Examples.isoToUnix Examples.who
       Examples.chain0 Examples.genesis [Json Examples.fact_good] = None ∧
  Examples.run_script Examples.chain0 Examples.genesis
                      [Unreadable; Json Examples.fact_good] = None ∧
  map (fun line => (line.1, is_failed line.2, is_registered line.2))
      (lines (Examples.report_of
                (Examples.run_script Examples.chain0 Examples.genesis
                                     Examples.batch_rejected)))
    = [("who-2025-0002", true, false); ("who-2025-0001", false, true)].
Proof. vm_compute. repeat split; reflexivity. Qed.


End CoordinatorFacts.

(* ===================================================================== *)
(** * Further properties of the registration script *)
(* ===================================================================== *)

Module CoordinatorMore.
Import Coordinator.

(** ** The enum mappings *)

(** X8: the script's verdict and severity mappings are the inverses of
    the contract's [verdictToString] and [severityToString]: a string is
    mapped to an enum member exactly when it is that member's name,
    letter for letter; every other string (other letter case included)
    is mapped to no member. *)
Theorem enum_names_round_trip :
  (forall s v, verdictToEnum s = Some v <-> s = Registry.verdictToString v) ∧
  (forall s v, severityToEnum s = Some v <-> s = Registry.severityToString v).
Proof.
  split; intros s v; split.
  - intros H. symmetry. by apply CoordinatorFacts.enum_name_of_verdict.
  - intros ->. by destruct v.
  - intros H. symmetry. by apply CoordinatorFacts.enum_name_of_severity.
  - intros ->. by destruct v.
Qed.

Section ScriptMore.

Variable computeFactHash : FactJson -> option Z.
Variable isoToUnix : string -> option Z.

Local Abbreviation submit := (Coordinator.submit isoToUnix).
Local Abbreviation hashOf := (Coordinator.hashOf computeFactHash).
Local Abbreviation quiet := (Coordinator.quiet computeFactHash).
Local Abbreviation attempt := (Coordinator.attempt computeFactHash isoToUnix).
Local Abbreviation turn := (Coordinator.turn computeFactHash isoToUnix).
Local Abbreviation turns := (Coordinator.turns computeFactHash isoToUnix).
Local Abbreviation processFact :=
  (Coordinator.processFact computeFactHash isoToUnix).
Local Abbreviation main := (Coordinator.main computeFactHash isoToUnix).

(** ** What one record can do *)

(** X9: a record that the script reports as registered is on chain as
    the record describes it: both lookups return an ACTIVE entry under
    the record's hash and identifier, whose verdict and severity are the
    members named by the record's strings, whose dates are the record's
    dates in Unix time, whose version is the record's, and whose
    registrant is the signer, who is then the owner. *)
Theorem registered_record_on_chain signer blk st f st' ev :
  processFact signer blk st f = Some (st', Registered ev) ->
  ∃ h v s i l,
    computeFactHash f = Some h ∧
    Registry.verdictToString v = verdict f ∧
    Registry.severityToString s = severity f ∧
    isoToUnix (issued_at f) = Some i ∧
    isoToUnix (last_reviewed_at f) = Some l ∧
    signer = Registry.owner st ∧
    Registry.getFactByHash st' h =
      Registry.Success
        {| Registry.factHash := h;
           Registry.factId := id f;
           Registry.verdict := v; Registry.severity := s;
           Registry.issuedAt := i; Registry.lastReviewedAt := l;
           Registry.version := version f;
           Registry.status := Registry.ACTIVE;
           Registry.addedBy := signer;
           Registry.addedAtBlock := Registry.uint64 (number blk) |} ∧
    Registry.getFactById st' (id f) = Registry.getFactByHash st' h ∧
    ev = Registry.FactAdded h (id f) v s signer i.
Proof.
  intros Hp.
  apply CoordinatorFacts.processFact_returns in Hp as [Hq Hp].
  apply CoordinatorFacts.quiet_hash in Hq. symmetry in Hp.
  destruct (CoordinatorFacts.attempt_cases computeFactHash isoToUnix
              signer blk st f)
    as [[_ E]|[[_ [why E]]|[_ (v & s & i & l & st2 & ev2 & Hv & Hs & Hi & Hl
                              & _ & Eadd & E)]]];
    rewrite E in Hp; try discriminate.
  injection Hp as <- <-.
  pose proof (RegistryFacts.addFact_inv _ _ _ _ _ _ _ _ _ _ _ Eadd) as Hok.
  rewrite (RegistryFacts.addFact_success _ _ _ _ _ _ _ _ _ Hok) in Eadd.
  destruct Hok as (Ho & _ & Hh & _). simpl in Ho.
  injection Eadd as <- <-.
  exists (hashOf f), v, s, i, l.
  assert (Hu : forall x y, as_uint 64 x = Some y -> x = Some y).
  { intros [x|] y; simpl; [|done]. by destruct (_ && _); intros [= ->]. }
  apply CoordinatorFacts.enum_name_of_verdict in Hv.
  apply CoordinatorFacts.enum_name_of_severity in Hs.
  split; [exact Hq|].
  repeat split; try done; try by apply Hu.
  - apply RegistryFacts.getFactByHash_Success.
    rewrite RegistryFacts.readFact_insert_eq. done.
  - unfold Registry.getFactById, Registry.getFactByHash, Registry.factExists,
      Registry.readHash. simpl. rewrite lookup_insert_eq. simpl.
    rewrite RegistryFacts.readFact_insert_eq. simpl.
    by rewrite (proj2 (Z.eqb_neq _ _) Hh).
Qed.

Lemma attempt_taken_id signer blk st f :
  Registry.readHash st (id f) ≠ 0 ->
  is_registered (attempt signer blk st f).2 = false ∧
  (attempt signer blk st f).1 = st.
Proof.
  intros Hid.
  destruct (CoordinatorFacts.attempt_cases computeFactHash isoToUnix
              signer blk st f)
    as [[_ E]|[[_ [why E]]|[_ (v & s & i & l & st2 & ev2 & _ & _ & _ & _
                              & _ & Eadd & E)]]];
    rewrite E; try done.
  apply RegistryFacts.addFact_inv in Eadd.
  destruct Eadd as (_ & _ & _ & _ & _ & _ & _ & Hu & _). done.
Qed.

(** X10: the script never registers under an identifier that is already
    in use: such a record is skipped (its own hash is registered) or its
    submission fails, and the registry stays as it was. *)
Theorem taken_id_never_registered signer blk st f st' o :
  Registry.readHash st (id f) ≠ 0 ->
  processFact signer blk st f = Some (st', o) ->
  is_registered o = false ∧ st' = st.
Proof.
  intros Hid Hp.
  apply CoordinatorFacts.processFact_returns in Hp as [_ Hp].
  destruct (attempt_taken_id signer blk st f Hid) as [Hr Hs].
  rewrite <- Hp in Hr, Hs. done.
Qed.

(** ** What a run leaves alone *)

Lemma attempt_keeps_facts signer blk st f h :
  Registry.present st h ->
  Registry.readFact (attempt signer blk st f).1 h
  = Registry.readFact st h.
Proof.
  intros Hp.
  destruct (CoordinatorFacts.attempt_cases computeFactHash isoToUnix
              signer blk st f)
    as [[_ E]|[[_ [why E]]|[Hnew (v & s & i & l & st2 & ev2 & _ & _ & _ & _
                                 & _ & Eadd & E)]]];
    rewrite E; try done. simpl.
  pose proof (RegistryFacts.addFact_inv _ _ _ _ _ _ _ _ _ _ _ Eadd) as Hok.
  rewrite (RegistryFacts.addFact_success _ _ _ _ _ _ _ _ _ Hok) in Eadd.
  injection Eadd as <- _.
  apply RegistryFacts.readFact_insert_ne. intros Heq.
  apply Hnew. by rewrite Heq.
Qed.

Lemma attempt_keeps_ids signer blk st f id0 :
  Registry.readHash st id0 ≠ 0 ->
  Registry.readHash (attempt signer blk st f).1 id0
  = Registry.readHash st id0.
Proof.
  intros Hid.
  destruct (CoordinatorFacts.attempt_cases computeFactHash isoToUnix
              signer blk st f)
    as [[_ E]|[[_ [why E]]|[Hnew (v & s & i & l & st2 & ev2 & _ & _ & _ & _
                                 & _ & Eadd & E)]]];
    rewrite E; try done. simpl.
  pose proof (RegistryFacts.addFact_inv _ _ _ _ _ _ _ _ _ _ _ Eadd) as Hok.
  rewrite (RegistryFacts.addFact_success _ _ _ _ _ _ _ _ _ Hok) in Eadd.
  destruct Hok as (_ & _ & _ & _ & _ & _ & _ & Hu & _).
  injection Eadd as <- _. unfold Registry.readHash. simpl.
  rewrite lookup_insert_ne; [done|]. intros Heq. by subst id0.
Qed.

(** X11: a run of the script changes nothing that was registered before
    it: every record present at the start reads the same at the end,
    status included, every identifier in use leads to the same hash, and
    the owner is the same. *)
Theorem script_leaves_existing_facts signer chain st batch st' rep :
  main signer chain st batch = Some (st', rep) ->
  Registry.owner st' = Registry.owner st ∧
  (forall h, Registry.present st h ->
             Registry.readFact st' h = Registry.readFact st h) ∧
  (forall id0, Registry.readHash st id0 ≠ 0 ->
               Registry.readHash st' id0 = Registry.readHash st id0).
Proof.
  intros Hmain.
  apply CoordinatorFacts.main_returns in Hmain
    as (_ & fs & _ & _ & -> & _).
  assert (Hgen : forall i r,
    Registry.owner (registry (turns signer chain i r fs))
      = Registry.owner (registry r) ∧
    (forall h, Registry.present (registry r) h ->
       Registry.readFact (registry (turns signer chain i r fs)) h
       = Registry.readFact (registry r) h) ∧
    (forall id0, Registry.readHash (registry r) id0 ≠ 0 ->
       Registry.readHash (registry (turns signer chain i r fs)) id0
       = Registry.readHash (registry r) id0)).
  { induction fs as [|f fs IH]; intros i r; [done|].
    simpl. destruct (IH (S i) (turn signer (chain i) r f))
      as (Ho & Hf & Hi).
    destruct (CoordinatorFacts.turn_spec computeFactHash isoToUnix
                signer (chain i) r f) as (Hr & _).
    rewrite Hr in *. repeat split.
    - rewrite Ho. apply CoordinatorFacts.attempt_keeps_owner.
    - intros h Hp. rewrite Hf.
      + by apply attempt_keeps_facts.
      + by apply CoordinatorFacts.attempt_keeps_present.
    - intros id0 Hid. rewrite Hi.
      + by apply attempt_keeps_ids.
      + by rewrite attempt_keeps_ids. }
  apply (Hgen 0%nat (fresh_run st)).
Qed.

(** ** The summary *)

Lemma attempt_total signer blk st f :
  let o := (attempt signer blk st f).2 in
  let st' := (attempt signer blk st f).1 in
  Registry.totalFacts st'
    = Registry.totalFacts st + (if is_registered o then 1 else 0) ∧
  Registry.allFactHashes st'
    = (Registry.allFactHashes st ++
       if is_registered o then [hashOf f] else [])%list.
Proof.
  destruct (CoordinatorFacts.attempt_cases computeFactHash isoToUnix
              signer blk st f)
    as [[_ E]|[[_ [why E]]|[Hnew (v & s & i & l & st2 & ev2 & _ & _ & _ & _
                                 & _ & Eadd & E)]]];
    rewrite E; simpl; rewrite ?Z.add_0_r, ?app_nil_r; try done.
  pose proof (RegistryFacts.addFact_inv _ _ _ _ _ _ _ _ _ _ _ Eadd) as Hok.
  rewrite (RegistryFacts.addFact_success _ _ _ _ _ _ _ _ _ Hok) in Eadd.
  by injection Eadd as <- _.
Qed.

(** The registered records of a batch of readable files. *)
Lemma registered_records_Json fs (ls : list (string * Outcome)) :
  registered_records (map Json fs) ls
  = map fst (List.filter (fun p => is_registered p.2.2) (combine fs ls)).
Proof.
  unfold registered_records, records.
  revert ls. induction fs as [|f fs IH]; intros [|l ls]; try done.
  cbn [map combine List.filter fst snd].
  destruct (is_registered l.2); cbn [map omap fst]; [|apply IH].
  simpl. f_equal. apply IH.
Qed.

Lemma fresh_turns_accounting signer chain i st fs :
  let d := turns signer chain i (fresh_run st) fs in
  Registry.totalFacts (registry d) = Registry.totalFacts st + successCount d ∧
  Registry.allFactHashes (registry d)
    = (Registry.allFactHashes st ++
       map hashOf (registered_records (map Json fs) (log d)))%list ∧
  0 <= successCount d ∧ 0 <= skipCount d ∧
  successCount d + skipCount d <= Z.of_nat (List.length fs).
Proof.
  revert i st. induction fs as [|f fs IH]; intros i st.
  - simpl. rewrite Z.add_0_r, app_nil_r. repeat split; lia.
  - cbn [Coordinator.turns].
    rewrite (CoordinatorFacts.turns_delta computeFactHash isoToUnix).
    destruct (CoordinatorFacts.turn_spec computeFactHash isoToUnix
                signer (chain i) (fresh_run st) f) as (Hr & Hl & Hs & Hk).
    cbn [fresh_run registry successCount skipCount log app] in Hr, Hl, Hs, Hk.
    cbn zeta. cbn [registry successCount skipCount log].
    rewrite Hr, Hl, Hs, Hk. clear Hr Hl Hs Hk.
    destruct (attempt_total signer (chain i) st f) as [Ht1 Ha1].
    cbn zeta in Ht1, Ha1.
    destruct (attempt signer (chain i) st f) as [st1 o].
    cbn [fst snd] in *.
    destruct (IH (S i) st1) as (Ht & Ha & H0 & H1 & H2).
    cbn zeta in Ht, Ha, H0, H1, H2.
    rewrite Ht, Ha, Ht1, Ha1. clear Ht Ha Ht1 Ha1 IH.
    rewrite !registered_records_Json.
    cbn [app combine List.filter fst snd List.length].
    destruct o as [status|ev|why];
      cbn [is_registered is_skipped map app fst];
      rewrite <- ?app_assoc, ?app_nil_r;
      repeat split; try done; lia.
Qed.

(** In a run on which nothing is thrown, the hash of every record was
    computed. *)
Lemma quiet_hashes signer chain i r fs ls :
  (forall k f, fs !! k = Some f ->
     quiet (registry (turns signer chain i r (take k fs))) f) ->
  map computeFactHash (registered_records (map Json fs) ls)
  = map Some (map hashOf (registered_records (map Json fs) ls)).
Proof.
  intros Hq. rewrite registered_records_Json.
  assert (Hall : Forall (fun f => computeFactHash f = Some (hashOf f)) fs).
  { apply Forall_lookup_2. intros k f Hk.
    eapply CoordinatorFacts.quiet_hash, Hq, Hk. }
  clear Hq. revert ls. induction Hall as [|f fs Hf Hall IH]; intros [|l ls];
    try done.
  cbn [combine List.filter fst snd].
  destruct (is_registered l.2); cbn [map fst]; [|apply IH].
  rewrite Hf. f_equal. apply IH.
Qed.

(** X12: the summary of a run adds up: the on-chain total it prints is
    the total before the run plus the number it reports as registered,
    the contract's enumeration has grown by the hashes of exactly the
    registered records, in batch order, and the registered and skipped
    counts are non-negative and together at most the number of files. *)
Theorem script_accounting signer chain st batch st' rep :
  main signer chain st batch = Some (st', rep) ->
  onChain rep = Registry.totalFacts st + registered rep ∧
  map Some (Registry.getAllFactHashes st')
    = (map Some (Registry.getAllFactHashes st) ++
       map computeFactHash (registered_records batch (lines rep)))%list ∧
  0 <= registered rep ∧ 0 <= skipped rep ∧
  registered rep + skipped rep <= processed rep.
Proof.
  intros Hmain.
  apply CoordinatorFacts.main_returns in Hmain
    as (_ & fs & -> & Hq & -> & ->).
  cbn [onChain registered skipped processed lines].
  destruct (fresh_turns_accounting signer chain 0 st fs)
    as (Ht & Ha & H0 & H1 & H2).
  cbn zeta in Ht, Ha, H0, H1, H2.
  split; [exact Ht|]. split; [|done].
  rewrite (quiet_hashes signer chain 0 (fresh_run st) fs _ Hq).
  unfold Registry.getAllFactHashes. by rewrite Ha, map_app.
Qed.

End ScriptMore.

(** ** At concrete records *)

Lemma registered_record_on_chain_witness :
  ∃ st' h,
    Examples.computeFactHash Examples.fact_good = Some h ∧
    Registry.getFactById st' "who-2025-0001"
    = Registry.getFactByHash st' h.
Proof.
  destruct (registered_record_on_chain
              Examples.computeFactHash Examples.isoToUnix Examples.who
              (Examples.chain0 0) Examples.genesis Examples.fact_good
              (Coordinator.attempt Examples.computeFactHash
                 Examples.isoToUnix Examples.who (Examples.chain0 0)
                 Examples.genesis Examples.fact_good).1
              (Registry.FactAdded
                 (Coordinator.hashOf Examples.computeFactHash
                                     Examples.fact_good)
                 "who-2025-0001" Registry.FALSE Registry.HIGH Examples.who
                 Examples.T0))
    as (h & v & s & i & l & Hh & _ & _ & _ & _ & _ & _ & Hi & _).
  - vm_compute. reflexivity.
  - eexists _, h. split; [exact Hh|exact Hi].
Defined.

Lemma taken_id_never_registered_witness :
  ∃ o,
    Coordinator.processFact Examples.computeFactHash Examples.isoToUnix
      Examples.who (Examples.chain1 0)
      (Examples.state_after Examples.clean_first) Examples.fact_good_v2
    = Some (Examples.state_after Examples.clean_first, o) ∧
    is_registered o = false.
Proof.
  destruct (taken_id_never_registered
              Examples.computeFactHash Examples.isoToUnix Examples.who
              (Examples.chain1 0) (Examples.state_after Examples.clean_first)
              Examples.fact_good_v2
              (Examples.state_after Examples.clean_first)
              (Failed (Reverted "HealthFactRegistry: fact ID already exists")))
    as [Hr _].
  - vm_compute. discriminate.
  - vm_compute. reflexivity.
  - eexists. split; [vm_compute; reflexivity|exact Hr].
Defined.

Lemma script_leaves_existing_facts_witness :
  Registry.readFact
    (Examples.state_after
       (Examples.run_script Examples.chain1 Examples.withdrawn
                            Examples.batch_clean))
    Examples.hashA
  = Registry.readFact Examples.withdrawn Examples.hashA.
Proof.
  destruct (script_leaves_existing_facts
              Examples.computeFactHash Examples.isoToUnix Examples.who
              Examples.chain1 Examples.withdrawn Examples.batch_clean
              (Examples.state_after
                 (Examples.run_script Examples.chain1 Examples.withdrawn
                                      Examples.batch_clean))
              (Examples.report_of
                 (Examples.run_script Examples.chain1 Examples.withdrawn
                                      Examples.batch_clean)))
    as (_ & Hfacts & _).
  - vm_compute. reflexivity.
  - apply Hfacts. vm_compute. discriminate.
Defined.

Lemma script_accounting_witness :
  onChain (Examples.report_of Examples.mixed_second)
  = Registry.totalFacts (Examples.state_after Examples.mixed_first)
    + registered (Examples.report_of Examples.mixed_second).
Proof.
  destruct (script_accounting
              Examples.computeFactHash Examples.isoToUnix Examples.who
              Examples.chain1 (Examples.state_after Examples.mixed_first)
              Examples.batch_mixed
              (Examples.state_after Examples.mixed_second)
              (Examples.report_of Examples.mixed_second)) as (Htotal & _).
  - vm_compute. reflexivity.
  - exact Htotal.
Defined.

End CoordinatorMore.

(* ===================================================================== *)
(** * Properties of the canonicaliser and hasher *)
(* ===================================================================== *)

Module CanonicalFacts.
Import Canonical.

Example canonical_text :
  canonical Examples.factData =
  Examples.dq "{'claim':'X cures Y','evidence':[{'accessed_at':'2023-11-14T22:13:20.000Z','title':'WHO on X','url':'https://who.int/x'}],'id':'org-fact-1700000000000','issued_at':'2023-11-14T22:13:20.000Z','last_reviewed_at':'2023-11-14T22:13:20.000Z','severity':'high','status':'active','summary':'No trial supports it.','topics':['cures'],'verdict':'false','version':1}".
Proof. vm_compute. reflexivity. Qed.

Example sha256_abc :
  sha256 (TextEncoder_encode "abc")
  = "0xba7816bf8f01cfea414140de5dae2223b00361a396177a9cb410ff61f20015ad".
Proof. vm_compute. reflexivity. Qed.

(** Numbers are printed with the shortest digits that read back as the
    same double: in full up to 2^53, rounded above, and in exponent form
    from 10^21. *)
Example number_digits :
  number_to_json (Finite 1700000000123) = "1700000000123" ∧
  number_to_json (Finite (-12300)) = "-12300" ∧
  number_to_json (Finite 9007199254740993) = "9007199254740992" ∧
  number_to_json (Finite (2 ^ 60)) = "1152921504606847000" ∧
  number_to_json (Finite (10 ^ 21 - 1)) = "1e+21" ∧
  number_to_json (Finite (123 * 10 ^ 21)) = "1.23e+23" ∧
  number_to_json (Finite (2 ^ 1024)) = "null".
Proof. vm_compute. repeat split; reflexivity. Qed.

(** ** Induction over values *)

Lemma value_induction (P : value -> Prop) :
  P Undefined -> P Null -> (forall b, P (Boolean b)) ->
  (forall n, P (Number n)) -> (forall s, P (Str s)) ->
  (forall items, Forall P items -> P (Array items)) ->
  (forall props, Forall (fun kv => P kv.2) props -> P (Object props)) ->
  forall v, P v.
Proof.
  intros HU HN HB HNum HS HA HO. fix IH 1.
  intros [| |b|n|s|items|props].
  - exact HU.
  - exact HN.
  - exact (HB b).
  - exact (HNum n).
  - exact (HS s).
  - apply HA. induction items as [|x items IHitems]; constructor.
    + apply IH.
    + apply IHitems.
  - apply HO. induction props as [|[k x] props IHprops]; constructor.
    + apply IH.
    + apply IHprops.
Qed.

(** ** The equations of [canonicalizeJSON], in the shape of the source *)

Lemma assoc_get key props :
  assoc key (map (fun kv => match kv with
                            | (k, v) => (k, canonicalizeJSON v)
                            end) props)
  = canonicalizeJSON (get props key).
Proof.
  induction props as [|[k v] props IH]; simpl; [done|].
  destruct (String.eqb k key); [done|apply IH].
Qed.

Lemma canonicalizeJSON_Array items :
  canonicalizeJSON (Array items)
  = Some ("[" +:+ join "," (map canonicalizeJSON items) +:+ "]").
Proof. reflexivity. Qed.

Lemma canonicalizeJSON_Object props :
  canonicalizeJSON (Object props)
  = Some ("{" +:+
          join "," (map (fun key =>
                           Some (pair_text key
                                   (canonicalizeJSON (get props key))))
                        (sort (keys props))) +:+
          "}").
Proof.
  cbn [canonicalizeJSON].
  erewrite map_ext; [reflexivity|].
  intros key. cbv beta. by rewrite assoc_get.
Qed.

(** ** Totality *)



(** Text concatenation. *)
Lemma append_nil_l (a : string) : EmptyString +:+ a = a.
Proof. reflexivity. Qed.

Lemma append_cons c (a b : string) : String c a +:+ b = String c (a +:+ b).
Proof. reflexivity. Qed.

Lemma append_assoc (a b c : string) : (a +:+ b) +:+ c = a +:+ (b +:+ c).
Proof.
  induction a as [|x a IH]; [done|]. by rewrite !append_cons, IH.
Qed.

Lemma append_nil_r (a : string) : a +:+ EmptyString = a.
Proof.
  induction a as [|x a IH]; [done|]. by rewrite append_cons, IH.
Qed.







(** ** Property order *)

Lemma wf_Array items : wf (Array items) <-> Forall wf items.
Proof.
  simpl. induction items as [|x items IH]; simpl.
  - split; [constructor|done].
  - rewrite Forall_cons, IH. done.
Qed.

Lemma wf_Object props :
  wf (Object props) <->
  NoDup (keys props) ∧ Forall (fun kv => wf kv.2) props.
Proof.
  simpl. unfold keys. apply and_iff_compat_l.
  induction props as [|x props IH]; simpl.
  - split; [constructor|done].
  - rewrite Forall_cons, IH. done.
Qed.

Lemma get_elem props key v :
  NoDup (keys props) -> (key, v) ∈ props -> get props key = v.
Proof.
  unfold keys. induction props as [|[k x] props IH]; intros Hnd Hin.
  - by apply elem_of_nil in Hin.
  - simpl in *. apply NoDup_cons in Hnd as [Hk Hnd].
    apply elem_of_cons in Hin as [[= <- <-]|Hin].
    + by rewrite String.eqb_refl.
    + destruct (String.eqb_spec k key) as [->|_]; [|by apply IH].
      destruct Hk. apply list_elem_of_fmap. by exists (key, v).
Qed.

Lemma get_absent props key : key ∉ keys props -> get props key = Undefined.
Proof.
  unfold keys. induction props as [|[k x] props IH]; intros Hk; [done|].
  simpl in *. apply not_elem_of_cons in Hk as [Hne Hk].
  destruct (String.eqb_spec k key) as [->|_]; [done|by apply IH].
Qed.

Lemma get_wf props key : wf (Object props) -> wf (get props key).
Proof.
  intros [_ Hall]%wf_Object.
  induction props as [|[k x] props IH]; simpl; [done|].
  apply Forall_cons in Hall as [Hx Hall].
  destruct (String.eqb k key); [done|by apply IH].
Qed.

Lemma same_names ps qs :
  Forall2 (fun (p q : string * value) => p.1 = q.1 ∧ reordered p.2 q.2)
          ps qs ->
  keys ps = keys qs.
Proof.
  unfold keys. induction 1 as [|p q ps qs [Hk _] _ IH]; simpl; [done|].
  by rewrite Hk, IH.
Qed.

(** Sorting forgets the order the names were listed in. *)
Lemma sort_Permutation (l1 l2 : list string) :
  l1 ≡ₚ l2 -> sort l1 = sort l2.
Proof.
  intros Hp. unfold sort. apply (Sorted_unique String.le).
  - apply Sorted_merge_sort. apply _.
  - apply Sorted_merge_sort. apply _.
  - by rewrite !merge_sort_Permutation.
Qed.

(** Reading a property of two objects that differ in order only. *)
Lemma get_reordered ps qs qs' key :
  NoDup (keys ps) ->
  Forall2 (fun (p q : string * value) => p.1 = q.1 ∧ reordered p.2 q.2)
          ps qs' ->
  qs' ≡ₚ qs ->
  (get ps key = Undefined ∧ get qs key = Undefined) ∨
  ((key, get ps key) ∈ ps ∧ reordered (get ps key) (get qs key)).
Proof.
  intros Hnd Hall Hperm.
  assert (Hkeys : keys ps ≡ₚ keys qs).
  { rewrite (same_names _ _ Hall). unfold keys. by rewrite Hperm. }
  destruct (decide (key ∈ keys ps)) as [Hin|Hout].
  - right. unfold keys in Hin.
    apply list_elem_of_fmap in Hin as ([k v] & -> & Hin). simpl.
    rewrite (get_elem ps k v Hnd Hin). split; [done|].
    apply list_elem_of_lookup in Hin as [i Hi].
    destruct (Forall2_lookup_l _ _ _ _ _ Hall Hi) as ([k' v'] & Hi' & Hk & Hr).
    simpl in Hk, Hr. subst k'.
    assert (Hq : (k, v') ∈ qs).
    { rewrite <- Hperm. eapply list_elem_of_lookup_2, Hi'. }
    rewrite (get_elem qs k v'); [done| |done].
    by rewrite <- Hkeys.
  - left. split; [by apply get_absent|].
    apply get_absent. by rewrite <- Hkeys.
Qed.

Lemma reordered_canonicalizeJSON a :
  wf a -> forall b, reordered a b -> canonicalizeJSON a = canonicalizeJSON b.
Proof.
  induction a as [| |b0|n|s|items IH|props IH] using value_induction;
    intros Hwf b Hr; inversion Hr as [| | | | |xs ys Hall|ps qs qs' Hall Hperm];
    subst; try reflexivity.
  - (* arrays: element by element *)
    rewrite !canonicalizeJSON_Array.
    assert (Hmap : map canonicalizeJSON items = map canonicalizeJSON ys);
      [|by rewrite Hmap].
    apply wf_Array in Hwf. clear Hr.
    induction Hall as [|x y xs ys Hxy _ IHall]; [done|].
    apply Forall_cons in IH as [IHx IH].
    apply Forall_cons in Hwf as [Hx Hwf].
    simpl. f_equal; [by apply IHx|by apply IHall].
  - (* objects: same sorted names, same text per name *)
    rewrite !canonicalizeJSON_Object. apply wf_Object in Hwf as [Hnd Hwf].
    assert (Hsort : sort (keys props) = sort (keys qs)).
    { apply sort_Permutation. rewrite (same_names _ _ Hall).
      unfold keys. by rewrite Hperm. }
    rewrite <- Hsort.
    erewrite map_ext; [reflexivity|]. intros key. cbv beta.
    do 2 f_equal.
    destruct (get_reordered props qs qs' key Hnd Hall Hperm)
      as [[-> ->]|[Hin Hre]]; [done|].
    rewrite Forall_forall in IH. rewrite Forall_forall in Hwf.
    apply (IH _ Hin); [|done]. apply (Hwf _ Hin).
Qed.

Lemma reordered_refl v : reordered v v.
Proof.
  induction v as [| |b0|n|s|items IH|props IH] using value_induction;
    try constructor.
  - induction IH; by constructor.
  - apply reordered_Object with (qs' := props); [|done].
    induction IH; by constructor.
Qed.

Lemma reordered_falsy a b : reordered a b -> falsy a = falsy b.
Proof. by destruct 1. Qed.

Lemma reordered_or_else a b c :
  reordered a b -> reordered (or_else a c) (or_else b c).
Proof.
  intros Hr. unfold or_else. rewrite <- (reordered_falsy a b Hr).
  destruct (falsy a); [apply reordered_refl|done].
Qed.

Lemma reordered_get d1 d2 key :
  wf (Object d1) -> reordered (Object d1) (Object d2) ->
  reordered (get d1 key) (get d2 key).
Proof.
  intros [Hnd _]%wf_Object Hr.
  inversion Hr as [| | | | | |ps qs qs' Hall Hperm]; subst.
  destruct (get_reordered d1 d2 qs' key Hnd Hall Hperm)
    as [[-> ->]|[_ Hre]]; [constructor|done].
Qed.

Lemma wf_or_else a c : wf a -> wf c -> wf (or_else a c).
Proof. intros. unfold or_else. by destruct (falsy a). Qed.

Lemma wf_factObj d : wf (Object d) -> wf (factObj d).
Proof.
  intros Hwf. unfold factObj. apply wf_Object. split.
  - apply (bool_decide_unpack _). vm_compute. exact I.
  - repeat (apply Forall_cons; split); simpl;
      try apply wf_or_else; try apply get_wf; try done.
Qed.

Lemma reordered_factObj d1 d2 :
  wf (Object d1) -> reordered (Object d1) (Object d2) ->
  reordered (factObj d1) (factObj d2).
Proof.
  intros Hwf Hr. unfold factObj.
  eapply reordered_Object; [|reflexivity].
  repeat (apply List.Forall2_cons; [split; [reflexivity|simpl]|]);
    try apply List.Forall2_nil; try apply reordered_or_else;
    try (by apply reordered_get); constructor.
Qed.

(** C4: two values that differ in the order of object properties only, at
    any depth, have the same canonical text, character for character, and
    so the same hash; in particular [hashFactJSON] gives the same hash for
    two such records. *)
Theorem key_order_irrelevant :
  (forall r1 r2,
     wf r1 -> reordered r1 r2 ->
     canonicalizeJSON r1 = canonicalizeJSON r2 ∧
     sha256 (TextEncoder_encode (template (canonicalizeJSON r1)))
     = sha256 (TextEncoder_encode (template (canonicalizeJSON r2)))) ∧
  (forall d1 d2,
     wf (Object d1) -> reordered (Object d1) (Object d2) ->
     canonical d1 = canonical d2 ∧ hashFactJSON d1 = hashFactJSON d2).
Proof.
  split.
  - intros r1 r2 Hwf Hr.
    rewrite (reordered_canonicalizeJSON r1 Hwf r2 Hr). done.
  - intros d1 d2 Hwf Hr.
    assert (Hc : canonical d1 = canonical d2).
    { unfold canonical. f_equal.
      apply reordered_canonicalizeJSON;
        [by apply wf_factObj|by apply reordered_factObj]. }
    unfold hashFactJSON. by rewrite Hc.
Qed.

Example order_of_form_fields :
  hashFactJSON Examples.factData = hashFactJSON Examples.factData_reordered.
Proof. vm_compute. reflexivity. Qed.

Lemma key_order_irrelevant_witness :
  canonicalizeJSON Examples.nested = canonicalizeJSON Examples.nested_swapped ∧
  hashFactJSON Examples.two_fields = hashFactJSON Examples.two_fields_swapped.
Proof.
  destruct key_order_irrelevant as [Hvalue Hrecord]. split.
  - apply (Hvalue Examples.nested Examples.nested_swapped).
    + simpl. repeat split;
        apply (bool_decide_unpack _); vm_compute; exact I.
    + unfold Examples.nested, Examples.nested_swapped.
      eapply reordered_Object;
        [|apply (perm_swap (A := string * value))].
      repeat constructor; simpl.
      eapply reordered_Object;
        [|apply (perm_swap (A := string * value))].
      repeat constructor.
  - apply (Hrecord Examples.two_fields Examples.two_fields_swapped).
    + simpl. repeat split;
        apply (bool_decide_unpack _); vm_compute; exact I.
    + unfold Examples.two_fields, Examples.two_fields_swapped.
      eapply reordered_Object;
        [|apply (perm_swap (A := string * value))].
      repeat constructor.
Defined.

(** ** What the hash depends on *)

(** The text that [hashFactJSON] hashes, written out. *)
Lemma canonical_formula d :
  canonical d =
  "{" +:+ pair_text "claim" (canonicalizeJSON (get d "claim_text")) +:+
  "," +:+ pair_text "evidence"
            (canonicalizeJSON (or_else (get d "evidence") (Array []))) +:+
  "," +:+ pair_text "id" (canonicalizeJSON (get d "fact_id")) +:+
  "," +:+ pair_text "issued_at" (canonicalizeJSON (get d "issued_at")) +:+
  "," +:+ pair_text "last_reviewed_at"
            (canonicalizeJSON (get d "issued_at")) +:+
  "," +:+ pair_text "severity" (canonicalizeJSON (get d "severity")) +:+
  "," +:+ pair_text "status" (Some (quote "active")) +:+
  "," +:+ pair_text "summary" (canonicalizeJSON (get d "summary")) +:+
  "," +:+ pair_text "topics"
            (canonicalizeJSON (or_else (get d "topics") (Array []))) +:+
  "," +:+ pair_text "verdict" (canonicalizeJSON (get d "verdict")) +:+
  "," +:+ pair_text "version" (Some "1") +:+
  "}".
Proof.
  unfold canonical, factObj. rewrite canonicalizeJSON_Object.
  assert (Hkeys : sort (keys
            [ ("id", get d "fact_id"); ("claim", get d "claim_text");
              ("verdict", get d "verdict"); ("severity", get d "severity");
              ("summary", get d "summary");
              ("evidence", or_else (get d "evidence") (Array []));
              ("topics", or_else (get d "topics") (Array []));
              ("issued_at", get d "issued_at");
              ("last_reviewed_at", get d "issued_at");
              ("version", Number (Finite 1)); ("status", Str "active") ])
          = [ "claim"; "evidence"; "id"; "issued_at"; "last_reviewed_at";
              "severity"; "status"; "summary"; "topics"; "verdict";
              "version" ]).
  { vm_compute. reflexivity. }
  rewrite Hkeys.
  cbn [map get String.eqb Ascii.eqb Bool.eqb join join_item template].
  rewrite !append_assoc. reflexivity.
Qed.

(** ** String literals are self-delimiting *)

Lemma prefix_app (a b x y : string) :
  a +:+ x = b +:+ y -> String.prefix a b = true ∨ String.prefix b a = true.
Proof.
  revert b. induction a as [|c a IH]; intros b H;
    [left; by destruct b|].
  destruct b as [|c' b]; [right; reflexivity|].
  rewrite !append_cons in H. injection H as -> H.
  simpl. destruct (ascii_dec c' c') as [_|Hne]; [by apply IH|by destruct Hne].
Qed.

(** The escapes form a prefix code, checked over all 256 code units: no
    escape is a prefix of the escape of another unit, none is empty and
    none begins with the double quote. *)
Lemma escape_is_prefix_code :
  forallb (fun n =>
    forallb (fun m =>
      implb (String.prefix (escape (ascii_of_nat n))
                           (escape (ascii_of_nat m)))
            (Nat.eqb n m))
      code_units)
    code_units = true.
Proof. vm_compute. reflexivity. Qed.

Lemma escape_avoids_quote :
  forallb (fun n =>
    match escape (ascii_of_nat n) with
    | String e _ => negb (Ascii.eqb e dquote)
    | EmptyString => false
    end)
    code_units = true.
Proof. vm_compute. reflexivity. Qed.

Lemma code_unit_listed c : In (nat_of_ascii c) code_units.
Proof. apply in_seq. pose proof (nat_ascii_bounded c). lia. Qed.

Lemma escape_prefix c c' :
  String.prefix (escape c) (escape c') = true -> c = c'.
Proof.
  intros Hp.
  pose proof (proj1 (forallb_forall _ _) escape_is_prefix_code
                _ (code_unit_listed c)) as Hc.
  cbv beta in Hc.
  pose proof (proj1 (forallb_forall _ _) Hc _ (code_unit_listed c')) as Hcc.
  cbv beta in Hcc.
  rewrite !ascii_nat_embedding, Hp in Hcc.
  apply Nat.eqb_eq in Hcc.
  by rewrite <- (ascii_nat_embedding c), Hcc, ascii_nat_embedding.
Qed.

Lemma escape_not_quote c x y : escape c +:+ x ≠ String dquote y.
Proof.
  intros H.
  pose proof (proj1 (forallb_forall _ _) escape_avoids_quote
                _ (code_unit_listed c)) as Hc.
  cbv beta in Hc. rewrite ascii_nat_embedding in Hc.
  destruct (escape c) as [|e rest]; [discriminate|].
  rewrite append_cons in H. injection H as -> _.
  by rewrite Ascii.eqb_refl in Hc.
Qed.

(** Two escapes followed by anything agree only for the same code unit. *)
Lemma escape_app c c' x y :
  escape c +:+ x = escape c' +:+ y -> c = c' ∧ x = y.
Proof.
  intros H.
  assert (c = c') as <-.
  { destruct (prefix_app _ _ _ _ H) as [Hp|Hp];
      [|symmetry]; by apply escape_prefix. }
  split; [done|]. by apply (inj (String.app (escape c))).
Qed.

Lemma escape_all_app s s' x y :
  escape_all s +:+ String dquote x = escape_all s' +:+ String dquote y ->
  s = s' ∧ x = y.
Proof.
  revert s'. induction s as [|c s IH]; intros [|c' s'] H.
  - rewrite !append_nil_l in H. by injection H as ->.
  - cbn [escape_all] in H. rewrite append_nil_l, append_assoc in H.
    symmetry in H. by apply escape_not_quote in H.
  - cbn [escape_all] in H. rewrite append_nil_l, append_assoc in H.
    by apply escape_not_quote in H.
  - cbn [escape_all] in H. rewrite !append_assoc in H.
    apply escape_app in H as [-> H]. by apply IH in H as [-> ->].
Qed.

(** A quoted string followed by anything determines the string and what
    follows. *)
Lemma quote_app s s' x y :
  quote s +:+ x = quote s' +:+ y -> s = s' ∧ x = y.
Proof.
  unfold quote, str1. rewrite !append_cons, !append_assoc, !append_cons,
    !append_nil_l.
  intros [= H]. by apply escape_all_app.
Qed.

Lemma quote_inj s s' : quote s = quote s' -> s = s'.
Proof.
  intros H. apply (quote_app s s' EmptyString EmptyString).
  by rewrite !append_nil_r.
Qed.

(** ** Peeling a text from the left *)

Lemma append_inv_head (a x y : string) : a +:+ x = a +:+ y -> x = y.
Proof. apply (inj (String.app a)). Qed.

(** A pair is its label followed by the text of the value. *)
Lemma pair_text_app key v x :
  pair_text key v +:+ x
  = String dquote (key +:+ String dquote ":") +:+ (template v +:+ x).
Proof.
  unfold pair_text.
  repeat first [ rewrite append_cons | rewrite append_assoc
               | rewrite append_nil_l ].
  reflexivity.
Qed.

(** Bring both sides of an equation between texts into the shape
    [piece +:+ (piece +:+ ...)] and drop the pieces they share. *)
Ltac peel H :=
  repeat first [ rewrite pair_text_app in H | rewrite append_assoc in H ];
  repeat (apply append_inv_head in H).

Lemma entry_text_app e e' x y :
  entry_text e +:+ x = entry_text e' +:+ y -> e = e' ∧ x = y.
Proof.
  unfold entry_text. intros H. peel H. cbn [template] in H.
  apply quote_app in H as [Ha H]. peel H. cbn [template] in H.
  apply quote_app in H as [Ht H]. peel H. cbn [template] in H.
  apply quote_app in H as [Hu H]. peel H.
  destruct e, e'; simpl in *. by subst.
Qed.

Lemma canonicalizeJSON_entry e :
  canonicalizeJSON (evidence_entry e) = Some (entry_text e).
Proof.
  unfold evidence_entry. rewrite canonicalizeJSON_Object.
  assert (Hkeys : sort (keys [ ("url", Str (url e)); ("title", Str (title e));
                               ("accessed_at", Str (accessed_at e)) ])
                  = ["accessed_at"; "title"; "url"]).
  { vm_compute. reflexivity. }
  rewrite Hkeys. unfold entry_text.
  cbn [map get String.eqb Ascii.eqb Bool.eqb join join_item].
  rewrite !append_assoc. reflexivity.
Qed.

(** The elements of an array text after the first. *)
Lemma join_cons sep t l :
  join sep (Some t :: l)
  = t +:+ match l with [] => EmptyString | _ => sep +:+ join sep l end.
Proof. destruct l; simpl; [by rewrite append_nil_r|done]. Qed.

Lemma entries_app es es' x y :
  join "," (map (fun e => Some (entry_text e)) es) +:+ "]" +:+ x
  = join "," (map (fun e => Some (entry_text e)) es') +:+ "]" +:+ y ->
  es = es' ∧ x = y.
Proof.
  revert es'. induction es as [|e es IH]; intros [|e' es'] H.
  - cbn [map join] in H. rewrite !append_nil_l in H.
    by apply append_inv_head in H.
  - cbn [map] in H. rewrite join_cons in H. unfold entry_text in H.
    cbn [map join] in H. rewrite !append_assoc in H. discriminate.
  - cbn [map] in H. rewrite join_cons in H. unfold entry_text in H.
    cbn [map join] in H. rewrite !append_assoc in H. discriminate.
  - cbn [map] in H. rewrite !join_cons, !append_assoc in H.
    apply entry_text_app in H as [-> H].
    destruct es as [|e1 es], es' as [|e1' es'].
    + cbn [map] in H. rewrite !append_nil_l in H.
      by apply append_inv_head in H.
    + cbn [map] in H. discriminate.
    + cbn [map] in H. discriminate.
    + cbn [map] in H. rewrite !append_assoc in H.
      apply append_inv_head in H.
      by apply (IH (e1' :: es')) in H as [-> ->].
Qed.

Lemma canonicalizeJSON_evidence es :
  canonicalizeJSON (or_else (evidence_array es) (Array []))
  = Some ("[" +:+ join "," (map (fun e => Some (entry_text e)) es) +:+ "]").
Proof.
  change (or_else (evidence_array es) (Array [])) with (evidence_array es).
  unfold evidence_array. rewrite canonicalizeJSON_Array, map_map.
  erewrite map_ext; [reflexivity|]. intros e. apply canonicalizeJSON_entry.
Qed.

(** ** Assigning a property *)

Lemma get_set_eq d key v : get (set_prop d key v) key = v.
Proof.
  induction d as [|[k x] d IH]; simpl.
  - by rewrite String.eqb_refl.
  - destruct (String.eqb k key) eqn:E; simpl; rewrite E; [done|apply IH].
Qed.

Lemma get_set_ne d key v key' :
  key ≠ key' -> get (set_prop d key v) key' = get d key'.
Proof.
  intros Hne. induction d as [|[k x] d IH]; simpl.
  - by rewrite (proj2 (String.eqb_neq _ _) Hne).
  - destruct (String.eqb_spec k key) as [->|Hk]; simpl.
    + by rewrite (proj2 (String.eqb_neq _ _) Hne).
    + by rewrite IH.
Qed.

(** ** The bytes that are hashed *)

Lemma utf8_char_app c c' x y :
  (utf8_char c ++ x = utf8_char c' ++ y)%list -> c = c' ∧ x = y.
Proof.
  unfold utf8_char. intros H.
  assert (Hn : N_of_ascii c = N_of_ascii c').
  { pose proof (N_ascii_bounded c) as Hc.
    pose proof (N_ascii_bounded c') as Hc'.
    destruct (N.ltb_spec (N_of_ascii c) 128),
             (N.ltb_spec (N_of_ascii c') 128); simpl in H.
    - by injection H.
    - injection H as H _. revert H.
      generalize (N_of_ascii c' / 64)%N. lia.
    - injection H as H _. revert H.
      generalize (N_of_ascii c / 64)%N. lia.
    - injection H as Hq Hr _.
      pose proof (N.div_mod (N_of_ascii c) 64) as D.
      pose proof (N.div_mod (N_of_ascii c') 64) as D'.
      revert Hq Hr D D'.
      generalize (N_of_ascii c / 64)%N, (N_of_ascii c' / 64)%N,
        (N_of_ascii c mod 64)%N, (N_of_ascii c' mod 64)%N.
      lia. }
  assert (c = c') as <-.
  { by rewrite <- (ascii_N_embedding c), Hn, ascii_N_embedding. }
  split; [done|]. by apply app_inv_head in H.
Qed.

Lemma TextEncoder_encode_inj s s' :
  TextEncoder_encode s = TextEncoder_encode s' -> s = s'.
Proof.
  unfold TextEncoder_encode. revert s'.
  induction s as [|c s IH]; intros [|c' s'] H; simpl in H.
  - done.
  - unfold utf8_char in H. by destruct (_ <? _)%N.
  - unfold utf8_char in H. by destruct (_ <? _)%N.
  - apply utf8_char_app in H as [-> H]. f_equal. by apply IH.
Qed.

(** ** Sensitivity *)

(** C2, as the claim states it, fails: two inputs that differ in the
    version only, or in the review date only, have the same hash. *)
Lemma version_and_review_date_not_hashed :
  get Examples.factData_v1 "version" ≠ get Examples.factData_v2 "version" ∧
  hashFactJSON Examples.factData_v1 = hashFactJSON Examples.factData_v2 ∧
  get Examples.factData_reviewed_early "last_reviewed_at"
    ≠ get Examples.factData_reviewed_late "last_reviewed_at" ∧
  hashFactJSON Examples.factData_reviewed_early
    = hashFactJSON Examples.factData_reviewed_late.
Proof.
  repeat split; try (vm_compute; reflexivity); vm_compute; discriminate.
Qed.

(** Read a property of a record after one property was assigned. *)
Ltac read_props :=
  repeat first [ rewrite get_set_eq
               | rewrite get_set_ne by discriminate ].

Lemma string_field_sensitive d key s s' :
  key ∈ ["claim_text"; "verdict"; "severity"; "summary"; "issued_at"] ->
  canonical (set_prop d key (Str s)) = canonical (set_prop d key (Str s')) ->
  s = s'.
Proof.
  intros Hkey H. rewrite !canonical_formula in H.
  repeat (apply elem_of_cons in Hkey as [->|Hkey]);
    [..|by apply elem_of_nil in Hkey];
    revert H; read_props; intros H; peel H;
    cbn [canonicalizeJSON JSON_stringify_prim template] in H;
    by apply quote_app in H as [? _].
Qed.

Lemma evidence_sensitive d es es' :
  canonical (set_prop d "evidence" (evidence_array es))
  = canonical (set_prop d "evidence" (evidence_array es')) ->
  es = es'.
Proof.
  intros H. rewrite !canonical_formula in H.
  revert H; read_props; intros H.
  rewrite !canonicalizeJSON_evidence in H. peel H.
  cbn [template] in H. rewrite !append_assoc in H.
  apply append_inv_head in H.
  by apply entries_app in H as [? _].
Qed.

Lemma unread_field d key v :
  key ∈ ["last_reviewed_at"; "version"; "status"] ->
  canonical (set_prop d key v) = canonical d.
Proof.
  intros Hkey. rewrite !canonical_formula.
  repeat (apply elem_of_cons in Hkey as [->|Hkey]);
    [..|by apply elem_of_nil in Hkey];
    by read_props.
Qed.

(** C2 (amended): for any record, giving the claim text, verdict,
    severity, summary or issue date a different string, or giving the
    evidence a different list of entries, changes the bytes that are
    hashed, so the hash changes unless SHA-256 collides. The review date,
    version and status of the input are not read ([hashFactJSON] writes
    the issue date, 1 and "active" in their place): changing any of them
    changes neither the bytes nor the hash. *)
Theorem hash_input_sensitivity d :
  (forall key s s',
     key ∈ ["claim_text"; "verdict"; "severity"; "summary"; "issued_at"] ->
     s ≠ s' ->
     TextEncoder_encode (canonical (set_prop d key (Str s)))
     ≠ TextEncoder_encode (canonical (set_prop d key (Str s')))) ∧
  (forall es es',
     es ≠ es' ->
     TextEncoder_encode (canonical (set_prop d "evidence" (evidence_array es)))
     ≠ TextEncoder_encode
         (canonical (set_prop d "evidence" (evidence_array es')))) ∧
  (forall key v,
     key ∈ ["last_reviewed_at"; "version"; "status"] ->
     canonical (set_prop d key v) = canonical d ∧
     hashFactJSON (set_prop d key v) = hashFactJSON d).
Proof.
  repeat apply conj.
  - intros key s s' Hkey Hne H. apply Hne.
    apply TextEncoder_encode_inj in H.
    by apply (string_field_sensitive d key).
  - intros es es' Hne H. apply Hne.
    apply TextEncoder_encode_inj in H.
    by apply (evidence_sensitive d).
  - intros key v Hkey. unfold hashFactJSON.
    by rewrite (unread_field d key v Hkey).
Qed.

Lemma hash_input_sensitivity_witness :
  TextEncoder_encode
    (canonical (set_prop Examples.factData "issued_at" (Str "2024")))
  ≠ TextEncoder_encode
      (canonical (set_prop Examples.factData "issued_at" (Str "2025"))) ∧
  TextEncoder_encode
    (canonical (set_prop Examples.factData "evidence" (evidence_array [])))
  ≠ TextEncoder_encode
      (canonical (set_prop Examples.factData "evidence"
                    (evidence_array
                       [{| url := "u"; title := "t";
                           accessed_at := "2024" |}]))) ∧
  hashFactJSON (set_prop Examples.factData "status" (Str "withdrawn"))
  = hashFactJSON Examples.factData.
Proof.
  destruct (hash_input_sensitivity Examples.factData)
    as (Hstr & Hev & Hunread).
  repeat apply conj.
  - apply (Hstr "issued_at" "2024" "2025").
    + apply (bool_decide_unpack _). vm_compute. exact I.
    + discriminate.
  - apply (Hev [] [{| url := "u"; title := "t"; accessed_at := "2024" |}]).
    discriminate.
  - apply (Hunread "status" (Str "withdrawn")).
    apply (bool_decide_unpack _). vm_compute. exact I.
Defined.

End CanonicalFacts.

(* ===================================================================== *)
(** * Further properties of the canonicaliser and hasher *)
(* ===================================================================== *)

Module CanonicalMore.
Import Canonical CanonicalFacts.

(** ** Arrays keep their order *)

(** The text of a sequence of self-delimiting items, followed by the
    closing bracket, determines the sequence. *)
Lemma items_app {A} (text : A -> string) xs xs' x y :
  (forall a a' u w, text a +:+ u = text a' +:+ w -> a = a' ∧ u = w) ->
  (forall a u w, text a +:+ u ≠ String "]"%char w) ->
  join "," (map (fun a => Some (text a)) xs) +:+ "]" +:+ x
  = join "," (map (fun a => Some (text a)) xs') +:+ "]" +:+ y ->
  xs = xs' ∧ x = y.
Proof.
  intros Hitem Hopen. revert xs'.
  induction xs as [|a xs IH]; intros [|a' xs'] H.
  - cbn [map join] in H. rewrite !append_nil_l in H.
    by apply append_inv_head in H.
  - cbn [map] in H. rewrite join_cons in H.
    cbn [map join] in H. rewrite !append_nil_l, !append_assoc in H.
    symmetry in H. by apply Hopen in H.
  - cbn [map] in H. rewrite join_cons in H.
    cbn [map join] in H. rewrite !append_nil_l, !append_assoc in H.
    by apply Hopen in H.
  - cbn [map] in H. rewrite !join_cons, !append_assoc in H.
    apply Hitem in H as [-> H].
    destruct xs as [|a1 xs], xs' as [|a1' xs'].
    + cbn [map] in H. rewrite !append_nil_l in H.
      by apply append_inv_head in H.
    + cbn [map] in H. discriminate.
    + cbn [map] in H. discriminate.
    + cbn [map] in H. rewrite !append_assoc in H.
      apply append_inv_head in H.
      by apply (IH (a1' :: xs')) in H as [-> ->].
Qed.

Lemma quote_not_bracket s u w : quote s +:+ u ≠ String "]"%char w.
Proof. unfold quote. rewrite append_cons. discriminate. Qed.

Lemma canonicalizeJSON_topics ts :
  canonicalizeJSON (or_else (topics_array ts) (Array []))
  = Some ("[" +:+ join "," (map (fun t => Some (quote t)) ts) +:+ "]").
Proof.
  change (or_else (topics_array ts) (Array [])) with (topics_array ts).
  unfold topics_array. rewrite canonicalizeJSON_Array, map_map.
  reflexivity.
Qed.

(** X13: the canonicaliser keeps arrays in the order they come: two
    records that differ in their list of topics, be it only in the order
    of the same topics, give different bytes to hash. *)
Theorem topics_order_hashed d ts ts' :
  ts ≠ ts' ->
  TextEncoder_encode (canonical (set_prop d "topics" (topics_array ts)))
  ≠ TextEncoder_encode (canonical (set_prop d "topics" (topics_array ts'))).
Proof.
  intros Hne H. apply Hne. apply TextEncoder_encode_inj in H.
  rewrite !canonical_formula in H.
  revert H; read_props; intros H.
  rewrite !canonicalizeJSON_topics in H. peel H.
  cbn [template] in H. rewrite !append_assoc in H.
  apply append_inv_head in H.
  apply (items_app quote) in H as [? _]; [done| |].
  - apply quote_app.
  - apply quote_not_bracket.
Qed.

Lemma topics_order_hashed_witness :
  TextEncoder_encode
    (canonical (set_prop Examples.factData "topics"
                  (topics_array ["cures"; "diet"])))
  ≠ TextEncoder_encode
      (canonical (set_prop Examples.factData "topics"
                    (topics_array ["diet"; "cures"]))).
Proof.
  apply (topics_order_hashed Examples.factData
           ["cures"; "diet"] ["diet"; "cures"]).
  discriminate.
Defined.

(** X14: the identifier is part of what is hashed: the same content
    under another [fact_id] gives different bytes to hash. *)
Theorem fact_id_hashed d s s' :
  s ≠ s' ->
  TextEncoder_encode (canonical (set_prop d "fact_id" (Str s)))
  ≠ TextEncoder_encode (canonical (set_prop d "fact_id" (Str s'))).
Proof.
  intros Hne H. apply Hne. apply TextEncoder_encode_inj in H.
  rewrite !canonical_formula in H.
  revert H; read_props; intros H. peel H.
  cbn [canonicalizeJSON JSON_stringify_prim template] in H.
  by apply quote_app in H as [? _].
Qed.

Lemma fact_id_hashed_witness :
  TextEncoder_encode
    (canonical (set_prop Examples.factData "fact_id" (Str "org-fact-1")))
  ≠ TextEncoder_encode
      (canonical (set_prop Examples.factData "fact_id" (Str "org-fact-2"))).
Proof.
  apply (fact_id_hashed Examples.factData "org-fact-1" "org-fact-2").
  discriminate.
Defined.

(** ** Values the text does not tell apart *)

Lemma get_nullify props key :
  get (map (fun kv => match kv with (k, x) => (k, nullify x) end) props) key
  = nullify (get props key).
Proof.
  induction props as [|[k x] props IH]; simpl; [done|].
  destruct (String.eqb k key); [done|apply IH].
Qed.

(** X15: the canonical text does not tell a non-finite number from
    [null]: replacing every NaN and Infinity in a value by [null], at any
    depth, leaves the text as it is. *)
Theorem non_finite_reads_as_null v :
  canonicalizeJSON (nullify v) = canonicalizeJSON v.
Proof.
  induction v as [| |b|n|s|items IH|props IH] using value_induction;
    try reflexivity.
  - by destruct n.
  - cbn [nullify]. rewrite !canonicalizeJSON_Array, map_map.
    assert (Hmap : map (fun x => canonicalizeJSON (nullify x)) items
                   = map canonicalizeJSON items); [|by rewrite Hmap].
    induction IH as [|x items Hx _ IHitems]; [done|].
    simpl. by rewrite Hx, IHitems.
  - cbn [nullify]. rewrite !canonicalizeJSON_Object.
    assert (Hkeys : keys (map (fun kv => match kv with
                                         | (k, x) => (k, nullify x)
                                         end) props) = keys props).
    { unfold keys. rewrite map_map. apply map_ext. by intros [k x]. }
    rewrite Hkeys.
    erewrite map_ext_in; [reflexivity|].
    intros key Hin. cbv beta. rewrite get_nullify. do 2 f_equal.
    unfold sort in Hin. apply list_elem_of_In in Hin.
    rewrite merge_sort_Permutation in Hin.
    unfold keys in Hin. apply list_elem_of_fmap in Hin as ([k x] & -> & Hin).
    simpl. clear Hkeys.
    induction IH as [|[k0 x0] props Hx0 _ IHprops];
      [by apply elem_of_nil in Hin|].
    simpl. destruct (String.eqb_spec k0 k) as [->|Hk]; [exact Hx0|].
    apply IHprops. apply elem_of_cons in Hin as [[= -> ->]|Hin]; [done|done].
Qed.

(** Sorting a pair of names already in order leaves it as it is. *)
Lemma sort_pair k1 k2 : String.le k1 k2 -> sort [k1; k2] = [k1; k2].
Proof.
  intros Hle. unfold sort. apply (Sorted_unique String.le).
  - apply Sorted_merge_sort. apply _.
  - repeat constructor. exact Hle.
  - apply merge_sort_Permutation.
Qed.

(** X16: property names go into the text as they are, without the
    escaping that values get, so the text is ambiguous: an object with
    two properties has the same text, and so the same hash, as an object
    with the single property whose name spells the first pair and the
    opening of the second. *)
Theorem unescaped_names_collide k1 k2 v1 v2 :
  String.le k1 k2 -> k1 ≠ k2 ->
  canonicalizeJSON (Object [(k1, v1); (k2, v2)])
  = canonicalizeJSON
      (Object [(k1 +:+ String dquote (":" +:+ template (canonicalizeJSON v1)
                +:+ "," +:+ String dquote k2), v2)]).
Proof.
  intros Hle Hne. rewrite !canonicalizeJSON_Object.
  unfold keys. cbn [map fst]. rewrite (sort_pair k1 k2 Hle).
  assert (Hone : forall k, sort [k] = [k]) by (intros k; reflexivity).
  rewrite Hone. cbn [map get join join_item].
  rewrite !String.eqb_refl.
  rewrite (proj2 (String.eqb_neq k1 k2) Hne).
  f_equal. f_equal. unfold pair_text.
  repeat first [ rewrite append_cons | rewrite append_assoc
               | rewrite append_nil_l ].
  reflexivity.
Qed.

Lemma unescaped_names_collide_witness :
  canonicalizeJSON (Object [("a", Number (Finite 1)); ("b", Number (Finite 2))])
  = canonicalizeJSON
      (Object [(Examples.dq "a':1,'b", Number (Finite 2))]).
Proof.
  apply (unescaped_names_collide "a" "b" (Number (Finite 1))
           (Number (Finite 2))).
  - vm_compute. exact I.
  - discriminate.
Defined.

End CanonicalMore.

(* ===================================================================== *)
(** * Properties of the front-end mappings *)
(* ===================================================================== *)

Module MappingFacts.
Import ContractMapping.

(** ** Lower case *)

Lemma lower_unit_twice_checked :
  forallb (fun n =>
    Ascii.eqb (lower_unit (lower_unit (ascii_of_nat n)))
              (lower_unit (ascii_of_nat n)))
    Canonical.code_units = true.
Proof. vm_compute. reflexivity. Qed.

Lemma lower_unit_twice c : lower_unit (lower_unit c) = lower_unit c.
Proof.
  pose proof (proj1 (forallb_forall _ _) lower_unit_twice_checked
                _ (CanonicalFacts.code_unit_listed c)) as H.
  cbv beta in H. rewrite ascii_nat_embedding in H.
  by apply Ascii.eqb_eq in H.
Qed.

Lemma toLowerCase_twice s : toLowerCase (toLowerCase s) = toLowerCase s.
Proof.
  induction s as [|c s IH]; simpl; [done|].
  by rewrite lower_unit_twice, IH.
Qed.

(** ** Lookups *)

(** The keys of a table, tried in order. *)
Ltac try_keys k :=
  repeat match goal with
  | |- context [String.eqb ?name k] =>
      destruct (String.eqb_spec name k) as [<-|?]
  | H : context [String.eqb ?name k] |- _ =>
      destruct (String.eqb_spec name k) as [<-|?]
  end.

Lemma lookup_verdict_cases k :
  (∃ n, lookup verdict_map k = Own n ∧ 0 <= n <= 4 ∧ enumToVerdict n = k) ∨
  (lookup verdict_map k = Inherited k ∧ In k prototype_names) ∨
  lookup verdict_map k = Missing.
Proof.
  unfold lookup, verdict_map. cbn [own].
  try_keys k; try (left; eexists; split; [reflexivity|];
                   split; [lia|reflexivity]).
  destruct (existsb (String.eqb k) prototype_names) eqn:E; [|by right; right].
  right; left. split; [done|].
  apply existsb_exists in E as (x & Hx & ->%String.eqb_eq). done.
Qed.

Lemma lookup_severity_cases k :
  (∃ n, lookup severity_map k = Own n ∧ 0 <= n <= 3 ∧ enumToSeverity n = k) ∨
  (lookup severity_map k = Inherited k ∧ In k prototype_names) ∨
  lookup severity_map k = Missing.
Proof.
  unfold lookup, severity_map. cbn [own].
  try_keys k; try (left; eexists; split; [reflexivity|];
                   split; [lia|reflexivity]).
  destruct (existsb (String.eqb k) prototype_names) eqn:E; [|by right; right].
  right; left. split; [done|].
  apply existsb_exists in E as (x & Hx & ->%String.eqb_eq). done.
Qed.

(** The inherited names that survive lower-casing. *)
Lemma prototype_name_lower s :
  In (toLowerCase s) prototype_names ->
  toLowerCase s = "constructor" ∨ toLowerCase s = "__proto__".
Proof.
  intros Hin. pose proof (toLowerCase_twice s) as Hfix.
  unfold prototype_names in Hin. simpl in Hin.
  repeat (destruct Hin as [Hin|Hin];
          [rewrite <- Hin in *; first [by left | by right | discriminate]|]).
  done.
Qed.

(** What a lookup finds under a lower-cased key: the number of a known
    name, the inherited member under [constructor] or [__proto__], and
    nothing otherwise. *)
Lemma lookup_lower {A} (table : list (string * A)) s :
  lookup table (toLowerCase s) =
    match own table (toLowerCase s) with
    | Some a => Own a
    | None =>
        if String.eqb (toLowerCase s) "constructor"
           || String.eqb (toLowerCase s) "__proto__"
        then Inherited (toLowerCase s)
        else Missing
    end.
Proof.
  unfold lookup. destruct (own table (toLowerCase s)); [done|].
  destruct (existsb (String.eqb (toLowerCase s)) prototype_names) eqn:E.
  - apply existsb_exists in E as (x & Hx & Heq%String.eqb_eq).
    rewrite <- Heq in Hx.
    destruct (prototype_name_lower s Hx) as [-> | ->]; reflexivity.
  - destruct (String.eqb_spec (toLowerCase s) "constructor") as [Hc|_].
    { rewrite Hc in E. discriminate. }
    destruct (String.eqb_spec (toLowerCase s) "__proto__") as [Hp|_].
    { rewrite Hp in E. discriminate. }
    reflexivity.
Qed.

(** X17: the front end's [verdictToEnum] and [severityToEnum] ignore
    letter case and always answer. A string that lower-cases to a known
    name gives that name's number (true 0, false 1, misleading 2,
    unproven 3, partially_true 4; low 0, medium 1, high 2, critical 3);
    one that lower-cases to [constructor] or [__proto__] gives the
    member every object inherits under that name, not a number; every
    other string gives the default, 3 (unproven) or 0 (low). *)
Theorem enum_lookup_answers s :
  verdictToEnum s = verdictToEnum (toLowerCase s) ∧
  severityToEnum s = severityToEnum (toLowerCase s) ∧
  (forall name n,
     (name, n) ∈ [("true", 0); ("false", 1); ("misleading", 2);
                  ("unproven", 3); ("partially_true", 4)] ->
     toLowerCase s = name -> verdictToEnum s = Value n) ∧
  (forall name n,
     (name, n) ∈ [("low", 0); ("medium", 1); ("high", 2); ("critical", 3)] ->
     toLowerCase s = name -> severityToEnum s = Value n) ∧
  (toLowerCase s ∈ ["constructor"; "__proto__"] ->
   verdictToEnum s = Member (toLowerCase s) ∧
   severityToEnum s = Member (toLowerCase s)) ∧
  (toLowerCase s ∉ ["true"; "false"; "misleading"; "unproven";
                    "partially_true"; "constructor"; "__proto__"] ->
   verdictToEnum s = Value 3) ∧
  (toLowerCase s ∉ ["low"; "medium"; "high"; "critical"; "constructor";
                    "__proto__"] ->
   severityToEnum s = Value 0).
Proof.
  unfold verdictToEnum, severityToEnum. rewrite !toLowerCase_twice.
  rewrite !lookup_lower.
  repeat apply conj; try reflexivity.
  - intros name n Hin <-.
    repeat (apply elem_of_cons in Hin as [[= Hn ->]|Hin];
            [by rewrite Hn|]).
    by apply elem_of_nil in Hin.
  - intros name n Hin <-.
    repeat (apply elem_of_cons in Hin as [[= Hn ->]|Hin];
            [by rewrite Hn|]).
    by apply elem_of_nil in Hin.
  - intros Hin.
    repeat (apply elem_of_cons in Hin as [->|Hin]; [done|]).
    by apply elem_of_nil in Hin.
  - intros Hnot.
    apply not_elem_of_cons in Hnot as [H1 Hnot].
    apply not_elem_of_cons in Hnot as [H2 Hnot].
    apply not_elem_of_cons in Hnot as [H3 Hnot].
    apply not_elem_of_cons in Hnot as [H4 Hnot].
    apply not_elem_of_cons in Hnot as [H5 Hnot].
    apply not_elem_of_cons in Hnot as [H6 Hnot].
    apply not_elem_of_cons in Hnot as [H7 _].
    unfold verdict_map. cbn [own].
    repeat match goal with
    | H : toLowerCase s ≠ ?name |- context [String.eqb ?name (toLowerCase s)] =>
        rewrite (proj2 (String.eqb_neq name (toLowerCase s)))
          by (intros Heq; by apply H)
    end.
    rewrite (proj2 (String.eqb_neq _ _) H6), (proj2 (String.eqb_neq _ _) H7).
    reflexivity.
  - intros Hnot.
    apply not_elem_of_cons in Hnot as [H1 Hnot].
    apply not_elem_of_cons in Hnot as [H2 Hnot].
    apply not_elem_of_cons in Hnot as [H3 Hnot].
    apply not_elem_of_cons in Hnot as [H4 Hnot].
    apply not_elem_of_cons in Hnot as [H6 Hnot].
    apply not_elem_of_cons in Hnot as [H7 _].
    unfold severity_map. cbn [own].
    repeat match goal with
    | H : toLowerCase s ≠ ?name |- context [String.eqb ?name (toLowerCase s)] =>
        rewrite (proj2 (String.eqb_neq name (toLowerCase s)))
          by (intros Heq; by apply H)
    end.
    rewrite (proj2 (String.eqb_neq _ _) H6), (proj2 (String.eqb_neq _ _) H7).
    reflexivity.
Qed.

Lemma enum_lookup_answers_witness :
  verdictToEnum "MisLeading" = Value 2 ∧
  severityToEnum "CRITICAL" = Value 3 ∧
  verdictToEnum "Constructor" = Member "constructor" ∧
  verdictToEnum "bogus" = Value 3 ∧
  severityToEnum "bogus" = Value 0.
Proof.
  repeat apply conj.
  - destruct (enum_lookup_answers "MisLeading") as (_ & _ & H & _).
    apply (H "misleading" 2); [|reflexivity].
    apply (bool_decide_unpack _). vm_compute. exact I.
  - destruct (enum_lookup_answers "CRITICAL") as (_ & _ & _ & H & _).
    apply (H "critical" 3); [|reflexivity].
    apply (bool_decide_unpack _). vm_compute. exact I.
  - destruct (enum_lookup_answers "Constructor") as (_ & _ & _ & _ & H & _).
    apply H. apply (bool_decide_unpack _). vm_compute. exact I.
  - destruct (enum_lookup_answers "bogus") as (_ & _ & _ & _ & _ & H & _).
    apply H. apply (bool_decide_unpack _). vm_compute. exact I.
  - destruct (enum_lookup_answers "bogus") as (_ & _ & _ & _ & _ & _ & H).
    apply H. apply (bool_decide_unpack _). vm_compute. exact I.
Defined.

(** X18: the two directions of the front-end mappings undo each other on
    the known values: a number in range goes to its name and back; a
    name that maps to a number other than the default comes back
    lower-cased; and a number out of range goes to the default name. *)
Theorem enum_round_trip :
  (forall n, 0 <= n <= 4 -> verdictToEnum (enumToVerdict n) = Value n) ∧
  (forall n, 0 <= n <= 3 -> severityToEnum (enumToSeverity n) = Value n) ∧
  (forall n, n < 0 ∨ 4 < n -> enumToVerdict n = "unproven") ∧
  (forall n, n < 0 ∨ 3 < n -> enumToSeverity n = "low") ∧
  (forall s n, verdictToEnum s = Value n -> n ≠ 3 ->
               enumToVerdict n = toLowerCase s) ∧
  (forall s n, severityToEnum s = Value n -> n ≠ 0 ->
               enumToSeverity n = toLowerCase s).
Proof.
  repeat apply conj.
  - intros n Hn.
    assert (n = 0 ∨ n = 1 ∨ n = 2 ∨ n = 3 ∨ n = 4) as [->|[->|[->|[->| ->]]]]
      by lia; reflexivity.
  - intros n Hn.
    assert (n = 0 ∨ n = 1 ∨ n = 2 ∨ n = 3) as [->|[->|[->| ->]]]
      by lia; reflexivity.
  - intros n Hn. unfold enumToVerdict, element_or.
    destruct (Z.ltb_spec n 0); [done|].
    rewrite (proj2 (nth_error_None _ (Z.to_nat n))); [done|simpl; lia].
  - intros n Hn. unfold enumToSeverity, element_or.
    destruct (Z.ltb_spec n 0); [done|].
    rewrite (proj2 (nth_error_None _ (Z.to_nat n))); [done|simpl; lia].
  - intros s n. unfold verdictToEnum.
    destruct (lookup_verdict_cases (toLowerCase s))
      as [(m & -> & _ & Hm)|[[-> _]| ->]]; simpl; intros [= <-]; done.
  - intros s n. unfold severityToEnum.
    destruct (lookup_severity_cases (toLowerCase s))
      as [(m & -> & _ & Hm)|[[-> _]| ->]]; simpl; intros [= <-]; done.
Qed.

Lemma enum_round_trip_witness :
  verdictToEnum (enumToVerdict 4) = Value 4 ∧
  enumToVerdict 17 = "unproven" ∧
  enumToSeverity 2 = toLowerCase "HIGH".
Proof.
  destruct enum_round_trip as (Hv & _ & Hout & _ & _ & Hs).
  repeat apply conj.
  - apply Hv. lia.
  - apply Hout. lia.
  - apply (Hs "HIGH" 2); [reflexivity|lia].
Defined.

(** X19: the contract, the script and the front end hold the same
    tables: the name the contract gives an enum member is the name the
    front end gives its number, the front end maps that name back to
    the number, and whatever string the script maps to a member, the
    front end maps to that member's number. *)
Theorem enum_tables_agree :
  (forall v,
     enumToVerdict (Registry.Verdict_value v) = Registry.verdictToString v ∧
     verdictToEnum (Registry.verdictToString v)
       = Value (Registry.Verdict_value v)) ∧
  (forall s,
     enumToSeverity (Registry.Severity_value s) = Registry.severityToString s ∧
     severityToEnum (Registry.severityToString s)
       = Value (Registry.Severity_value s)) ∧
  (forall name v,
     Coordinator.verdictToEnum name = Some v ->
     verdictToEnum name = Value (Registry.Verdict_value v)) ∧
  (forall name s,
     Coordinator.severityToEnum name = Some s ->
     severityToEnum name = Value (Registry.Severity_value s)).
Proof.
  repeat apply conj.
  - by intros [].
  - by intros [].
  - intros name v <-%CoordinatorFacts.enum_name_of_verdict. by destruct v.
  - intros name s <-%CoordinatorFacts.enum_name_of_severity. by destruct s.
Qed.

Lemma enum_tables_agree_witness :
  verdictToEnum "misleading" = Value 2.
Proof.
  destruct enum_tables_agree as (_ & _ & Hscript & _).
  apply (Hscript "misleading" Registry.MISLEADING). reflexivity.
Defined.

End MappingFacts.

(* ===================================================================== *)
(** * Properties of the form *)
(* ===================================================================== *)

Module FormFacts.
Import StatementForm.

(** ** Trimming *)

Lemma trimEnd_twice s : trimEnd (trimEnd s) = trimEnd s.
Proof.
  induction s as [|c s IH]; [done|]. cbn [trimEnd].
  destruct (trimEnd s) as [|c' s'] eqn:E.
  - destruct (is_space c) eqn:Ec; [done|]. cbn [trimEnd]. by rewrite Ec.
  - change (trimEnd (String c (String c' s')))
      with (match trimEnd (String c' s') with
            | EmptyString =>
                if is_space c then EmptyString else String c EmptyString
            | rest' => String c rest'
            end).
    by rewrite IH.
Qed.

Lemma trimStart_head s :
  trimStart s = EmptyString ∨
  ∃ c rest, trimStart s = String c rest ∧ is_space c = false.
Proof.
  induction s as [|c s IH]; [by left|]. cbn [trimStart].
  destruct (is_space c) eqn:E; [done|]. right. eauto.
Qed.

Lemma trimEnd_head c rest :
  is_space c = false -> ∃ rest', trimEnd (String c rest) = String c rest'.
Proof.
  intros E. cbn [trimEnd]. rewrite E. destruct (trimEnd rest); eauto.
Qed.

Lemma trim_twice s : trim (trim s) = trim s.
Proof.
  unfold trim. destruct (trimStart_head s) as [->|(c & rest & -> & E)].
  - reflexivity.
  - destruct (trimEnd_head c rest E) as [rest' Hrest].
    rewrite Hrest. cbn [trimStart]. rewrite E, <- Hrest.
    apply trimEnd_twice.
Qed.

Lemma truthy_nonempty s : truthy s = true <-> s ≠ EmptyString.
Proof. by destruct s. Qed.

(** ** Removing by index *)

Lemma filter_index_all {A} keep k (l : list A) :
  (forall i, (k <= i)%nat -> keep i = true) -> filter_index keep k l = l.
Proof.
  revert k. induction l as [|x l IH]; intros k Hk; [done|].
  cbn [filter_index]. rewrite Hk by lia. f_equal. apply IH.
  intros i Hi. apply Hk. lia.
Qed.

Lemma filter_index_shift {A} n k (l : list A) :
  filter_index (fun i => negb (i =? S n)%nat) (S k) l
  = filter_index (fun i => negb (i =? n)%nat) k l.
Proof.
  revert k. induction l as [|x l IH]; intros k; [done|].
  cbn [filter_index]. rewrite IH.
  change (S k =? S n)%nat with (k =? n)%nat. reflexivity.
Qed.

Lemma filter_index_delete {A} index (l : list A) :
  filter_index (fun i => negb (i =? index)%nat) 0 l = delete index l.
Proof.
  revert index. induction l as [|x l IH]; intros index; [by destruct index|].
  destruct index as [|n]; cbn [filter_index]; simpl.
  - apply filter_index_all. intros i Hi.
    apply negb_true_iff, Nat.eqb_neq. lia.
  - f_equal. rewrite filter_index_shift. apply IH.
Qed.

Lemma delete_past_end {A} index (l : list A) :
  (length l <= index)%nat -> delete index l = l.
Proof.
  revert index. induction l as [|x l IH]; intros [|i] Hi; simpl in *;
    try done; try lia.
  f_equal. apply IH. lia.
Qed.

(** ** What the form holds *)

(** The entries of a form are clean: every topic is non-empty and has no
    white space around it; every evidence entry has a URL and a title;
    the verdict and the severity are items of their menus. *)
Record clean (f : FormData) : Prop := mkClean {
  topics_trimmed :
    Forall (fun t => t ≠ EmptyString ∧ trim t = t) (topics f);
  evidence_filled :
    Forall (fun e => url e ≠ EmptyString ∧ title e ≠ EmptyString)
           (evidence f);
  verdict_listed : verdict f ∈ verdict_items;
  severity_listed : severity f ∈ severity_items
}.

Lemma clean_emptyForm : clean emptyForm.
Proof.
  split; simpl; try by constructor.
  - unfold verdict_items. set_solver.
  - unfold severity_items. set_solver.
Qed.

Lemma Forall_delete_index {A} (P : A -> Prop) i (l : list A) :
  Forall P l -> Forall P (delete i l).
Proof.
  intros H. revert i. induction H as [|x l Hx Hl IH]; intros [|i]; simpl;
    auto using Forall.
Qed.

Lemma handle_clean c a : clean (formData c) -> clean (formData (handle c a)).
Proof.
  intros [Ht He Hv Hs].
  destruct a; cbn [handle]; try (by split).
  - destruct (nth_error verdict_items item) as [value|] eqn:E; [|by split].
    split; try done. simpl. apply list_elem_of_In. eapply nth_error_In, E.
  - destruct (nth_error severity_items item) as [value|] eqn:E; [|by split].
    split; try done. simpl. apply list_elem_of_In. eapply nth_error_In, E.
  - unfold addTopic. destruct (truthy _) eqn:E; [|by split].
    split; try done. simpl. apply Forall_app. split; [done|].
    constructor; [|constructor]. split.
    + by apply truthy_nonempty.
    + apply trim_twice.
  - split; try done. simpl. rewrite filter_index_delete.
    by apply Forall_delete_index.
  - unfold addEvidence.
    destruct (truthy (url _)) eqn:Eu; [|by split].
    destruct (truthy (title _)) eqn:Et; [|by split].
    split; try done. simpl. apply Forall_app. split; [done|].
    constructor; [|constructor]. split; by apply truthy_nonempty.
  - split; try done. simpl. rewrite filter_index_delete.
    by apply Forall_delete_index.
  - apply clean_emptyForm.
Qed.

Lemma after_snoc actions a : after (actions ++ [a]) = handle (after actions) a.
Proof. unfold after. by rewrite foldl_app. Qed.

Lemma after_clean actions : clean (formData (after actions)).
Proof.
  induction actions as [|a actions IH] using rev_ind.
  - apply clean_emptyForm.
  - rewrite after_snoc. by apply handle_clean.
Qed.

(** X20: whatever the user does with the form, its entries stay clean:
    every topic is non-empty and free of surrounding white space, every
    evidence entry has a non-empty URL and a non-empty title, and the
    verdict and severity are among the menu items, which the contract
    mappings send to a number in range and back to the same item. *)
Theorem form_entries_stay_clean actions :
  let f := formData (after actions) in
  Forall (fun t => t ≠ EmptyString ∧ trim t = t) (topics f) ∧
  Forall (fun e => url e ≠ EmptyString ∧ title e ≠ EmptyString)
         (evidence f) ∧
  (∃ n, ContractMapping.verdictToEnum (verdict f) = ContractMapping.Value n ∧
        0 <= n <= 4 ∧ ContractMapping.enumToVerdict n = verdict f) ∧
  (∃ n, ContractMapping.severityToEnum (severity f)
          = ContractMapping.Value n ∧
        0 <= n <= 3 ∧ ContractMapping.enumToSeverity n = severity f).
Proof.
  intros f. destruct (after_clean actions) as [Ht He Hv Hs].
  fold f in Ht, He, Hv, Hs. repeat apply conj; try done.
  - unfold verdict_items in Hv.
    repeat (apply elem_of_cons in Hv as [->|Hv]);
      [..|by apply elem_of_nil in Hv];
      eexists; (split; [reflexivity|]); (split; [lia|reflexivity]).
  - unfold severity_items in Hs.
    repeat (apply elem_of_cons in Hs as [->|Hs]);
      [..|by apply elem_of_nil in Hs];
      eexists; (split; [reflexivity|]); (split; [lia|reflexivity]).
Qed.

(** X21: removing by index deletes exactly the entry at that index and
    nothing else: the topics (or the evidence) after [removeTopic]
    ([removeEvidence]) are the list with that one position deleted, an
    index past the end changes nothing, and removing the topic that
    [addTopic] has just appended gives the earlier list back. *)
Theorem remove_deletes_one_entry c index :
  topics (formData (removeTopic index c)) = delete index (topics (formData c))
  ∧ evidence (formData (removeEvidence index c))
    = delete index (evidence (formData c)) ∧
  ((length (topics (formData c)) <= index)%nat ->
   formData (removeTopic index c) = formData c) ∧
  ((length (evidence (formData c)) <= index)%nat ->
   formData (removeEvidence index c) = formData c) ∧
  (trim (currentTopic c) ≠ EmptyString ->
   formData (removeTopic (length (topics (formData c))) (addTopic c))
   = formData c).
Proof.
  repeat apply conj.
  - simpl. apply filter_index_delete.
  - simpl. apply filter_index_delete.
  - intros Hi. destruct c as [[] ? ?]; simpl in *.
    rewrite filter_index_delete. unfold with_topics, with_evidence; simpl.
    f_equal. by apply delete_past_end.
  - intros Hi. destruct c as [[] ? ?]; simpl in *.
    rewrite filter_index_delete. unfold with_topics, with_evidence; simpl.
    f_equal. by apply delete_past_end.
  - intros Hne. apply truthy_nonempty in Hne. unfold addTopic. rewrite Hne.
    destruct c as [[] ? ?]; simpl in *.
    rewrite filter_index_delete. unfold with_topics; simpl. f_equal.
    rewrite delete_middle. apply app_nil_r.
Qed.

Lemma remove_deletes_one_entry_witness :
  formData (removeTopic 1
              (addTopic (handle (after [TypeTopic "diet"; AddTopic])
                                (TypeTopic " cures "))))
  = formData (after [TypeTopic "diet"; AddTopic]).
Proof.
  pose proof (remove_deletes_one_entry
                (handle (after [TypeTopic "diet"; AddTopic])
                        (TypeTopic " cures ")) 0) as (_ & _ & _ & _ & H).
  apply H. vm_compute. discriminate.
Defined.

(** ** A submission at the contract *)

Lemma makeFactId_nonempty timestamp : makeFactId timestamp ≠ EmptyString.
Proof. unfold makeFactId. rewrite CanonicalFacts.append_cons. discriminate. Qed.

(** [addFact] on arguments of the shape the form sends: a non-empty
    identifier, the review date equal to the issue date, version 1. *)
Lemma addFact_on_form_arguments env st h id v s i :
  id ≠ EmptyString ->
  match Registry.addFact env st h id v s i i 1 with
  | Registry.Success (st', _) =>
      Registry.readFact st' h =
        {| Registry.factHash := h; Registry.factId := id;
           Registry.verdict := v; Registry.severity := s;
           Registry.issuedAt := i; Registry.lastReviewedAt := i;
           Registry.version := 1; Registry.status := Registry.ACTIVE;
           Registry.addedBy := Registry.msg_sender env;
           Registry.addedAtBlock :=
             Registry.uint64 (Registry.block_number env) |}
  | Registry.Revert reason =>
      reason ∈ [ "HealthFactRegistry: caller is not the owner";
                 "HealthFactRegistry: fact already exists";
                 "HealthFactRegistry: invalid fact hash";
                 "HealthFactRegistry: future issuedAt timestamp";
                 "HealthFactRegistry: fact ID already exists" ]
  | Registry.Panic code => code = 17
  end.
Proof.
  intros Hid. apply RegistryFacts.nonempty_length in Hid.
  RegistryFacts.tx_unfold. rewrite Hid, Z.leb_refl.
  change (0 <? 1) with true.
  repeat RegistryFacts.tx_case;
    first [ apply RegistryFacts.readFact_insert_eq
          | reflexivity
          | repeat constructor ].
Qed.

(** X22: a submission from the form, whatever the user did before and
    whatever the clock reads, carries a verdict and a severity that are
    members of the contract's enums, named as the menus show them; and
    [addFact] on its arguments is never rejected for an empty
    identifier, a version below 1 or a review date before the issue
    date: it either stores the record as ACTIVE, version 1, reviewed
    when issued, or is rejected for the caller, the hash, a future issue
    date or a taken identifier. *)
Theorem submission_meets_contract getTime actions clock a env st h :
  handleSubmit getTime true (after actions) clock = Some a ->
  ∃ v s,
    verdictEnum a = ContractMapping.Value (Registry.Verdict_value v) ∧
    Registry.verdictToString v = verdict (formData (after actions)) ∧
    severityEnum a = ContractMapping.Value (Registry.Severity_value s) ∧
    Registry.severityToString s = severity (formData (after actions)) ∧
    match Registry.addFact env st h (factId a) v s (issuedAt a)
                           (lastReviewedAt a) (version a) with
    | Registry.Success (st', _) =>
        Registry.readFact st' h =
          {| Registry.factHash := h;
             Registry.factId := makeFactId (now clock);
             Registry.verdict := v; Registry.severity := s;
             Registry.issuedAt := getTime (issued clock) / 1000;
             Registry.lastReviewedAt := getTime (issued clock) / 1000;
             Registry.version := 1; Registry.status := Registry.ACTIVE;
             Registry.addedBy := Registry.msg_sender env;
             Registry.addedAtBlock :=
               Registry.uint64 (Registry.block_number env) |}
    | Registry.Revert reason =>
        reason ∈ [ "HealthFactRegistry: caller is not the owner";
                   "HealthFactRegistry: fact already exists";
                   "HealthFactRegistry: invalid fact hash";
                   "HealthFactRegistry: future issuedAt timestamp";
                   "HealthFactRegistry: fact ID already exists" ]
    | Registry.Panic code => code = 17
    end.
Proof.
  unfold handleSubmit. cbn [negb]. intros [= <-]. cbn [verdictEnum severityEnum
    factId issuedAt lastReviewedAt version].
  destruct (after_clean actions) as [_ _ Hv Hs].
  assert (∃ v, Registry.verdictToString v = verdict (formData (after actions)))
    as [v Ev].
  { unfold verdict_items in Hv.
    repeat (apply elem_of_cons in Hv as [->|Hv]);
      [..|by apply elem_of_nil in Hv].
    - by exists Registry.TRUE.
    - by exists Registry.FALSE.
    - by exists Registry.MISLEADING.
    - by exists Registry.UNPROVEN.
    - by exists Registry.PARTIALLY_TRUE. }
  assert (∃ s,
            Registry.severityToString s = severity (formData (after actions)))
    as [s Es].
  { unfold severity_items in Hs.
    repeat (apply elem_of_cons in Hs as [->|Hs]);
      [..|by apply elem_of_nil in Hs].
    - by exists Registry.LOW.
    - by exists Registry.MEDIUM.
    - by exists Registry.HIGH.
    - by exists Registry.CRITICAL. }
  exists v, s. rewrite <- Ev, <- Es.
  split; [by destruct v|]. split; [done|].
  split; [by destruct s|]. split; [done|].
  apply addFact_on_form_arguments, makeFactId_nonempty.
Qed.

Lemma submission_meets_contract_witness :
  ∃ v s, Registry.verdictToString v = "misleading" ∧
         Registry.severityToString s = "medium".
Proof.
  pose (clock := mkClock 1700000000123 "2023-11-14T22:13:20.123Z"
                         (fun _ => "2023-11-14T22:13:20.124Z")).
  pose (getTime := fun _ : string => 1700000000123).
  destruct (submission_meets_contract getTime
              [TypeClaim "Garlic cures colds"; PickVerdict 2] clock
              {| factHash :=
                   Canonical.hashFactJSON
                     (factData
                        (formData (after [TypeClaim "Garlic cures colds";
                                          PickVerdict 2])) clock);
                 factId := makeFactId 1700000000123;
                 verdictEnum := ContractMapping.verdictToEnum "misleading";
                 severityEnum := ContractMapping.severityToEnum "medium";
                 issuedAt := 1700000000123 / 1000;
                 lastReviewedAt := 1700000000123 / 1000;
                 version := 1 |}
              Examples.env1 Examples.genesis Examples.hashA eq_refl)
    as (v & s & _ & Hv & _ & Hs & _).
  exists v, s. split; [exact Hv|exact Hs].
Defined.

(** ** What is hashed for a submission *)

Lemma stamped_inj g g' es es' :
  imap (fun i ev => Canonical.mkEvidence (url ev) (title ev) (g i)) es
  = imap (fun i ev => Canonical.mkEvidence (url ev) (title ev) (g' i)) es' ->
  es = es' ∧ forall i, (i < length es)%nat -> g i = g' i.
Proof.
  revert g g' es'. induction es as [|e es IH]; intros g g' [|e' es'] H;
    try discriminate.
  - split; [done|]. simpl. lia.
  - simpl in H. injection H as Hu Ht Ha H.
    apply (IH (g ∘ S) (g' ∘ S)) in H as [-> Hrest].
    split.
    + destruct e, e'; simpl in *. by subst.
    + intros [|i] Hi; [done|]. apply Hrest. simpl in Hi. lia.
Qed.

Import Canonical CanonicalFacts CanonicalMore.

(** X23: the text hashed for a submission determines the submission: two
    submissions that give the same bytes to hash were made with the same
    [Date.now()] reading and issue date, from forms with the same claim,
    verdict, severity, summary, topics and evidence, and with the same
    access date on every evidence entry. *)
Theorem submission_text_determines_form f f' clock clock' :
  TextEncoder_encode (canonical (factData f clock))
  = TextEncoder_encode (canonical (factData f' clock')) ->
  f = f' ∧ now clock = now clock' ∧ issued clock = issued clock' ∧
  forall i, (i < length (evidence f))%nat ->
            accessed clock i = accessed clock' i.
Proof.
  intros H. apply TextEncoder_encode_inj in H.
  rewrite !canonical_formula in H. unfold factData in H.
  cbn [get String.eqb Ascii.eqb Bool.eqb] in H.
  rewrite !canonicalizeJSON_evidence, !canonicalizeJSON_topics in H.
  cbn [canonicalizeJSON JSON_stringify_prim] in H.
  peel H. cbn [template] in H.
  apply quote_app in H as [Hclaim H]. peel H.
  apply entries_app in H as [Hev H]. peel H.
  apply quote_app in H as [Hid H]. peel H.
  apply quote_app in H as [Hissued H]. peel H.
  apply quote_app in H as [_ H]. peel H.
  apply quote_app in H as [Hsev H]. peel H.
  apply quote_app in H as [Hsum H]. peel H.
  apply (items_app quote) in H as [Htopics H];
    [|apply quote_app|apply quote_not_bracket].
  peel H.
  apply quote_app in H as [Hverdict _].
  apply stamped_inj in Hev as [Hev Hacc].
  unfold makeFactId in Hid. apply append_inv_head in Hid.
  apply (inj pretty) in Hid.
  repeat split; try done.
  destruct f, f'; simpl in *. by subst.
Qed.

Lemma submission_text_determines_form_witness :
  now (mkClock 1700000000123 "2023-11-14T22:13:20.123Z" (fun _ => "later"))
  = 1700000000123.
Proof.
  pose (clock := mkClock 1700000000123 "2023-11-14T22:13:20.123Z"
                         (fun _ => "later")).
  pose proof (submission_text_determines_form
                (formData (after [TypeClaim "Garlic cures colds"]))
                (formData (after [TypeClaim "Garlic cures colds"]))
                clock clock eq_refl) as (_ & H & _).
  exact H.
Defined.

End FormFacts.
